(** * seo-checker: a shallow embedding of the crawler, its checks, the report
      aggregator and the sitemap renderer.

    Source files embedded here:
    - [check.ts]                      the checker crawl ([checkPath], [checkAllPages])
                                      and the report aggregation of the CLI action;
    - [seo.ts]                        the older, monolithic checker ([checkPath]);
    - [check/heading-hierarchy.ts]    the heading hierarchy check and the
                                      accessibility check ([notAriaHidden],
                                      [hasAccessibilityContent]);
    - [check/seo.ts]                  the SEO check, the performance check and
                                      the social media check;
    - [unnamed/part_001]              the ARIA role check;
    - [utils/html.ts]                 [isHTMLElement], [getTag];
    - [unnamed/part_000]              the module sitemap.ts imports as
                                      utils/generateSitemap: the sitemap crawl and
                                      renderer ([round], [getPriority], [escapeXml],
                                      [generateSitemap]);
    - [sitemap.ts]                    the two older [generate] actions.

    Modelling conventions.
    - JavaScript strings are [string]; characters are bytes.
    - JavaScript numbers are exact: integers are [Z], durations and priorities
      are rationals [Q] (IEEE rounding of doubles is not modelled).
    - A JavaScript object used as a dictionary is an association list in
      insertion order, which is the order [Object.values] enumerates keys that
      are not array indices (every key of the crawl starts with a slash).
    - Objects that are compared by identity carry their heap address.
    - The collaborators [fetch], [new URL] and the DOM serializer are
      parameters; the crawl records each page fetch it issues. *)

From Stdlib Require Import List String Ascii Bool Arith ZArith QArith Qround Qabs Lia.
From Stdlib Require Import DecimalString Lqa Qpower.
Import ListNotations.

Close Scope Q_scope.
Open Scope string_scope.
Open Scope list_scope.

Infix "+++" := String.append (right associativity, at level 60).

(** ** JavaScript primitives *)

Module JS.

(** [s.startsWith(p)] *)
Definition startsWith (s p : string) : bool := String.prefix p s.

(** [s.endsWith(p)] *)
Definition endsWith (s p : string) : bool :=
  (String.length p <=? String.length s)%nat
  && String.eqb (String.substring (String.length s - String.length p) (String.length p) s) p.

(** [s.includes(p)] *)
Fixpoint includes (s p : string) : bool :=
  String.prefix p s
  || match s with
     | EmptyString => false
     | String _ s' => includes s' p
     end.

(** [s.indexOf(c)] for a one-character needle; [-1] when absent. *)
Fixpoint indexOf (s : string) (c : ascii) : Z :=
  match s with
  | EmptyString => (-1)%Z
  | String d s' =>
      if Ascii.eqb d c then 0%Z
      else let i := indexOf s' c in
           if (i <? 0)%Z then (-1)%Z else (i + 1)%Z
  end.

(** [s.slice(0, n)] for [n >= 0]. *)
Definition slice0 (s : string) (n : Z) : string :=
  String.substring 0 (Z.to_nat n) s.

(** White space removed by [trim] (the ASCII part of it). *)
Definition isSpace (c : ascii) : bool :=
  match nat_of_ascii c with
  | 9 | 10 | 11 | 12 | 13 | 32 => true
  | _ => false
  end.

Fixpoint trimStart (s : string) : string :=
  match s with
  | EmptyString => EmptyString
  | String c s' => if isSpace c then trimStart s' else s
  end.

Fixpoint trimEnd (s : string) : string :=
  match s with
  | EmptyString => EmptyString
  | String c s' =>
      let t := trimEnd s' in
      if isSpace c && String.eqb t EmptyString then EmptyString else String c t
  end.

(** [s.trim()] *)
Definition trim (s : string) : string := trimEnd (trimStart s).

(** Truthiness of a string: the empty string is falsy. *)
Definition truthy (s : string) : bool := negb (String.eqb s EmptyString).

(** Truthiness of a possibly null string ([getAttribute], [?.]). *)
Definition truthy_opt (s : option string) : bool :=
  match s with
  | Some v => truthy v
  | None => false
  end.

(** Template interpolation of an integer. *)
Definition string_of_Z (z : Z) : string := NilEmpty.string_of_int (Z.to_int z).

Definition Qlt_bool (x y : Q) : bool := negb (Qle_bool y x).

(** [Math.round]: the nearest integer, ties towards plus infinity. *)
Definition Math_round (x : Q) : Z := Qfloor (x + (1 # 2))%Q.

(** [s.padStart(width, "0")] *)
Definition padStart0 (s : string) (width : nat) : string :=
  String.concat EmptyString (repeat "0" (width - String.length s)) +++ s.

(** [x.toFixed(digits)]: the nearest multiple of [10^-digits], a tie
    going to the larger magnitude, printed with exactly [digits] decimals. *)
Definition toFixed (x : Q) (digits : Z) : string :=
  let scale := (10 ^ digits)%Z in
  let n := Math_round (Qabs x * inject_Z scale)%Q in
  let body :=
    string_of_Z (n / scale)
    +++ (if (digits =? 0)%Z then EmptyString
         else "." +++ padStart0 (string_of_Z (n mod scale)) (Z.to_nat digits)) in
  if Qlt_bool x 0 then "-" +++ body else body.

(** [Math.max] on integers. *)
Definition Math_max (a b : Z) : Z := Z.max a b.

(** [Array.from(new Set(xs))]: a [Set] keeps the first occurrence of each
    value, in insertion order; [same] is the equality the set uses
    (string equality for strings, identity for objects). *)
Section SetOf.
Context {A : Type} (same : A -> A -> bool).

Definition has (seen : list A) (x : A) : bool := existsb (same x) seen.

Definition add (seen : list A) (x : A) : list A :=
  if has seen x then seen else seen ++ [x].

Definition Array_from_Set (xs : list A) : list A := fold_left add xs [].
End SetOf.

(** The values [lo, lo+1, ..., hi-1] a counting [for] loop runs through. *)
Definition range (lo hi : Z) : list Z :=
  map (fun k => (lo + Z.of_nat k)%Z) (seq 0 (Z.to_nat (hi - lo))).

(** Truthiness of an optional boolean option ([undefined] is falsy). *)
Definition truthy_flag (b : option bool) : bool :=
  match b with
  | Some v => v
  | None => false
  end.

(** [xs.splice(0, n)] returns the removed prefix and leaves the rest. *)
Definition splice0 {A : Type} (xs : list A) (n : Z) : list A * list A :=
  (firstn (Z.to_nat n) xs, skipn (Z.to_nat n) xs).

(** A plain object used as a dictionary. *)
Section Dict.
Context {V : Type}.

Definition Dict := list (string * V).

Fixpoint get (o : Dict) (k : string) : option V :=
  match o with
  | [] => None
  | (k', v) :: o' => if String.eqb k' k then Some v else get o' k
  end.

(** [o[k] = v]: an existing key keeps its position. *)
Fixpoint set (o : Dict) (k : string) (v : V) : Dict :=
  match o with
  | [] => [(k, v)]
  | (k', v') :: o' =>
      if String.eqb k' k then (k', v) :: o' else (k', v') :: set o' k v
  end.

Definition has_key (o : Dict) (k : string) : bool :=
  match get o k with
  | Some _ => true
  | None => false
  end.

(** [Object.values(o)] *)
Definition values (o : Dict) : list V := map snd o.
End Dict.
Arguments Dict : clear implicits.

End JS.

(** ** The document tree (the part of the DOM the checks read) *)

Module Dom.

Local Set Warnings "-register-all".

(** A node is a text node or an element.  [style] tells whether the element
    has a [style] property, which is what [isHTMLElement] tests. *)
Inductive Node : Type :=
| Text (data : string)
| Element (tagName : string) (attributes : list (string * string))
          (style : bool) (childNodes : list Node).

Definition isElement (n : Node) : bool :=
  match n with
  | Element _ _ _ _ => true
  | Text _ => false
  end.

Definition tagName_of (n : Node) : string :=
  match n with
  | Element t _ _ _ => t
  | Text _ => EmptyString
  end.

Definition style_of (n : Node) : bool :=
  match n with
  | Element _ _ s _ => s
  | Text _ => false
  end.

Fixpoint lookup_attr (attrs : list (string * string)) (name : string) : option string :=
  match attrs with
  | [] => None
  | (k, v) :: rest => if String.eqb k name then Some v else lookup_attr rest name
  end.

(** [element.getAttribute(name)]; [None] is [null]. *)
Definition getAttribute (n : Node) (name : string) : option string :=
  match n with
  | Element _ attrs _ _ => lookup_attr attrs name
  | Text _ => None
  end.

Definition hasAttribute (n : Node) (name : string) : bool :=
  match getAttribute n name with
  | Some _ => true
  | None => false
  end.

Definition attr_is (n : Node) (name value : string) : bool :=
  match getAttribute n name with
  | Some v => String.eqb v value
  | None => false
  end.

(** [element.children]: the child nodes that are elements. *)
Definition children (n : Node) : list Node :=
  match n with
  | Element _ _ _ cs => filter isElement cs
  | Text _ => []
  end.

(** [node.textContent]: the text of all descendant text nodes, in order. *)
Fixpoint textContent (n : Node) : string :=
  match n with
  | Text s => s
  | Element _ _ _ cs =>
      (fix all (l : list Node) : string :=
         match l with
         | [] => EmptyString
         | c :: l' => textContent c +++ all l'
         end) cs
  end.

(** An element together with its chain of ancestors, nearest first:
    what [parentElement] walks. *)
Record Located : Type := { self : Node; ancestors : list Node }.

Definition parentElement (e : Located) : option Located :=
  match ancestors e with
  | [] => None
  | p :: up => Some {| self := p; ancestors := up |}
  end.

(** The elements of a subtree in tree order, each with its ancestors. *)
Fixpoint elements_under (up : list Node) (n : Node) : list Located :=
  match n with
  | Text _ => []
  | Element _ _ _ cs =>
      {| self := n; ancestors := up |}
      :: (fix all (l : list Node) : list Located :=
            match l with
            | [] => []
            | c :: l' => elements_under (n :: up) c ++ all l'
            end) cs
  end.

Record Document : Type := { title : string; roots : list Node }.

Definition elements (d : Document) : list Located :=
  flat_map (elements_under []) (roots d).

(** The selectors the checks use: a comma list of compound selectors, each
    a conjunction of a type selector, attribute tests and [:not(...)]. *)
Inductive Simple : Type :=
| Tag (t : string)
| HasAttr (a : string)
| AttrEq (a v : string)
| Not (s : Simple).

Fixpoint matches_simple (n : Node) (s : Simple) : bool :=
  match s with
  | Tag t => String.eqb (tagName_of n) t
  | HasAttr a => hasAttribute n a
  | AttrEq a v => attr_is n a v
  | Not s' => negb (matches_simple n s')
  end.

Definition matches (n : Node) (sel : list (list Simple)) : bool :=
  existsb (fun compound => forallb (matches_simple n) compound) sel.

(** [document.querySelectorAll(sel)], in tree order. *)
Definition querySelectorAll (d : Document) (sel : list (list Simple)) : list Located :=
  filter (fun e => matches (self e) sel) (elements d).

End Dom.

(** ** check.ts: the page record and the options *)

Module Check.

Record Headings : Type := {
  h1 : list string; h2 : list string; h3 : list string;
  h4 : list string; h5 : list string; h6 : list string
}.

Definition no_headings : Headings :=
  {| h1 := []; h2 := []; h3 := []; h4 := []; h5 := []; h6 := [] |}.

(** [PageType]; [performanceScore] is the field the performance check adds. *)
Record PageType : Type := {
  path : string;
  title : string;
  headings : Headings;
  errors : list string;
  warnings : list string;
  loadingTime : option Q;
  performanceScore : option string
}.

Record CheckOptions : Type := {
  seo : option bool;
  accessibility : option bool;
  verbose : option bool;
  socialMedia : option bool
}.

(** [page.errors.push(s)] *)
Definition push_error (page : PageType) (s : string) : PageType :=
  {| path := path page; title := title page; headings := headings page;
     errors := errors page ++ [s]; warnings := warnings page;
     loadingTime := loadingTime page; performanceScore := performanceScore page |}.

(** [page.warnings.push(s)] *)
Definition push_warning (page : PageType) (s : string) : PageType :=
  {| path := path page; title := title page; headings := headings page;
     errors := errors page; warnings := warnings page ++ [s];
     loadingTime := loadingTime page; performanceScore := performanceScore page |}.

(** [page.headings[...] = ...] for the six levels at once *)
Definition set_headings (page : PageType) (hs : Headings) : PageType :=
  {| path := path page; title := title page; headings := hs;
     errors := errors page; warnings := warnings page;
     loadingTime := loadingTime page; performanceScore := performanceScore page |}.

(** [page.performanceScore = s] *)
Definition set_performanceScore (page : PageType) (s : string) : PageType :=
  {| path := path page; title := title page; headings := headings page;
     errors := errors page; warnings := warnings page;
     loadingTime := loadingTime page; performanceScore := Some s |}.

(** [headings[`h${i}`] || []] *)
Definition level (hs : Headings) (i : Z) : list string :=
  match i with
  | 1%Z => h1 hs
  | 2%Z => h2 hs
  | 3%Z => h3 hs
  | 4%Z => h4 hs
  | 5%Z => h5 hs
  | 6%Z => h6 hs
  | _ => []
  end.

Definition used (hs : Headings) (i : Z) : bool :=
  (0 <? List.length (level hs i))%nat.

End Check.

(** ** The checks of the registry (directory [check/]) *)

(** The heading hierarchy check (check/heading-hierarchy.ts, first module). *)
Module HeadingHierarchy.
Import Check.

(** The inner loops [for (let j = 1; j < bound; j++)] that look for a
    shallower level with content and stop at the first one. *)
Definition anyLevelBelow (hs : Headings) (bound : Z) : bool :=
  existsb (used hs) (JS.range 1 bound).

(** The body of [for (const element of levels)]. *)
Definition visit (page : PageType) (currentLevel : Z) : PageType :=
  let hs := headings page in
  if used hs currentLevel then
    let page :=
      if (1 <? currentLevel)%Z then
        let hasParentLevel := anyLevelBelow hs currentLevel in
        if negb hasParentLevel then
          push_error page
            ("SEO: Heading hierarchy - h" +++ JS.string_of_Z currentLevel
               +++ " used without any parent heading levels")
        else page
      else page in
    if (2 <? currentLevel)%Z then
      let previousLevel := (currentLevel - 1)%Z in
      if (List.length (level hs previousLevel) =? 0)%nat then
        let hasEarlierLevel := anyLevelBelow hs previousLevel in
        if hasEarlierLevel then
          push_error page
            ("SEO: Heading hierarchy - h" +++ JS.string_of_Z currentLevel
               +++ " skips h" +++ JS.string_of_Z previousLevel +++ " level")
        else page
      else page
    else page
  else page.

Definition levels : list Z := [1; 2; 3; 4; 5; 6]%Z.

Definition check (options : CheckOptions) (document : Dom.Document) (page : PageType)
  : PageType :=
  if negb (JS.truthy_flag (seo options)) then page
  else fold_left visit levels page.

End HeadingHierarchy.

(** The heading part of the SEO check (check/seo.ts, first module, lines
    12-33): lines 15-19 fill [page.headings], lines 21-27 look at the first
    level, lines 29-33 compare each level with the level just above it.
    The rest of that check (title, meta description, anchors, images) is
    in module [SeoRules]. *)
Module SeoCheck.
Import Check.

Definition headingTexts (document : Dom.Document) (tag : string) : list string :=
  map (fun e => JS.trim (Dom.textContent (Dom.self e)))
      (Dom.querySelectorAll document [[Dom.Tag tag]]).

(** Lines 15-19. *)
Definition extractHeadings (document : Dom.Document) : Headings :=
  {| h1 := headingTexts document "h1"; h2 := headingTexts document "h2";
     h3 := headingTexts document "h3"; h4 := headingTexts document "h4";
     h5 := headingTexts document "h5"; h6 := headingTexts document "h6" |}.

(** The body of the loop of lines 29-33. *)
Definition compareWithPrevious (page : PageType) (i : Z) : PageType :=
  if used (headings page) i
     && (List.length (level (headings page) (i - 1)) =? 0)%nat
  then push_error page
         ("SEO: Heading " +++ JS.string_of_Z i +++ " without heading "
            +++ JS.string_of_Z (i - 1))
  else page.

(** Lines 29-33: [for (let i = 2; i <= 6; i++)]. *)
Definition headingLoop (page : PageType) : PageType :=
  fold_left compareWithPrevious (JS.range 2 7) page.

(** [Object.values(page.headings).every(heading => heading.length === 0)] *)
Definition allEmpty (hs : Headings) : bool :=
  forallb (fun heading => (List.length heading =? 0)%nat)
          [h1 hs; h2 hs; h3 hs; h4 hs; h5 hs; h6 hs].

(** Lines 12-33. *)
Definition headingPart (options : CheckOptions) (document : Dom.Document)
           (page : PageType) : PageType :=
  if negb (JS.truthy_flag (seo options)) then page
  else
    let page := set_headings page (extractHeadings document) in
    let page :=
      match Dom.querySelectorAll document [[Dom.Tag "h1"]] with
      | [] => push_error page "SEO: Missing h1"
      | _ :: _ =>
          if allEmpty (headings page) then push_error page "SEO: No headings"
          else page
      end in
    let page :=
      if (1 <? List.length (h1 (headings page)))%nat
      then push_error page "SEO: Multiple h1" else page in
    headingLoop page.

End SeoCheck.

(** The performance check (check/seo.ts, second module). *)
Module Performance.
Import Check.

(** [!page.loadingTime] holds for [undefined] and for zero: the first two
    branches. *)
Definition check (options : CheckOptions) (document : Dom.Document) (page : PageType)
  : PageType :=
  match loadingTime page with
  | None => page
  | Some t =>
      if Qeq_bool t 0 then page
      else
        let page :=
          if JS.Qlt_bool 4000 t then
            push_error page
              ("Performance: Page load time too slow ("
                 +++ JS.string_of_Z (JS.Math_round t) +++ "ms)")
          else if JS.Qlt_bool 2500 t then
            push_warning page
              ("Performance: Page load time could be improved ("
                 +++ JS.string_of_Z (JS.Math_round t) +++ "ms)")
          else page in
        if JS.Qlt_bool t 1000 then set_performanceScore page "excellent"
        else if JS.Qlt_bool t 2500 then set_performanceScore page "good"
        else if JS.Qlt_bool t 4000 then set_performanceScore page "needs-improvement"
        else set_performanceScore page "poor"
  end.

End Performance.

(** The accessibility check (check/heading-hierarchy.ts, second module) with
    the helpers of utils/html.ts.  seo.ts carries textual copies of
    [notAriaHidden], [hasAccessibilityContent], [getTag], [isHTMLElement] and
    of the four accessibility loops. *)
Module Accessibility.
Import Check.

(** [hasAccessibilityContent(element, value)]. *)
Fixpoint hasAccessibilityContent (element : Dom.Node) (value : bool) : bool :=
  if JS.truthy_opt (Dom.getAttribute element "aria-label")
     || JS.truthy (JS.trim (Dom.textContent element))
  then value
  else
    match element with
    | Dom.Text _ => false
    | Dom.Element _ _ _ cs =>
        (fix each (l : list Dom.Node) : bool :=
           match l with
           | [] => false
           | child :: l' =>
               if Dom.isElement child then
                 if hasAccessibilityContent child value then value else each l'
               else each l'
           end) cs
    end.

(** [notAriaHidden(element)], following [parentElement]. *)
Fixpoint notAriaHiddenFrom (element : Dom.Node) (up : list Dom.Node) : bool :=
  if Dom.attr_is element "aria-hidden" "true" || Dom.attr_is element "aria-hidden" EmptyString
  then false
  else
    match up with
    | parent :: up' => notAriaHiddenFrom parent up'
    | [] => true
    end.

Definition notAriaHidden (element : Dom.Located) : bool :=
  notAriaHiddenFrom (Dom.self element) (Dom.ancestors element).

(** utils/html.ts: ['style' in element]. *)
Definition isHTMLElement (element : Dom.Located) : bool :=
  Dom.style_of (Dom.self element).

Definition interactiveUnlabelled : list (list Dom.Simple) :=
  [ [Dom.Tag "a"; Dom.Not (Dom.HasAttr "aria-label")];
    [Dom.AttrEq "role" "button"; Dom.Not (Dom.HasAttr "aria-label")];
    [Dom.Tag "button"; Dom.Not (Dom.HasAttr "aria-label")] ].

(** The list [notLabelledLink] the first loop runs over. *)
Definition notLabelledLink (document : Dom.Document) : list Dom.Located :=
  filter (fun e => hasAccessibilityContent (Dom.self e) false)
    (filter notAriaHidden
       (filter isHTMLElement (Dom.querySelectorAll document interactiveUnlabelled))).

Section WithSerializer.
(** [element.outerHTML], provided by the DOM implementation. *)
Variable outerHTML : Dom.Node -> string.

(** utils/html.ts: the serialization up to the first [>]. *)
Definition getTag (element : Dom.Located) : string :=
  let html := outerHTML (Dom.self element) in
  JS.slice0 html (JS.indexOf html ">"%char + 1).

Definition report (prefix : string) (push : PageType -> string -> PageType)
           (found : list Dom.Located) (page : PageType) : PageType :=
  fold_left (fun p element => push p (prefix +++ getTag element)) found page.

Definition check (options : CheckOptions) (document : Dom.Document) (page : PageType)
  : PageType :=
  if negb (JS.truthy_flag (accessibility options)) then page
  else
    let page :=
      report "Accessibility: Not labelled link/button: " push_error
        (notLabelledLink document) page in
    let notAltImage :=
      filter notAriaHidden
        (Dom.querySelectorAll document [[Dom.Tag "img"; Dom.Not (Dom.HasAttr "alt")]]) in
    let page := report "Accessibility: Image without alt: " push_error notAltImage page in
    let notRoleImgSvg :=
      filter notAriaHidden
        (Dom.querySelectorAll document [[Dom.Tag "svg"; Dom.Not (Dom.AttrEq "role" "img")]]) in
    let page :=
      report "Accessibility: SVG without role=img: " push_warning notRoleImgSvg page in
    let notAriaLabelSvg :=
      filter notAriaHidden
        (Dom.querySelectorAll document [[Dom.Tag "svg"; Dom.Not (Dom.HasAttr "aria-label")]]) in
    report "Accessibility: SVG without aria-label: " push_error notAriaLabelSvg page.
End WithSerializer.

End Accessibility.

(** ** The collaborators of the crawl *)

(** What the crawl reads of [new URL(link, base)]: [origin], [pathname] and
    [toString()]. *)
Record URL : Type := { origin : string; pathname : string; href : string }.

(** [Promise.all] settles the workers of a batch in an order the network
    decides.  A schedule lists worker indices; workers it does not name
    settle afterwards, in batch order. *)
Definition completionOrder (n : nat) (order : list nat) : list nat :=
  JS.Array_from_Set Nat.eqb (filter (fun i => (i <? n)%nat) order ++ seq 0 n).

(** ** check.ts: the checker crawl and the report *)

Module Checker.
Import Check.

(** What [checkPath] reads of a response: [data.status] (and [data.ok],
    which is the 2xx range), the content-type header, the time measured
    around the fetch, and the document JSDOM builds from the body. *)
Record Response : Type := {
  status : Z;
  contentType : option string;
  elapsed : Q;
  dom : Dom.Document
}.

Definition ok (data : Response) : bool :=
  (200 <=? status data)%Z && (status data <=? 299)%Z.

(** A registered check that returns: it updates the page and may fetch
    sub-resources, whose addresses it returns.  Checks that throw are the
    subject of module [Registry]. *)
Definition Method : Type :=
  CheckOptions -> Dom.Document -> PageType -> PageType * list string.

(** A check that fetches nothing. *)
Definition quiet (check : CheckOptions -> Dom.Document -> PageType -> PageType) : Method :=
  fun options document page => (check options document page, []).

(** The store [pages] and the requests issued so far. *)
Record State : Type := { pages : JS.Dict PageType; requests : list string }.

Definition request (st : State) (address : string) : State :=
  {| pages := pages st; requests := requests st ++ [address] |}.

(** Line 48: the condition under which [checkPath] returns at once.
    [pages[path]] is truthy exactly when [path] is a key: the values are
    objects, and the paths of the crawl start with a slash, so none of them
    names an inherited property. *)
Definition skipped (pages : JS.Dict PageType) (path : string) : bool :=
  JS.has_key pages path
  || JS.startsWith path "http"
  || JS.endsWith path "sitemap.xml"
  || JS.endsWith path "robots.txt".

(** Line 64: [!data.headers.get('content-type')?.includes('text/html')]. *)
Definition notHtml (data : Response) : bool :=
  negb match contentType data with
       | Some ct => JS.includes ct "text/html"
       | None => false
       end.

(** Line 106: the [href] attributes of the anchors, nulls removed. *)
Definition anchorLinks (document : Dom.Document) : list string :=
  flat_map (fun e => match Dom.getAttribute (Dom.self e) "href" with
                     | Some link => [link]
                     | None => []
                     end)
           (Dom.querySelectorAll document [[Dom.Tag "a"]]).

Section Crawl.
Variable newURL : string -> string -> URL.
Variable fetch : string -> Response.
Variable methods : list Method.

(** Lines 100-101. *)
Definition runMethods (options : CheckOptions) (document : Dom.Document)
           (page : PageType) : PageType * list string :=
  fold_left (fun acc method =>
               let '(page', issued) := method options document (fst acc) in
               (page', snd acc ++ issued))
            methods (page, []).

(** Lines 105-112. *)
Definition collectLinks (baseUrl : string) (pages : JS.Dict PageType)
           (links : list string) : list string :=
  fold_left (fun pagesToCheck link =>
               let url := newURL link baseUrl in
               if String.eqb (origin url) baseUrl
                  && negb (existsb (String.eqb (pathname url)) pagesToCheck)
                  && negb (existsb (fun page => String.eqb (path page) (href url))
                                   (JS.values pages))
               then pagesToCheck ++ [pathname url]
               else pagesToCheck)
            links [].

(** Lines 63-112: what a worker does once its fetch has resolved.  The
    store is written and read in one uninterrupted stretch. *)
Definition settle (baseUrl path : string) (options : CheckOptions) (st : State)
  : list string * State :=
  let url := newURL path baseUrl in
  let data := fetch (href url) in
  if notHtml data then ([], st)
  else
    let loadingTime := elapsed data in
    let errors :=
      if negb (ok data) then ["HTTP error: " +++ JS.string_of_Z (status data)]
      else [] in
    let stop := negb (ok data) in
    if stop then
      ([], {| pages := JS.set (pages st) path
                         {| path := href url; title := EmptyString;
                            headings := no_headings;
                            errors := errors; warnings := [];
                            loadingTime := Some loadingTime;
                            performanceScore := None |};
              requests := requests st |})
    else
      let document := dom data in
      let page := {| path := href url; title := JS.trim (Dom.title document);
                     headings := no_headings;
                     errors := errors; warnings := [];
                     loadingTime := Some loadingTime;
                     performanceScore := None |} in
      let '(page, issued) := runMethods options document page in
      let pages' := JS.set (pages st) path page in
      (collectLinks baseUrl pages' (anchorLinks document),
       {| pages := pages'; requests := requests st ++ issued |}).

(** [checkPath], run alone from call to return. *)
Definition checkPath (baseUrl path : string) (st : State) (options : CheckOptions)
  : list string * State :=
  if skipped (pages st) path then ([], st)
  else settle baseUrl path options (request st (href (newURL path baseUrl))).

(** One batch under [Promise.all]: every worker evaluates line 48 and
    issues its fetch when it is called; the workers then settle one by
    one in the scheduled order; the results come back in batch order. *)
Definition started (st : State) (batch : list string) : list bool :=
  map (fun path => negb (skipped (pages st) path)) batch.

Definition issueAll (baseUrl : string) (st : State) (batch : list string) : State :=
  fold_left (fun s path =>
               if skipped (pages st) path then s
               else request s (href (newURL path baseUrl)))
            batch st.

Definition settleWorker (baseUrl : string) (options : CheckOptions)
           (batch : list string) (live : list bool)
           (acc : State * list (nat * list string)) (i : nat)
  : State * list (nat * list string) :=
  match nth_error batch i, nth_error live i with
  | Some path, Some true =>
      let '(found, st') := settle baseUrl path options (fst acc) in
      (st', (i, found) :: snd acc)
  | _, _ => acc
  end.

Definition resultOf (settled : list (nat * list string)) (i : nat) : list string :=
  match find (fun r => (fst r =? i)%nat) settled with
  | Some r => snd r
  | None => []
  end.

Definition runBatch (baseUrl : string) (options : CheckOptions)
           (order : list nat) (batch : list string) (st : State)
  : list (list string) * State :=
  let live := started st batch in
  let st1 := issueAll baseUrl st batch in
  let '(st2, settled) :=
    fold_left (settleWorker baseUrl options batch live)
              (completionOrder (List.length batch) order) (st1, []) in
  (map (resultOf settled) (seq 0 (List.length batch)), st2).

(** Lines 128-131: one turn of the [while] loop. *)
Definition turn (baseUrl : string) (options : CheckOptions) (max : Z)
           (order : list nat) (st : State) (pagesToCheck : list string)
  : State * list string :=
  let '(batch, rest) := JS.splice0 pagesToCheck (JS.Math_max max 1) in
  let '(results, st') := runBatch baseUrl options order batch st in
  (st', JS.Array_from_Set String.eqb (rest ++ List.concat results)).

(** Lines 127-134.  The loop need not terminate: [fuel] bounds the
    number of turns, [None] means the bound was reached. *)
Fixpoint loop (fuel : nat) (baseUrl : string) (options : CheckOptions) (max : Z)
         (schedule : list (list nat)) (st : State) (pagesToCheck : list string)
  : option State :=
  match pagesToCheck with
  | [] => Some st
  | _ :: _ =>
      match fuel with
      | O => None
      | S fuel' =>
          let '(st', next) :=
            turn baseUrl options max (hd [] schedule) st pagesToCheck in
          loop fuel' baseUrl options max (tl schedule) st' next
      end
  end.

Definition checkAllPages (fuel : nat) (baseUrl : string) (options : CheckOptions)
           (max : Z) (schedule : list (list nat)) : option State :=
  loop fuel baseUrl options max schedule {| pages := []; requests := [] |} ["/"].
End Crawl.

(** Lines 164-165 and 186-187 of the CLI action. *)
Definition uniqueErrors (pages : JS.Dict PageType) : list string :=
  JS.Array_from_Set String.eqb
    (fold_left (fun total page => total ++ errors page) (JS.values pages) []).

Definition uniqueWarnings (pages : JS.Dict PageType) : list string :=
  JS.Array_from_Set String.eqb
    (fold_left (fun total page => total ++ warnings page) (JS.values pages) []).

Definition totalErrors (pages : JS.Dict PageType) : nat :=
  fold_left (fun total page => total + List.length (errors page))%nat (JS.values pages) 0%nat.

Definition totalWarnings (pages : JS.Dict PageType) : nat :=
  fold_left (fun total page => total + List.length (warnings page))%nat (JS.values pages) 0%nat.

End Checker.

(** ** seo.ts: the monolithic checker *)

Module Seo.
Import Check.

(** Line 66. *)
Definition skipped (pages : JS.Dict PageType) (path : string) : bool :=
  JS.has_key pages path
  || JS.startsWith path "http"
  || JS.endsWith path "sitemap.xml"
  || JS.endsWith path "robots.txt".

Section Crawl.
Variable newURL : string -> string -> URL.
Variable fetch : string -> Checker.Response.

(** Lines 104-201, the inline heading extraction and the SEO, social
    media and accessibility checks, taken as a whole: from the options,
    the base address and the document they produce the headings, the
    errors and warnings they push, and the image requests they issue. *)
Variable inspect :
  option CheckOptions -> string -> Dom.Document ->
  Headings * list string * list string * list string.

(** Lines 212-219. *)
Definition collectLinks (baseUrl : string) (pages : JS.Dict PageType)
           (links : list string) : list string :=
  fold_left (fun pagesToCheck link =>
               let url := newURL link baseUrl in
               if String.eqb (origin url) baseUrl
                  && negb (existsb (String.eqb (pathname url)) pagesToCheck)
                  && negb (existsb (fun page => String.eqb (path page) (href url))
                                   (JS.values pages))
               then pagesToCheck ++ [pathname url]
               else pagesToCheck)
            links [].

(** Lines 82-219: the worker after its fetch has resolved. *)
Definition settle (baseUrl path : string) (options : option CheckOptions)
           (st : Checker.State) : list string * Checker.State :=
  let url := newURL path baseUrl in
  let data := fetch (href url) in
  let loadingTime := Checker.elapsed data in
  let errors :=
    if negb (Checker.ok data)
    then ["HTTP error: " +++ JS.string_of_Z (Checker.status data)]
    else [] in
  let stop := negb (Checker.ok data) in
  if stop then
    ([], {| Checker.pages :=
              JS.set (Checker.pages st) path
                {| path := href url; title := EmptyString;
                   headings := no_headings;
                   errors := errors; warnings := [];
                   loadingTime := Some loadingTime;
                   performanceScore := None |};
            Checker.requests := Checker.requests st |})
  else
    let document := Checker.dom data in
    let '(found, pushedErrors, pushedWarnings, issued) :=
      inspect options baseUrl document in
    let pages' :=
      JS.set (Checker.pages st) path
        {| path := href url; title := JS.trim (Dom.title document);
           headings := found;
           errors := errors ++ pushedErrors; warnings := pushedWarnings;
           loadingTime := Some loadingTime;
           performanceScore := None |} in
    (collectLinks baseUrl pages' (Checker.anchorLinks document),
     {| Checker.pages := pages';
        Checker.requests := Checker.requests st ++ issued |}).

Definition checkPath (baseUrl path : string) (st : Checker.State)
           (options : option CheckOptions) : list string * Checker.State :=
  if skipped (Checker.pages st) path then ([], st)
  else settle baseUrl path options
         (Checker.request st (href (newURL path baseUrl))).
End Crawl.

End Seo.

(** ** The sitemap crawl and renderer

    [checkPath] and [checkAllPages] of utils/generateSitemap
    (unnamed/part_000).  The two
    copies in sitemap.ts have the same guard, the same store writes, the
    same link filter and the same loop; they differ in logging and in how
    the list of [href] values is read off the body (a regular expression
    or the anchors of the parsed document), which is the field [hrefs]
    here. *)

Module Sitemap.

Record PageType : Type := { path : string; depth : Z; error : option bool }.

(** A reference to a [PageType] object on the heap.  The objects of the
    frontier are never mutated, so a reference is the address together
    with the object's contents. *)
Record Ref : Type := { address : nat; target : PageType }.

(** Identity of references: what [Set] compares for objects. *)
Definition sameObject (a b : Ref) : bool := (address a =? address b)%nat.

(** Equality of the values [{path, depth}]. *)
Definition sameEntry (a b : PageType) : bool :=
  String.eqb (path a) (path b) && (depth a =? depth b)%Z.

Record Response : Type := { status : Z; elapsed : Q; hrefs : list string }.

Definition ok (data : Response) : bool :=
  (200 <=? status data)%Z && (status data <=? 299)%Z.

(** The store, the requests issued so far, and the next free address. *)
Record State : Type := {
  pages : JS.Dict PageType;
  requests : list string;
  free : nat
}.

Definition request (st : State) (location : string) : State :=
  {| pages := pages st; requests := requests st ++ [location]; free := free st |}.

(** Line 16. *)
Definition skipped (pages : JS.Dict PageType) (page : PageType) : bool :=
  JS.has_key pages (path page) || JS.startsWith (path page) "http".

Section Crawl.
Variable newURL : string -> string -> URL.
Variable fetch : string -> Response.

(** Lines 45-54; each object literal pushed takes a fresh address. *)
Definition collectLinks (baseUrl : string) (page : PageType)
           (pages : JS.Dict PageType) (free : nat) (links : list string)
  : list Ref * nat :=
  fold_left (fun acc link =>
               let '(pagesToCheck, free) := acc in
               let linkUrl := newURL link baseUrl in
               if String.eqb (origin linkUrl) baseUrl
                  && negb (existsb (fun p => String.eqb (path p) (href linkUrl))
                                   (JS.values pages))
                  && negb (existsb (fun r => String.eqb (path (target r)) (pathname linkUrl))
                                   pagesToCheck)
               then (pagesToCheck
                       ++ [{| address := free;
                              target := {| path := pathname linkUrl;
                                           depth := (depth page + 1)%Z;
                                           error := None |} |}],
                     S free)
               else (pagesToCheck, free))
            links ([], free).

(** Lines 24-54: the worker after its fetch has resolved. *)
Definition settle (baseUrl : string) (page : PageType) (st : State)
  : list Ref * State :=
  let url := newURL (path page) baseUrl in
  let data := fetch (href url) in
  if negb (ok data) then
    ([], {| pages := JS.set (pages st) (path page)
                       {| path := href url; depth := depth page; error := Some true |};
            requests := requests st; free := free st |})
  else
    let pages' :=
      JS.set (pages st) (path page)
        {| path := href url; depth := depth page; error := None |} in
    let '(pagesToCheck, free') :=
      collectLinks baseUrl page pages' (free st) (hrefs data) in
    (pagesToCheck, {| pages := pages'; requests := requests st; free := free' |}).

(** [checkPath], run alone from call to return. *)
Definition checkPath (baseUrl : string) (page : PageType) (st : State)
  : list Ref * State :=
  if skipped (pages st) page then ([], st)
  else settle baseUrl page (request st (href (newURL (path page) baseUrl))).

Definition issueAll (baseUrl : string) (st : State) (batch : list Ref) : State :=
  fold_left (fun s r =>
               if skipped (pages st) (target r) then s
               else request s (href (newURL (path (target r)) baseUrl)))
            batch st.

Definition settleWorker (baseUrl : string) (batch : list Ref) (live : list bool)
           (acc : State * list (nat * list Ref)) (i : nat)
  : State * list (nat * list Ref) :=
  match nth_error batch i, nth_error live i with
  | Some r, Some true =>
      let '(found, st') := settle baseUrl (target r) (fst acc) in
      (st', (i, found) :: snd acc)
  | _, _ => acc
  end.

Definition resultOf (settled : list (nat * list Ref)) (i : nat) : list Ref :=
  match find (fun r => (fst r =? i)%nat) settled with
  | Some r => snd r
  | None => []
  end.

(** One batch under [Promise.all], as in the checker. *)
Definition runBatch (baseUrl : string) (order : list nat) (batch : list Ref)
           (st : State) : list (list Ref) * State :=
  let live := map (fun r => negb (skipped (pages st) (target r))) batch in
  let st1 := issueAll baseUrl st batch in
  let '(st2, settled) :=
    fold_left (settleWorker baseUrl batch live)
              (completionOrder (List.length batch) order) (st1, []) in
  (map (resultOf settled) (seq 0 (List.length batch)), st2).

(** Lines 62-65: one turn of the [while] loop.  The [Set] holds object
    references. *)
Definition turn (baseUrl : string) (max : Z) (order : list nat)
           (st : State) (pagesToCheck : list Ref) : State * list Ref :=
  let '(batch, rest) := JS.splice0 pagesToCheck (JS.Math_max max 1) in
  let '(results, st') := runBatch baseUrl order batch st in
  (st', JS.Array_from_Set sameObject (rest ++ List.concat results)).

(** [turns n]: the state and the frontier after [n] turns of the loop
    (turns on an empty frontier do not happen: the loop has ended). *)
Fixpoint turns (n : nat) (baseUrl : string) (max : Z) (schedule : list (list nat))
         (st : State) (pagesToCheck : list Ref) : State * list Ref :=
  match n, pagesToCheck with
  | O, _ => (st, pagesToCheck)
  | _, [] => (st, pagesToCheck)
  | S n', _ :: _ =>
      let '(st', next) := turn baseUrl max (hd [] schedule) st pagesToCheck in
      turns n' baseUrl max (tl schedule) st' next
  end.

(** Lines 57-69, with [fuel] bounding the number of turns. *)
Fixpoint loop (fuel : nat) (baseUrl : string) (max : Z)
         (schedule : list (list nat)) (st : State) (pagesToCheck : list Ref)
  : option State :=
  match pagesToCheck with
  | [] => Some st
  | _ :: _ =>
      match fuel with
      | O => None
      | S fuel' =>
          let '(st', next) := turn baseUrl max (hd [] schedule) st pagesToCheck in
          loop fuel' baseUrl max (tl schedule) st' next
      end
  end.

(** The initial store and frontier of [checkAllPages]. *)
Definition start : State * list Ref :=
  ({| pages := []; requests := []; free := 1 |},
   [{| address := 0; target := {| path := "/"; depth := 1; error := None |} |}]).

Definition checkAllPages (fuel : nat) (baseUrl : string) (max : Z)
           (schedule : list (list nat)) : option State :=
  loop fuel baseUrl max schedule (fst start) (snd start).
End Crawl.

End Sitemap.

(** ** The sitemap renderers *)

(** utils/generateSitemap (unnamed/part_000): [round], [escapeXml],
    [getPriority] and the document [generateSitemap] returns. *)
Module GenerateSitemap.
Import Sitemap.

Definition nl : string := String (ascii_of_nat 10) EmptyString.

(** The double quote character. *)
Definition dq : string := String (ascii_of_nat 34) EmptyString.

(** Lines 11-13, on exact rationals.  The source multiplies and divides
    doubles, and the product is rounded before [Math.round] sees it: the
    two can differ where the scaled number is within a rounding error of a
    half, so only properties of [getPriority], which calls [round] on the
    powers of 0.8, are stated of it. *)
Definition round (nb : Q) (precision : Z) : Q :=
  (inject_Z (JS.Math_round (nb * 10 ^ precision)) / 10 ^ precision)%Q.

Definition escapeChar (c : ascii) : string :=
  if Ascii.eqb c "<" then "&lt;"
  else if Ascii.eqb c ">" then "&gt;"
  else if Ascii.eqb c "&" then "&amp;"
  else if Ascii.eqb c "'" then "&apos;"
  else if Ascii.eqb c (ascii_of_nat 34) then "&quot;"
  else String c EmptyString.

(** Lines 71-82. *)
Fixpoint escapeXml (unsafe : string) : string :=
  match unsafe with
  | EmptyString => EmptyString
  | String c rest => escapeChar c +++ escapeXml rest
  end.

(** Lines 84-86. *)
Definition getPriority (depth : Z) : string :=
  JS.toFixed (round ((8 # 10) ^ (depth - 1))%Q 2) 2.

(** One [<url>] element of the template of lines 122-128. *)
Record Url : Type := {
  loc : string;
  lastmod : string;
  priority : string;
  changefreq : string
}.

(** [Object.values(pages).filter(page => !page.error)] *)
Definition kept (pages : JS.Dict PageType) : list PageType :=
  filter (fun page => negb (JS.truthy_flag (error page))) (JS.values pages).

(** The elements written, in order; [clock i] is what
    [new Date().toISOString()] returns for the i-th of them. *)
Definition urls (clock : nat -> string) (pages : JS.Dict PageType) : list Url :=
  map (fun ip => {| loc := escapeXml (path (snd ip));
                    lastmod := clock (fst ip);
                    priority := getPriority (depth (snd ip));
                    changefreq := "daily" |})
      (combine (seq 0 (List.length (kept pages))) (kept pages)).

Definition urlXml (u : Url) : string :=
  nl +++ "<url>" +++ nl
     +++ "  <loc>" +++ loc u +++ "</loc>" +++ nl
     +++ "  <lastmod>" +++ lastmod u +++ "</lastmod>" +++ nl
     +++ "  <priority>" +++ priority u +++ "</priority>" +++ nl
     +++ "  <changefreq>" +++ changefreq u +++ "</changefreq>" +++ nl
     +++ "</url>".

(** Lines 116-130. *)
Definition xml (clock : nat -> string) (pages : JS.Dict PageType) : string :=
  "<?xml version=" +++ dq +++ "1.0" +++ dq +++ " encoding=" +++ dq +++ "UTF-8" +++ dq
    +++ "?>" +++ nl
    +++ "<urlset" +++ nl
    +++ "xmlns=" +++ dq +++ "http://www.sitemaps.org/schemas/sitemap/0.9" +++ dq +++ nl
    +++ "xmlns:xsi=" +++ dq +++ "http://www.w3.org/2001/XMLSchema-instance" +++ dq +++ nl
    +++ "xsi:schemaLocation=" +++ dq +++ "http://www.sitemaps.org/schemas/sitemap/0.9" +++ nl
    +++ "http://www.sitemaps.org/schemas/sitemap/0.9/sitemap.xsd" +++ dq +++ nl
    +++ ">" +++ String.concat EmptyString (map urlXml (urls clock pages)) +++ nl
    +++ "</urlset>" +++ nl.

(** Lines 88-105 and 135: the crawl from the normalised base address,
    then the document.  Of the options only [max] is kept; writing the
    file and logging are left out. *)
Definition generateSitemap (newURL : string -> string -> URL)
           (fetch : string -> Response) (clock : nat -> string)
           (fuel : nat) (schedule : list (list nat))
           (baseUrl : option string) (options : option Z) : option string :=
  let baseUrl := match baseUrl with
                 | Some u => u
                 | None => "https://localhost:3000"
                 end in
  let baseUrl := if negb (JS.startsWith baseUrl "http")
                 then "https://" +++ baseUrl else baseUrl in
  let max := match options with
             | Some m => m
             | None => 15%Z
             end in
  match checkAllPages newURL fetch fuel baseUrl max schedule with
  | Some st => Some (xml clock (pages st))
  | None => None
  end.

End GenerateSitemap.

(** sitemap.ts: the [<url>] elements of the two [generate] actions that
    render by themselves.  The priority is kept as the number the
    template interpolates. *)
Module SitemapTs.
Import Sitemap.

Record Url : Type := {
  loc : string;
  lastmod : string;
  priority : Q;
  changefreq : option string
}.

(** First action, lines 131-136: [1 / page.depth], no [changefreq]
    (the depth of a crawled page is never zero). *)
Definition firstUrls (clock : nat -> string) (pages : JS.Dict PageType) : list Url :=
  map (fun ip => {| loc := path (snd ip);
                    lastmod := clock (fst ip);
                    priority := (1 / inject_Z (depth (snd ip)))%Q;
                    changefreq := None |})
      (combine (seq 0 (List.length (GenerateSitemap.kept pages)))
               (GenerateSitemap.kept pages)).

(** Second copy, lines 155-157 and 241-243. *)
Definition round (nb : Q) (precision : Z) : Q :=
  (inject_Z (JS.Math_round (nb * 10 ^ precision)) / 10 ^ precision)%Q.

Definition getPriority (depth : Z) : Q :=
  round ((8 # 10) ^ (depth - 1))%Q 2.

(** Second action, lines 246-252. *)
Definition secondUrls (clock : nat -> string) (pages : JS.Dict PageType) : list Url :=
  map (fun ip => {| loc := path (snd ip);
                    lastmod := clock (fst ip);
                    priority := getPriority (depth (snd ip));
                    changefreq := Some "daily" |})
      (combine (seq 0 (List.length (GenerateSitemap.kept pages)))
               (GenerateSitemap.kept pages)).

End SitemapTs.

(** ** The rest of the SEO check (check/seo.ts, first module, lines 5-9 and
    35-68; seo.ts has the same table and the same rules inline) *)

Module SeoRules.
Import Check.

(** Line 5: the width of each measured character.  Every entry is a whole
    number of sixty-fourths, so the sums below are exact in the source as
    well. *)
Definition sizes : list (ascii * Q) :=
  [ ("0"%char, 11.484375); ("1"%char, 11.484375); ("2"%char, 11.484375);
    ("3"%char, 11.484375); ("4"%char, 11.484375); ("5"%char, 11.484375);
    ("6"%char, 11.484375); ("7"%char, 11.484375); ("8"%char, 11.484375);
    ("9"%char, 11.484375); ("A"%char, 13.46875); ("B"%char, 12.765625);
    ("C"%char, 13.09375); ("D"%char, 13); ("E"%char, 11.25); ("F"%char, 10.96875);
    ("G"%char, 13.625); ("H"%char, 14.140625); ("I"%char, 5.84375);
    ("J"%char, 11.171875); ("K"%char, 12.703125); ("L"%char, 10.84375);
    ("M"%char, 17.53125); ("N"%char, 14.125); ("O"%char, 13.8125); ("P"%char, 12.90625);
    ("Q"%char, 13.8125); ("R"%char, 12.765625); ("S"%char, 12.296875);
    ("T"%char, 12.375); ("U"%char, 13.171875); ("V"%char, 13.078125); ("W"%char, 17.5);
    ("X"%char, 12.71875); ("Y"%char, 12.375); ("Z"%char, 12.125); ("a"%char, 10.734375);
    ("b"%char, 11.265625); ("c"%char, 10.4375); ("d"%char, 11.28125);
    ("e"%char, 10.8125); ("f"%char, 6.9375); ("g"%char, 11.421875);
    ("h"%char, 11.203125); ("i"%char, 5.3125); ("j"%char, 5.203125); ("k"%char, 10.6875);
    ("l"%char, 5.3125); ("m"%char, 17.328125); ("n"%char, 11.203125);
    ("o"%char, 11.3125); ("p"%char, 11.265625); ("q"%char, 11.3125);
    ("r"%char, 7.296875); ("s"%char, 10.296875); ("t"%char, 6.765625);
    ("u"%char, 11.203125); ("v"%char, 10.109375); ("w"%char, 14.703125);
    ("x"%char, 10.1875); ("y"%char, 10.046875); ("z"%char, 10.1875);
    ("-"%char, 7.765625); (" "%char, 4.984375) ]%Q.

(** Line 6. *)
Definition averageSize : Q :=
  (fold_left (fun total size => total + size) (map snd sizes) 0
   / inject_Z (Z.of_nat (List.length sizes)))%Q.

Fixpoint sizeOf (table : list (ascii * Q)) (char : ascii) : option Q :=
  match table with
  | [] => None
  | (c, size) :: rest => if Ascii.eqb c char then Some size else sizeOf rest char
  end.

(** [sizes[char] ?? averageSize] *)
Definition width (char : ascii) : Q :=
  match sizeOf sizes char with
  | Some size => size
  | None => averageSize
  end.

(** The sum line 8 compares with 550. *)
Definition titleWidth (title : string) : Q :=
  fold_left (fun total char => (total + width char)%Q) (list_ascii_of_string title) 0%Q.

(** Lines 7-9. *)
Definition overflowTitle (title : string) : bool :=
  JS.Qlt_bool 550 (titleWidth title).

(** [s.split(sep)] for a one-character separator. *)
Fixpoint split (s : string) (sep : ascii) : list string :=
  match s with
  | EmptyString => [EmptyString]
  | String c rest =>
      if Ascii.eqb c sep then EmptyString :: split rest sep
      else match split rest sep with
           | piece :: pieces => String c piece :: pieces
           | [] => [String c EmptyString]
           end
  end.

(** What the [try] block of lines 56-67 does for one image: it builds the
    address and the fetch answers, or something throws, before or after
    the address was built. *)
Inductive Probe : Type :=
| Answered (imgUrl : string) (ok : bool) (contentType : option string)
| Threw (imgUrl : option string) (message : string).

Section Rules.
Variable outerHTML : Dom.Node -> string.

(** The outcome of the [try] block for an image source and [page.path]. *)
Variable probe : string -> string -> Probe.

(** Lines 35-38. *)
Definition titleRule (document : Dom.Document) (page : PageType) : PageType :=
  if negb (JS.truthy (JS.trim (Dom.title document)))
  then push_error page "SEO: Missing title"
  else if overflowTitle (Dom.title document)
       then push_warning page "SEO: Title too long"
       else page.

(** Lines 40-41. *)
Definition descriptionRule (document : Dom.Document) (page : PageType) : PageType :=
  match Dom.querySelectorAll document [[Dom.Tag "meta"; Dom.AttrEq "name" "description"]] with
  | [] => push_error page "SEO: Missing meta description tag"
  | _ :: _ => page
  end.

(** Lines 43-48. *)
Definition h1LengthRule (page : PageType) : PageType :=
  fold_left (fun p heading =>
               if (12 <? List.length (split heading " "%char))%nat
               then push_warning p ("SEO: H1 too long: " +++ heading)
               else p)
            (h1 (headings page)) page.

(** Lines 50-52. *)
Definition hrefRule (document : Dom.Document) (page : PageType) : PageType :=
  fold_left (fun p element =>
               push_error p ("SEO: Link without href: "
                               +++ Accessibility.getTag outerHTML element))
            (Dom.querySelectorAll document [[Dom.Tag "a"; Dom.Not (Dom.HasAttr "href")]])
            page.

(** Line 54. *)
Definition imageSources (document : Dom.Document) : list string :=
  flat_map (fun e => match Dom.getAttribute (Dom.self e) "src" with
                     | Some src => [src]
                     | None => []
                     end)
           (Dom.querySelectorAll document [[Dom.Tag "img"; Dom.HasAttr "src"]]).

(** Lines 55-68, one image: the page and the requests issued so far. *)
Definition imageStep (acc : PageType * list string) (image : string)
  : PageType * list string :=
  match probe image (path (fst acc)) with
  | Answered imgUrl ok contentType =>
      let page :=
        if negb ok
        then push_error (fst acc) ("SEO: Image not reachable: " +++ imgUrl)
        else if negb match contentType with
                     | Some ct => JS.startsWith ct "image"
                     | None => false
                     end
             then push_error (fst acc) ("SEO: Not an image: " +++ imgUrl)
             else fst acc in
      (page, snd acc ++ [imgUrl])
  | Threw imgUrl message =>
      (push_error (fst acc)
                  ("SEO: Image not reachable: " +++ image +++ " - " +++ message),
       snd acc ++ match imgUrl with
                  | Some u => [u]
                  | None => []
                  end)
  end.

(** Lines 11-69: the whole check, with the requests it issues. *)
Definition check (options : CheckOptions) (document : Dom.Document) (page : PageType)
  : PageType * list string :=
  if negb (JS.truthy_flag (seo options)) then (page, [])
  else
    let page := SeoCheck.headingPart options document page in
    let page := titleRule document page in
    let page := descriptionRule document page in
    let page := h1LengthRule page in
    let page := hrefRule document page in
    fold_left imageStep (imageSources document) (page, []).
End Rules.

End SeoRules.

(** ** The social media check (check/seo.ts, third module) *)

Module SocialMedia.
Import Check.

(** One of the eight tests: [if (!document.querySelector('meta[attr=value]'))]. *)
Definition requireMeta (document : Dom.Document) (attr value : string)
           (page : PageType) : PageType :=
  match Dom.querySelectorAll document [[Dom.Tag "meta"; Dom.AttrEq attr value]] with
  | [] => push_error page ("SEO: Missing " +++ value +++ " tag")
  | _ :: _ => page
  end.

Definition check (options : CheckOptions) (document : Dom.Document) (page : PageType)
  : PageType :=
  if negb (JS.truthy_flag (socialMedia options)) then page
  else
    let page := requireMeta document "property" "og:title" page in
    let page := requireMeta document "property" "og:description" page in
    let page := requireMeta document "property" "og:image" page in
    let page := requireMeta document "property" "og:url" page in
    let page := requireMeta document "property" "og:type" page in
    let page := requireMeta document "name" "twitter:title" page in
    let page := requireMeta document "name" "twitter:description" page in
    requireMeta document "name" "twitter:image" page.

End SocialMedia.

(** ** The ARIA role check (unnamed/part_001, first module) *)

Module AriaRoles.
Import Check.

(** The double quote character, for the messages. *)
Definition dq : string := String (ascii_of_nat 34) EmptyString.

(** Lines 4-74. *)
Definition validRoles : list string :=
  [ "alert"; "alertdialog"; "application"; "article"; "banner"; "button"; "cell";
    "checkbox"; "columnheader"; "combobox"; "complementary"; "contentinfo";
    "definition"; "dialog"; "directory"; "document"; "feed"; "figure"; "form";
    "grid"; "gridcell"; "group"; "heading"; "img"; "link"; "list"; "listbox";
    "listitem"; "log"; "main"; "marquee"; "math"; "menu"; "menubar"; "menuitem";
    "menuitemcheckbox"; "menuitemradio"; "navigation"; "none"; "note"; "option";
    "presentation"; "progressbar"; "radio"; "radiogroup"; "region"; "row";
    "rowgroup"; "rowheader"; "scrollbar"; "search"; "searchbox"; "separator";
    "slider"; "spinbutton"; "status"; "switch"; "tab"; "table"; "tablist";
    "tabpanel"; "term"; "textbox"; "timer"; "toolbar"; "tooltip"; "tree";
    "treegrid"; "treeitem" ].

(** [validRoles.has(role)] *)
Definition isValidRole (role : string) : bool := existsb (String.eqb role) validRoles.

(** Lines 76-85. *)
Definition ariaRequirements : list (string * list string) :=
  [ ("checkbox", ["aria-checked"]);
    ("radio", ["aria-checked"]);
    ("slider", ["aria-valuenow"; "aria-valuemin"; "aria-valuemax"]);
    ("spinbutton", ["aria-valuenow"]);
    ("progressbar", ["aria-valuenow"]);
    ("tab", ["aria-selected"]);
    ("option", ["aria-selected"]);
    ("switch", ["aria-checked"]) ].

(** The properties every plain object inherits from [Object.prototype]. *)
Definition inheritedKeys : list string :=
  [ "constructor"; "__defineGetter__"; "__defineSetter__"; "hasOwnProperty";
    "__lookupGetter__"; "__lookupSetter__"; "isPrototypeOf"; "propertyIsEnumerable";
    "toString"; "valueOf"; "__proto__"; "toLocaleString" ].

(** [ariaRequirements[role]]: a list of the table, an inherited property
    (truthy, and not iterable), or [undefined]. *)
Inductive Requirement : Type :=
| Own (attrs : list string)
| Inherited
| Absent.

Definition requirementOf (role : string) : Requirement :=
  match JS.get ariaRequirements role with
  | Some attrs => Own attrs
  | None => if existsb (String.eqb role) inheritedKeys then Inherited else Absent
  end.

Section Rules.
Variable outerHTML : Dom.Node -> string.

(** Lines 93-98, one element. *)
Definition invalidRole (page : PageType) (element : Dom.Located) : PageType :=
  match Dom.getAttribute (Dom.self element) "role" with
  | Some role =>
      if JS.truthy role && negb (isValidRole role)
      then push_error page
             ("Accessibility: Invalid ARIA role " +++ dq +++ role +++ dq +++ ": "
                +++ Accessibility.getTag outerHTML element)
      else page
  | None => page
  end.

(** Lines 104-108, for a role whose requirements are a list. *)
Definition missingAttributes (role : string) (attrs : list string)
           (page : PageType) (element : Dom.Located) : PageType :=
  fold_left (fun p requiredAttr =>
               if negb (Dom.hasAttribute (Dom.self element) requiredAttr)
               then push_error p
                      ("Accessibility: ARIA role " +++ dq +++ role +++ dq
                         +++ " missing required attribute " +++ dq +++ requiredAttr
                         +++ dq +++ ": " +++ Accessibility.getTag outerHTML element)
               else p)
            attrs page.

(** Lines 101-110, one element; [None] when [for ... of] is handed an
    inherited property and throws a [TypeError]. *)
Definition requiredAttributes (page : PageType) (element : Dom.Located)
  : option PageType :=
  match Dom.getAttribute (Dom.self element) "role" with
  | Some role =>
      if JS.truthy role then
        match requirementOf role with
        | Own attrs => Some (missingAttributes role attrs page element)
        | Inherited => None
        | Absent => Some page
        end
      else Some page
  | None => Some page
  end.

Fixpoint requiredAll (elements : list Dom.Located) (page : PageType) : option PageType :=
  match elements with
  | [] => Some page
  | element :: rest =>
      match requiredAttributes page element with
      | Some page' => requiredAll rest page'
      | None => None
      end
  end.

(** Lines 113-116. *)
Definition buttonLike (document : Dom.Document) (page : PageType) : PageType :=
  fold_left (fun p element =>
               push_warning p
                 ("Accessibility: Interactive element should have role="
                    +++ dq +++ "button" +++ dq +++ ": "
                    +++ Accessibility.getTag outerHTML element))
            (filter (fun el => negb (Dom.hasAttribute (Dom.self el) "role"))
                    (Dom.querySelectorAll document
                       [ [Dom.Tag "div"; Dom.HasAttr "onclick"];
                         [Dom.Tag "span"; Dom.HasAttr "onclick"] ]))
            page.

(** Lines 87-117; [None] when the check throws. *)
Definition check (options : CheckOptions) (document : Dom.Document) (page : PageType)
  : option PageType :=
  if negb (JS.truthy_flag (accessibility options)) then Some page
  else
    let elementsWithRoles := Dom.querySelectorAll document [[Dom.HasAttr "role"]] in
    let page := fold_left invalidRole elementsWithRoles page in
    match requiredAll elementsWithRoles page with
    | Some page' => Some (buttonLike document page')
    | None => None
    end.
End Rules.

End AriaRoles.

(** ** Registered checks that throw (check.ts, lines 100-103)

    The loop over the registry has no [try]: when a check throws, the
    promise [checkPath] returned is rejected at that point, and the lines
    after the loop, the write to the store among them, are not run. *)

Module Registry.
Import Check.

(** A registered check and the way it ends: it returns, and the page is
    as the check left it, or it throws ([None]); either way it may have
    fetched sub-resources before. *)
Definition Method : Type :=
  CheckOptions -> Dom.Document -> PageType -> option PageType * list string.

(** A check that always returns. *)
Definition returning (check : Checker.Method) : Method :=
  fun options document page =>
    let '(page', issued) := check options document page in (Some page', issued).

(** A check that fetches nothing. *)
Definition quiet (check : CheckOptions -> Dom.Document -> PageType -> option PageType)
  : Method :=
  fun options document page => (check options document page, []).

(** Lines 100-101: the loop ends at the first check that throws. *)
Fixpoint runMethods (methods : list Method) (options : CheckOptions)
         (document : Dom.Document) (page : PageType) : option PageType * list string :=
  match methods with
  | [] => (Some page, [])
  | method :: rest =>
      match method options document page with
      | (Some page', issued) =>
          let '(result, more) := runMethods rest options document page' in
          (result, issued ++ more)
      | (None, issued) => (None, issued)
      end
  end.

Section Crawl.
Variable newURL : string -> string -> URL.
Variable fetch : string -> Checker.Response.
Variable methods : list Method.

(** Lines 63-112: what a worker does once its fetch has resolved; [None]
    when the promise is rejected. *)
Definition settle (baseUrl path : string) (options : CheckOptions) (st : Checker.State)
  : option (list string) * Checker.State :=
  let url := newURL path baseUrl in
  let data := fetch (href url) in
  if Checker.notHtml data then (Some [], st)
  else
    let loadingTime := Checker.elapsed data in
    let errors :=
      if negb (Checker.ok data)
      then ["HTTP error: " +++ JS.string_of_Z (Checker.status data)]
      else [] in
    let stop := negb (Checker.ok data) in
    if stop then
      (Some [],
       {| Checker.pages :=
            JS.set (Checker.pages st) path
                   {| path := href url; title := EmptyString;
                      headings := no_headings;
                      errors := errors; warnings := [];
                      loadingTime := Some loadingTime;
                      performanceScore := None |};
          Checker.requests := Checker.requests st |})
    else
      let document := Checker.dom data in
      let page := {| path := href url; title := JS.trim (Dom.title document);
                     headings := no_headings;
                     errors := errors; warnings := [];
                     loadingTime := Some loadingTime;
                     performanceScore := None |} in
      match runMethods methods options document page with
      | (Some page, issued) =>
          let pages' := JS.set (Checker.pages st) path page in
          (Some (Checker.collectLinks newURL baseUrl pages' (Checker.anchorLinks document)),
           {| Checker.pages := pages';
              Checker.requests := Checker.requests st ++ issued |})
      | (None, issued) =>
          (None,
           {| Checker.pages := Checker.pages st;
              Checker.requests := Checker.requests st ++ issued |})
      end.

(** [checkPath], run alone from call to return or rejection. *)
Definition checkPath (baseUrl path : string) (st : Checker.State) (options : CheckOptions)
  : option (list string) * Checker.State :=
  if Checker.skipped (Checker.pages st) path then (Some [], st)
  else settle baseUrl path options (Checker.request st (href (newURL path baseUrl))).
End Crawl.

End Registry.

(** ** Induction over the document tree *)

Section NodeInduction.
Variable P : Dom.Node -> Prop.
Hypothesis text_case : forall data, P (Dom.Text data).
Hypothesis element_case :
  forall tag attrs style cs, Forall P cs -> P (Dom.Element tag attrs style cs).

Fixpoint Node_induction (n : Dom.Node) : P n :=
  match n with
  | Dom.Text data => text_case data
  | Dom.Element tag attrs style cs =>
      element_case tag attrs style cs
        ((fix all (l : list Dom.Node) : Forall P l :=
            match l with
            | [] => Forall_nil P
            | c :: l' => Forall_cons c (Node_induction c) (all l')
            end) cs)
  end.
End NodeInduction.

(** ** Sample sites and documents on which the definitions are run *)

Module Samples.

Definition base : string := "https://site.test".

(** [new URL(link, base)] for links that are absolute paths of the site. *)
Definition siteURL (link baseUrl : string) : URL :=
  {| origin := baseUrl; pathname := link; href := baseUrl +++ link |}.

(** A site for the sitemap crawl: the root links to /a and /b, and both
    of these link to /c. *)
Definition diamond (address : string) : Sitemap.Response :=
  {| Sitemap.status := 200;
     Sitemap.elapsed := 10;
     Sitemap.hrefs :=
       if String.eqb address "https://site.test/" then ["/a"; "/b"]
       else if String.eqb address "https://site.test/a" then ["/c"]
       else if String.eqb address "https://site.test/b" then ["/c"]
       else [] |}.

Definition pageC : Sitemap.PageType :=
  {| Sitemap.path := "/c"; Sitemap.depth := 3; Sitemap.error := None |}.

Definition emptyDocument : Dom.Document := {| Dom.title := EmptyString; Dom.roots := [] |}.

Definition allChecks : Check.CheckOptions :=
  {| Check.seo := Some true; Check.accessibility := Some true;
     Check.verbose := Some false; Check.socialMedia := Some false |}.

Definition emptyChecker : Checker.State :=
  {| Checker.pages := []; Checker.requests := [] |}.

(** A site that answers every request with status 404 and a plain-text body. *)
Definition plain404 (address : string) : Checker.Response :=
  {| Checker.status := 404; Checker.contentType := Some "text/plain";
     Checker.elapsed := 12; Checker.dom := emptyDocument |}.

(** A site that answers every request with status 404 and an HTML body. *)
Definition html404 (address : string) : Checker.Response :=
  {| Checker.status := 404; Checker.contentType := Some "text/html; charset=utf-8";
     Checker.elapsed := 12; Checker.dom := emptyDocument |}.

(** A site for the sitemap crawl that answers every request with an
    empty page. *)
Definition blank (address : string) : Sitemap.Response :=
  {| Sitemap.status := 200; Sitemap.elapsed := 10; Sitemap.hrefs := [] |}.

Definition emptySitemap : Sitemap.State :=
  {| Sitemap.pages := []; Sitemap.requests := []; Sitemap.free := 1 |}.

Definition blankPage : Check.PageType :=
  {| Check.path := "https://site.test/"; Check.title := EmptyString;
     Check.headings := Check.no_headings;
     Check.errors := []; Check.warnings := [];
     Check.loadingTime := None; Check.performanceScore := None |}.

Definition timedPage (t : Q) : Check.PageType :=
  {| Check.path := "https://site.test/"; Check.title := EmptyString;
     Check.headings := Check.no_headings;
     Check.errors := []; Check.warnings := [];
     Check.loadingTime := Some t; Check.performanceScore := None |}.

(** A body with a first-level and a third-level heading and nothing in
    between. *)
Definition h1h3Document : Dom.Document :=
  {| Dom.title := "Home";
     Dom.roots := [ Dom.Element "h1" [] true [Dom.Text "Home"];
                    Dom.Element "h3" [] true [Dom.Text " Details "] ] |}.


(** A button with no attribute and no content. *)
Definition emptyButton : Dom.Node := Dom.Element "button" [] true [].

Definition emptyButtonDocument : Dom.Document :=
  {| Dom.title := "Home"; Dom.roots := [emptyButton] |}.

(** An icon marked aria-hidden=false inside a container marked
    aria-hidden=true. *)
Definition icon : Dom.Node :=
  Dom.Element "img" [("aria-hidden", "false")] true [].

Definition hiddenContainer : Dom.Node :=
  Dom.Element "div" [("aria-hidden", "true")] true [icon].

Definition iconInContainer : Dom.Located :=
  {| Dom.self := icon;
     Dom.ancestors := [hiddenContainer; Dom.Element "body" [] true [hiddenContainer]] |}.

(** An element whose aria-hidden attribute is present and empty. *)
Definition bareHidden : Dom.Located :=
  {| Dom.self := Dom.Element "span" [("aria-hidden", EmptyString)] true [];
     Dom.ancestors := [] |}.

(** A site for the checker: the root links to /about, which links back. *)
Definition homeDocument : Dom.Document :=
  {| Dom.title := " Home ";
     Dom.roots := [ Dom.Element "h1" [] true [Dom.Text "Home"];
                    Dom.Element "a" [("href", "/about")] true [Dom.Text "About"] ] |}.

Definition aboutDocument : Dom.Document :=
  {| Dom.title := "About";
     Dom.roots := [ Dom.Element "h1" [] true [Dom.Text "About"];
                    Dom.Element "h3" [] true [Dom.Text "Team"];
                    Dom.Element "a" [("href", "/")] true [Dom.Text "Home"];
                    Dom.Element "a" [("href", "/about")] true [] ] |}.

Definition smallSite (address : string) : Checker.Response :=
  if String.eqb address "https://site.test/" then
    {| Checker.status := 200; Checker.contentType := Some "text/html";
       Checker.elapsed := 120; Checker.dom := homeDocument |}
  else if String.eqb address "https://site.test/about" then
    {| Checker.status := 200; Checker.contentType := Some "text/html; charset=utf-8";
       Checker.elapsed := (6401 # 2); Checker.dom := aboutDocument |}
  else
    {| Checker.status := 404; Checker.contentType := Some "text/html";
       Checker.elapsed := 5; Checker.dom := emptyDocument |}.

(** A serializer that writes the tag name only. *)
Definition tagOnly (n : Dom.Node) : string := "<" +++ Dom.tagName_of n +++ ">".

(** A registry in which the SEO check runs before the hierarchy check. *)
Definition registry : list Checker.Method :=
  [ Checker.quiet SeoCheck.headingPart;
    Checker.quiet HeadingHierarchy.check;
    Checker.quiet Performance.check;
    Checker.quiet (Accessibility.check tagOnly) ].

(** A finished sitemap store: the root, a page one hop away, and a page
    that failed to load. *)
Definition twoPages : JS.Dict Sitemap.PageType :=
  [ ("/", {| Sitemap.path := "https://site.test/"; Sitemap.depth := 1;
             Sitemap.error := None |});
    ("/gone", {| Sitemap.path := "https://site.test/gone"; Sitemap.depth := 2;
                 Sitemap.error := Some true |});
    ("/about", {| Sitemap.path := "https://site.test/about"; Sitemap.depth := 2;
                  Sitemap.error := None |}) ].

Definition noon (i : nat) : string := "2024-01-01T12:00:00.000Z".

(** The inline checks of seo.ts, for runs that never reach them. *)
Definition noFindings (options : option Check.CheckOptions) (baseUrl : string)
           (document : Dom.Document)
  : Check.Headings * list string * list string * list string :=
  (Check.no_headings, [], [], []).

End Samples.

(** The record lines 76-83 of check.ts and lines 90-97 of seo.ts build for
    a failed fetch, as a function of the address and the response. *)
Definition httpErrorRecord (url : URL) (data : Checker.Response) : Check.PageType :=
  {| Check.path := href url; Check.title := EmptyString;
     Check.headings := Check.no_headings;
     Check.errors := ["HTTP error: " +++ JS.string_of_Z (Checker.status data)];
     Check.warnings := [];
     Check.loadingTime := Some (Checker.elapsed data);
     Check.performanceScore := None |}.

(** ** Vocabulary for the properties of the checks *)

(** [after] is [before] with findings appended and, possibly, headings or a
    performance score set: the address, the title and the loading time are
    the same and the old errors and warnings are still there, in place. *)
Definition extends (before after : Check.PageType) : Prop :=
  Check.path after = Check.path before
  /\ Check.title after = Check.title before
  /\ Check.loadingTime after = Check.loadingTime before
  /\ (exists added, Check.errors after = Check.errors before ++ added)
  /\ (exists added, Check.warnings after = Check.warnings before ++ added).

(** The eight tags the social media check asks for. *)
Definition socialTags : list (string * string) :=
  [ ("property", "og:title"); ("property", "og:description"); ("property", "og:image");
    ("property", "og:url"); ("property", "og:type"); ("name", "twitter:title");
    ("name", "twitter:description"); ("name", "twitter:image") ].

(** Whether the document has a [meta] element with the attribute at the value. *)
Definition hasMeta (document : Dom.Document) (tag : string * string) : bool :=
  match Dom.querySelectorAll document [[Dom.Tag "meta"; Dom.AttrEq (fst tag) (snd tag)]] with
  | [] => false
  | _ :: _ => true
  end.

(** A sitemap store in good order: no key twice, and under each key a
    record that holds the resolved address of the key and a depth of at
    least one. *)
Definition sitemapStoreOk (newURL : string -> string -> URL) (baseUrl : string)
           (pages : JS.Dict Sitemap.PageType) : Prop :=
  NoDup (map fst pages)
  /\ forall k p, In (k, p) pages ->
                 Sitemap.path p = href (newURL k baseUrl) /\ (1 <= Sitemap.depth p)%Z.

(** The references of a frontier are in good order when they are pairwise
    distinct objects, all allocated before the next free address. *)
Definition sitemapRefsOk (st : Sitemap.State) (pagesToCheck : list Sitemap.Ref) : Prop :=
  NoDup (map Sitemap.address pagesToCheck)
  /\ forall r, In r pagesToCheck -> (Sitemap.address r < Sitemap.free st)%nat.

(** A document whose only element has a role named after a property every
    object inherits, and one whose only element has a role that is no
    ARIA role. *)
Definition constructorRoleDocument : Dom.Document :=
  {| Dom.title := "Home";
     Dom.roots := [Dom.Element "div" [("role", "constructor")] true []] |}.

Definition bananaRole : Dom.Located :=
  {| Dom.self := Dom.Element "div" [("role", "banana")] true [];
     Dom.ancestors := [] |}.

Definition bananaRoleDocument : Dom.Document :=
  {| Dom.title := "Home"; Dom.roots := [Dom.self bananaRole] |}.

(** A network on which every image request fails. *)
Definition offline (src baseUrl : string) : SeoRules.Probe :=
  SeoRules.Threw None "fetch failed".

(** The record of the root of a site, and the reference to the page /a
    found on it when 1 is the next free address. *)
Definition rootRecord : Sitemap.PageType :=
  {| Sitemap.path := "/"; Sitemap.depth := 1; Sitemap.error := None |}.

Definition refToA : Sitemap.Ref :=
  {| Sitemap.address := 1;
     Sitemap.target := {| Sitemap.path := "/a"; Sitemap.depth := 2; Sitemap.error := None |} |}.

(** The two messages of the heading hierarchy check, for a level. *)
Definition skippedLevelError (n : Z) : string :=
  "SEO: Heading hierarchy - h" +++ JS.string_of_Z n +++ " skips h"
    +++ JS.string_of_Z (n - 1) +++ " level".

Definition orphanLevelError (n : Z) : string :=
  "SEO: Heading hierarchy - h" +++ JS.string_of_Z n
    +++ " used without any parent heading levels".

(** [after] is [before] with findings appended and the same headings. *)
Definition follows (before after : Check.PageType) : Prop :=
  extends before after /\ Check.headings after = Check.headings before.

(** A site whose every page is the document with a first-level and a
    third-level heading, and the two orders in which the registry can hold
    the hierarchy check and the SEO check. *)
Definition h1h3Site (address : string) : Checker.Response :=
  {| Checker.status := 200; Checker.contentType := Some "text/html";
     Checker.elapsed := 120; Checker.dom := Samples.h1h3Document |}.

Definition hierarchyFirst : list Checker.Method :=
  [ Checker.quiet HeadingHierarchy.check; SeoRules.check Samples.tagOnly offline ].

Definition seoFirst : list Checker.Method :=
  [ SeoRules.check Samples.tagOnly offline; Checker.quiet HeadingHierarchy.check ].



(** * Properties *)

(** ** Facts about the JavaScript primitives *)

Example startsWith_http : JS.startsWith "https://x.org/a" "http" = true.
Proof. reflexivity. Qed.

Example endsWith_robots : JS.endsWith "/robots.txt" "robots.txt" = true.
Proof. reflexivity. Qed.

Example includes_html : JS.includes "text/html; charset=utf-8" "text/html" = true.
Proof. reflexivity. Qed.

Example string_of_404 : JS.string_of_Z 404 = "404".
Proof. reflexivity. Qed.

Example round_half : JS.Math_round (5 # 2)%Q = 3%Z.
Proof. reflexivity. Qed.

Example set_keeps_first :
  JS.Array_from_Set String.eqb ["/b"; "/a"; "/b"; "/c"; "/a"] = ["/b"; "/a"; "/c"].
Proof. reflexivity. Qed.

Example toFixed_two_decimals :
  map (fun x => JS.toFixed x 2) [(1 # 1); (5 # 1000); (12345 # 1000); (-1 # 4)]%Q
  = ["1.00"; "0.01"; "12.35"; "-0.25"].
Proof. reflexivity. Qed.

Example settle_order : completionOrder 3 [2%nat; 7%nat; 0%nat; 2%nat] = [2%nat; 0%nat; 1%nat].
Proof. reflexivity. Qed.

Section SetFacts.
Context {A : Type} (same : A -> A -> bool).
Hypothesis same_eq : forall a b, same a b = true <-> a = b.

Lemma has_In (seen : list A) (x : A) : JS.has same seen x = true <-> In x seen.
Proof.
  unfold JS.has. rewrite existsb_exists. split.
  - intros [y [Hy Hs]]. apply same_eq in Hs. now subst.
  - intros H. exists x. split; [assumption | now apply same_eq].
Qed.

Lemma add_In (seen : list A) (x y : A) :
  In y (JS.add same seen x) <-> In y seen \/ y = x.
Proof.
  unfold JS.add. destruct (JS.has same seen x) eqn:E.
  - apply has_In in E. split; [now left | intros [H | ->]; assumption].
  - rewrite in_app_iff. simpl. intuition.
Qed.

Lemma add_NoDup (seen : list A) (x : A) : NoDup seen -> NoDup (JS.add same seen x).
Proof.
  intros H. unfold JS.add. destruct (JS.has same seen x) eqn:E; [assumption |].
  assert (Hx : ~ In x seen).
  { intros Hin. apply has_In in Hin. congruence. }
  clear E. induction H as [| a l Ha Hl IH]; simpl.
  - constructor; [intros [] | constructor].
  - constructor.
    + rewrite in_app_iff. simpl. intros [H1 | [H1 | []]].
      * now apply Ha.
      * apply Hx. now left.
    + apply IH. intros H1. apply Hx. now right.
Qed.

Lemma fold_add_NoDup (xs seen : list A) :
  NoDup seen -> NoDup (fold_left (JS.add same) xs seen).
Proof.
  revert seen. induction xs as [| x xs IH]; simpl; intros seen H.
  - assumption.
  - apply IH. now apply add_NoDup.
Qed.

Lemma fold_add_In (xs seen : list A) (y : A) :
  In y (fold_left (JS.add same) xs seen) <-> In y seen \/ In y xs.
Proof.
  revert seen. induction xs as [| x xs IH]; simpl; intros seen.
  - intuition.
  - rewrite IH, add_In. intuition; subst; auto.
Qed.

(** A [Set] built from an array has no two equal members... *)
Lemma Array_from_Set_NoDup (xs : list A) : NoDup (JS.Array_from_Set same xs).
Proof. apply fold_add_NoDup. constructor. Qed.

(** ... and has the members of the array. *)
Lemma Array_from_Set_In (xs : list A) (y : A) :
  In y (JS.Array_from_Set same xs) <-> In y xs.
Proof. unfold JS.Array_from_Set. rewrite fold_add_In. simpl. intuition. Qed.
End SetFacts.

Section SetSize.
Context {A : Type} (same : A -> A -> bool).

Lemma fold_add_length (xs seen : list A) :
  (List.length (fold_left (JS.add same) xs seen) <= List.length seen + List.length xs)%nat.
Proof.
  revert seen. induction xs as [| x xs IH]; simpl; intros seen.
  - lia.
  - specialize (IH (JS.add same seen x)). unfold JS.add in *.
    destruct (JS.has same seen x).
    + lia.
    + rewrite length_app in IH. simpl in IH. lia.
Qed.

Lemma Array_from_Set_length (xs : list A) :
  (List.length (JS.Array_from_Set same xs) <= List.length xs)%nat.
Proof. unfold JS.Array_from_Set. pose proof (fold_add_length xs []). simpl in *. lia. Qed.

(** When no member of [seen] or of the array is the same as another,
    the set keeps the whole array. *)
Lemma fold_add_all_distinct (xs seen : list A) :
  (forall pre x post, seen ++ xs = pre ++ x :: post -> JS.has same pre x = false) ->
  fold_left (JS.add same) xs seen = seen ++ xs.
Proof.
  revert seen. induction xs as [| x xs IH]; simpl; intros seen H.
  - now rewrite app_nil_r.
  - unfold JS.add at 2. rewrite (H seen x xs eq_refl).
    rewrite IH.
    + now rewrite <- app_assoc.
    + intros pre y post E. apply (H pre y post). rewrite <- E.
      now rewrite <- app_assoc.
Qed.
End SetSize.

Lemma string_same_eq (a b : string) : String.eqb a b = true <-> a = b.
Proof. apply String.eqb_eq. Qed.

(** ** The frontier after a turn of the crawl loop *)

(** check.ts: whatever the batch returns, the frontier the loop keeps holds
    no path twice. *)
Lemma checker_turn_NoDup
      (newURL : string -> string -> URL) (fetch : string -> Checker.Response)
      (methods : list Checker.Method) (baseUrl : string)
      (options : Check.CheckOptions) (max : Z) (order : list nat)
      (st : Checker.State) (pagesToCheck : list string) :
  NoDup (snd (Checker.turn newURL fetch methods baseUrl options max order st pagesToCheck)).
Proof.
  unfold Checker.turn.
  destruct (JS.splice0 pagesToCheck (JS.Math_max max 1)) as [batch rest].
  destruct (Checker.runBatch newURL fetch methods baseUrl options order batch st)
    as [results st'].
  simpl. apply Array_from_Set_NoDup. exact string_same_eq.
Qed.

(** A [Set] of object references drops nothing when the references are
    pairwise distinct, whatever the objects contain. *)
Lemma set_of_distinct_objects (xs : list Sitemap.Ref) :
  NoDup (map Sitemap.address xs) -> JS.Array_from_Set Sitemap.sameObject xs = xs.
Proof.
  intros H. unfold JS.Array_from_Set.
  rewrite fold_add_all_distinct; [reflexivity |].
  simpl. intros pre x post E. subst xs.
  rewrite map_app in H. simpl in H. apply NoDup_remove_2 in H.
  unfold JS.has. destruct (existsb (Sitemap.sameObject x) pre) eqn:Ex; [| reflexivity].
  exfalso. apply existsb_exists in Ex. destruct Ex as [y [Hy Hs]].
  unfold Sitemap.sameObject in Hs. apply Nat.eqb_eq in Hs.
  apply H. rewrite in_app_iff. left. rewrite Hs. now apply in_map.
Qed.

(** C1.  After a turn of the loop of check.ts the frontier never holds the
    same path twice.  The loop of the sitemap crawl does not achieve this:
    on the site [Samples.diamond], crawled one page at a time, the frontier
    after the third turn consists of two distinct objects that both hold
    path /c and depth 3. *)
Theorem C1_frontier_after_turn :
  (forall newURL fetch methods baseUrl options max order st pagesToCheck,
      NoDup (snd (Checker.turn newURL fetch methods baseUrl options max order
                               st pagesToCheck)))
  /\ (let first := {| Sitemap.address := 3; Sitemap.target := Samples.pageC |} in
      let second := {| Sitemap.address := 4; Sitemap.target := Samples.pageC |} in
      snd (Sitemap.turns Samples.siteURL Samples.diamond 3 Samples.base 1 []
                         (fst Sitemap.start) (snd Sitemap.start))
      = [first; second]
      /\ Sitemap.sameObject first second = false
      /\ Sitemap.sameEntry (Sitemap.target first) (Sitemap.target second) = true).
Proof.
  split.
  - intros. apply checker_turn_NoDup.
  - vm_compute. repeat split.
Qed.

(** With two pages per batch the two objects for /c are dispatched
    together, and /c is requested twice. *)
Example diamond_requests_c_twice :
  option_map Sitemap.requests
    (Sitemap.checkAllPages Samples.siteURL Samples.diamond 10 Samples.base 2 [])
  = Some ["https://site.test/"; "https://site.test/a"; "https://site.test/b";
          "https://site.test/c"; "https://site.test/c"].
Proof. vm_compute. reflexivity. Qed.

(** The checker on a site of two pages that link to each other: the crawl
    ends after two turns with both pages in the store. *)
Example small_site_crawl :
  option_map (fun st => map (fun kv => (fst kv, Check.errors (snd kv), Check.warnings (snd kv),
                                        Check.performanceScore (snd kv)))
                            (Checker.pages st))
    (Checker.checkAllPages Samples.siteURL Samples.smallSite Samples.registry
                           2 Samples.base Samples.allChecks 15 [])
  = Some [ ("/", [], [], Some "excellent");
           ("/about",
            ["SEO: Heading 3 without heading 2";
             "SEO: Heading hierarchy - h3 skips h2 level"],
            ["Performance: Page load time could be improved (3201ms)"],
            Some "needs-improvement") ].
Proof. vm_compute. reflexivity. Qed.

(** ** The report *)

Lemma fold_concat {A : Type} (f : A -> list string) (l : list A) (acc : list string) :
  fold_left (fun total page => total ++ f page) l acc = acc ++ List.concat (map f l).
Proof.
  revert acc. induction l as [| x l IH]; simpl; intros acc.
  - now rewrite app_nil_r.
  - rewrite IH. now rewrite <- app_assoc.
Qed.

Lemma fold_count {A : Type} (f : A -> list string) (l : list A) (acc : nat) :
  fold_left (fun total page => total + List.length (f page))%nat l acc
  = (acc + list_sum (map (fun page => List.length (f page)) l))%nat.
Proof.
  revert acc. induction l as [| x l IH]; simpl; intros acc.
  - lia.
  - rewrite IH. lia.
Qed.

Lemma length_concat_sum {A : Type} (f : A -> list string) (l : list A) :
  List.length (List.concat (map f l)) = list_sum (map (fun page => List.length (f page)) l).
Proof.
  induction l as [| x l IH]; simpl.
  - reflexivity.
  - rewrite length_app, IH. reflexivity.
Qed.

Section Report.
Context {A : Type} (f : A -> list string) (l : list A).

Let unique := JS.Array_from_Set String.eqb (fold_left (fun total page => total ++ f page) l []).
Let total := fold_left (fun total page => total + List.length (f page))%nat l 0%nat.

(** The shape shared by the error and the warning halves of the report. *)
Lemma report_shape :
  unique = JS.Array_from_Set String.eqb (List.concat (map f l))
  /\ NoDup unique
  /\ (forall s, In s unique <-> exists page, In page l /\ In s (f page))
  /\ total = list_sum (map (fun page => List.length (f page)) l)
  /\ (List.length unique <= total)%nat.
Proof.
  subst unique total. rewrite fold_concat, fold_count. simpl.
  repeat split.
  - apply Array_from_Set_NoDup. exact string_same_eq.
  - intros H. apply (proj1 (Array_from_Set_In _ string_same_eq _ _)) in H.
    apply in_concat in H. destruct H as [es [Hes Hs]].
    apply in_map_iff in Hes. destruct Hes as [page [<- Hp]]. now exists page.
  - intros [page [Hp Hs]]. apply (proj2 (Array_from_Set_In _ string_same_eq _ _)).
    apply in_concat. exists (f page). split; [now apply in_map | assumption].
  - rewrite <- length_concat_sum. apply Array_from_Set_length.
Qed.
End Report.

(** C6.  The global error list of the report is the concatenation of the
    pages' error lists with repeated strings removed: it has no repetition
    and holds exactly the strings that are an error of some page.  The
    total is the sum of the lengths of the pages' error lists, so it is at
    least the length of the global list.  The same holds for warnings. *)
Theorem C6_report_lists_and_totals (pages : JS.Dict Check.PageType) :
  (Checker.uniqueErrors pages
   = JS.Array_from_Set String.eqb (List.concat (map Check.errors (JS.values pages)))
   /\ NoDup (Checker.uniqueErrors pages)
   /\ (forall s, In s (Checker.uniqueErrors pages)
                 <-> exists page, In page (JS.values pages) /\ In s (Check.errors page))
   /\ Checker.totalErrors pages
      = list_sum (map (fun page => List.length (Check.errors page)) (JS.values pages))
   /\ (List.length (Checker.uniqueErrors pages) <= Checker.totalErrors pages)%nat)
  /\
  (Checker.uniqueWarnings pages
   = JS.Array_from_Set String.eqb (List.concat (map Check.warnings (JS.values pages)))
   /\ NoDup (Checker.uniqueWarnings pages)
   /\ (forall s, In s (Checker.uniqueWarnings pages)
                 <-> exists page, In page (JS.values pages) /\ In s (Check.warnings page))
   /\ Checker.totalWarnings pages
      = list_sum (map (fun page => List.length (Check.warnings page)) (JS.values pages))
   /\ (List.length (Checker.uniqueWarnings pages) <= Checker.totalWarnings pages)%nat).
Proof.
  split.
  - exact (report_shape Check.errors (JS.values pages)).
  - exact (report_shape Check.warnings (JS.values pages)).
Qed.

(** ** The worker [checkPath] *)

Lemma get_set_same {V : Type} (o : JS.Dict V) (k : string) (v : V) :
  JS.get (JS.set o k v) k = Some v.
Proof.
  induction o as [| [k' v'] o IH]; simpl.
  - now rewrite String.eqb_refl.
  - destruct (String.eqb k' k) eqn:E; simpl; rewrite E; [reflexivity | assumption].
Qed.

Lemma has_key_set {V : Type} (o : JS.Dict V) (k : string) (v : V) :
  JS.has_key (JS.set o k v) k = true.
Proof. unfold JS.has_key. now rewrite get_set_same. Qed.

Section Worker.
Variable newURL : string -> string -> URL.
Variable fetch : string -> Checker.Response.
Variable methods : list Checker.Method.
Variable inspect :
  option Check.CheckOptions -> string -> Dom.Document ->
  Check.Headings * list string * list string * list string.
Variables baseUrl path : string.
Variable st : Checker.State.

Let url := newURL path baseUrl.
Let data := fetch (href url).

Lemma checker_skips (options : Check.CheckOptions) :
  Checker.skipped (Checker.pages st) path = true ->
  Checker.checkPath newURL fetch methods baseUrl path st options = ([], st).
Proof. intros H. unfold Checker.checkPath. now rewrite H. Qed.

Lemma seo_skips (options : option Check.CheckOptions) :
  Seo.skipped (Checker.pages st) path = true ->
  Seo.checkPath newURL fetch inspect baseUrl path st options = ([], st).
Proof. intros H. unfold Seo.checkPath. now rewrite H. Qed.

Lemma checker_not_html (options : Check.CheckOptions) :
  Checker.skipped (Checker.pages st) path = false ->
  Checker.notHtml data = true ->
  Checker.checkPath newURL fetch methods baseUrl path st options
  = ([], Checker.request st (href url)).
Proof.
  intros Hs Hn. unfold Checker.checkPath, Checker.settle. rewrite Hs.
  fold url. fold data. now rewrite Hn.
Qed.

Lemma checker_http_error (options : Check.CheckOptions) :
  Checker.skipped (Checker.pages st) path = false ->
  Checker.notHtml data = false ->
  Checker.ok data = false ->
  Checker.checkPath newURL fetch methods baseUrl path st options
  = ([], {| Checker.pages := JS.set (Checker.pages st) path (httpErrorRecord url data);
            Checker.requests := Checker.requests st ++ [href url] |}).
Proof.
  intros Hs Hn Ho. unfold Checker.checkPath, Checker.settle. rewrite Hs.
  fold url. fold data. rewrite Hn, Ho. reflexivity.
Qed.

Lemma seo_http_error (options : option Check.CheckOptions) :
  Seo.skipped (Checker.pages st) path = false ->
  Checker.ok data = false ->
  Seo.checkPath newURL fetch inspect baseUrl path st options
  = ([], {| Checker.pages := JS.set (Checker.pages st) path (httpErrorRecord url data);
            Checker.requests := Checker.requests st ++ [href url] |}).
Proof.
  intros Hs Ho. unfold Seo.checkPath, Seo.settle. rewrite Hs.
  fold url. fold data. rewrite Ho. reflexivity.
Qed.
End Worker.

(** C2, as the code has it.  For a dispatched path whose fetch resolves
    with a status outside the 2xx range, [checkPath] of seo.ts, and
    [checkPath] of check.ts when the content type includes text/html,
    return no links and leave in the store, under the path, the record
    with the single error "HTTP error: <status>", no warning, an empty
    title and empty heading lists; the record does not depend on the
    registered checks. *)
Theorem C2_http_error_record
        (newURL : string -> string -> URL) (fetch : string -> Checker.Response)
        (methods : list Checker.Method)
        (inspect : option Check.CheckOptions -> string -> Dom.Document ->
                   Check.Headings * list string * list string * list string)
        (baseUrl path : string) (st : Checker.State)
        (options : Check.CheckOptions) (options' : option Check.CheckOptions) :
  let url := newURL path baseUrl in
  let data := fetch (href url) in
  let after := {| Checker.pages := JS.set (Checker.pages st) path (httpErrorRecord url data);
                  Checker.requests := Checker.requests st ++ [href url] |} in
  Checker.skipped (Checker.pages st) path = false ->
  Checker.ok data = false ->
  JS.get (Checker.pages after) path = Some (httpErrorRecord url data)
  /\ Seo.checkPath newURL fetch inspect baseUrl path st options' = ([], after)
  /\ (Checker.notHtml data = false ->
      Checker.checkPath newURL fetch methods baseUrl path st options = ([], after)).
Proof.
  intros url data after Hs Ho. split; [| split].
  - apply get_set_same.
  - now apply seo_http_error.
  - intros Hn. now apply checker_http_error.
Qed.

Lemma C2_http_error_record_witness :
  let url := Samples.siteURL "/missing" Samples.base in
  let record :=
    {| Check.path := "https://site.test/missing"; Check.title := EmptyString;
       Check.headings := Check.no_headings;
       Check.errors := ["HTTP error: 404"]; Check.warnings := [];
       Check.loadingTime := Some 12%Q; Check.performanceScore := None |} in
  let after := {| Checker.pages := [("/missing", record)];
                  Checker.requests := ["https://site.test/missing"] |} in
  Seo.checkPath Samples.siteURL Samples.html404 Samples.noFindings Samples.base
                "/missing" Samples.emptyChecker None = ([], after)
  /\ Checker.checkPath Samples.siteURL Samples.html404 [] Samples.base
                       "/missing" Samples.emptyChecker Samples.allChecks = ([], after).
Proof.
  destruct (C2_http_error_record Samples.siteURL Samples.html404 []
              Samples.noFindings Samples.base "/missing" Samples.emptyChecker
              Samples.allChecks None eq_refl eq_refl) as [_ [Hseo Hcheck]].
  split.
  - exact Hseo.
  - exact (Hcheck eq_refl).
Defined.

(** C2 as stated fails in check.ts: a dispatched path answered with
    status 404 and content type text/plain leaves no record. *)
Lemma C2_plain_text_404_leaves_no_record :
  let r := Checker.checkPath Samples.siteURL Samples.plain404 [] Samples.base
                             "/missing" Samples.emptyChecker Samples.allChecks in
  Checker.skipped (Checker.pages Samples.emptyChecker) "/missing" = false
  /\ Checker.ok (Samples.plain404 "https://site.test/missing") = false
  /\ fst r = []
  /\ JS.get (Checker.pages (snd r)) "/missing" = None.
Proof. vm_compute. repeat split. Qed.

(** C3.  In check.ts a dispatched path whose response carries a content
    type that does not include text/html yields no links and leaves the
    store as it was, whatever the status of the response. *)
Theorem C3_non_html_ignored
        (newURL : string -> string -> URL) (fetch : string -> Checker.Response)
        (methods : list Checker.Method) (baseUrl path : string)
        (st : Checker.State) (options : Check.CheckOptions) (ct : string) :
  let r := Checker.checkPath newURL fetch methods baseUrl path st options in
  Checker.skipped (Checker.pages st) path = false ->
  Checker.contentType (fetch (href (newURL path baseUrl))) = Some ct ->
  JS.includes ct "text/html" = false ->
  fst r = [] /\ Checker.pages (snd r) = Checker.pages st.
Proof.
  intros r Hs Hct Hinc. subst r. rewrite checker_not_html.
  - split; reflexivity.
  - assumption.
  - unfold Checker.notHtml. now rewrite Hct, Hinc.
Qed.

Lemma C3_non_html_ignored_witness :
  fst (Checker.checkPath Samples.siteURL Samples.plain404 [] Samples.base
                         "/notes.txt" Samples.emptyChecker Samples.allChecks) = []
  /\ Checker.pages
       (snd (Checker.checkPath Samples.siteURL Samples.plain404 [] Samples.base
                               "/notes.txt" Samples.emptyChecker Samples.allChecks))
     = [].
Proof.
  exact (C3_non_html_ignored Samples.siteURL Samples.plain404 [] Samples.base
           "/notes.txt" Samples.emptyChecker Samples.allChecks "text/plain"
           eq_refl eq_refl eq_refl).
Defined.

Section SitemapWorker.
Variable newURL : string -> string -> URL.
Variable fetch : string -> Sitemap.Response.
Variable baseUrl : string.
Variable page : Sitemap.PageType.
Variable st : Sitemap.State.

Lemma sitemap_skips :
  Sitemap.skipped (Sitemap.pages st) page = true ->
  Sitemap.checkPath newURL fetch baseUrl page st = ([], st).
Proof. intros H. unfold Sitemap.checkPath. now rewrite H. Qed.

(** A page that passes the guard is fetched and recorded under its path. *)
Lemma sitemap_dispatches :
  Sitemap.skipped (Sitemap.pages st) page = false ->
  let r := Sitemap.checkPath newURL fetch baseUrl page st in
  Sitemap.requests (snd r)
  = Sitemap.requests st ++ [href (newURL (Sitemap.path page) baseUrl)]
  /\ JS.has_key (Sitemap.pages (snd r)) (Sitemap.path page) = true.
Proof.
  intros H r. subst r. unfold Sitemap.checkPath, Sitemap.settle. rewrite H.
  destruct (negb (Sitemap.ok _)); simpl.
  - split; [reflexivity | apply has_key_set].
  - destruct (Sitemap.collectLinks _ _ _ _ _ _) as [found free']. simpl.
    split; [reflexivity | apply has_key_set].
Qed.
End SitemapWorker.

(** C4.  [checkPath] returns the empty list, with the store and the list
    of issued requests untouched, when the path is a key of the store or
    starts with http; in check.ts and seo.ts also when it ends with
    sitemap.xml or robots.txt.  The sitemap crawl has no such exclusion:
    every path that is neither in the store nor starts with http is
    fetched and recorded there. *)
Theorem C4_skip_rule
        (newURL : string -> string -> URL)
        (fetch : string -> Checker.Response) (fetchS : string -> Sitemap.Response)
        (methods : list Checker.Method)
        (inspect : option Check.CheckOptions -> string -> Dom.Document ->
                   Check.Headings * list string * list string * list string)
        (baseUrl : string) (page : Sitemap.PageType)
        (st : Checker.State) (stS : Sitemap.State)
        (options : Check.CheckOptions) (options' : option Check.CheckOptions) :
  let path := Sitemap.path page in
  (JS.has_key (Checker.pages st) path = true \/ JS.startsWith path "http" = true
   \/ JS.endsWith path "sitemap.xml" = true \/ JS.endsWith path "robots.txt" = true ->
   Checker.checkPath newURL fetch methods baseUrl path st options = ([], st)
   /\ Seo.checkPath newURL fetch inspect baseUrl path st options' = ([], st))
  /\ (JS.has_key (Sitemap.pages stS) path = true \/ JS.startsWith path "http" = true ->
      Sitemap.checkPath newURL fetchS baseUrl page stS = ([], stS))
  /\ (JS.has_key (Sitemap.pages stS) path = false ->
      JS.startsWith path "http" = false ->
      let r := Sitemap.checkPath newURL fetchS baseUrl page stS in
      Sitemap.requests (snd r) = Sitemap.requests stS ++ [href (newURL path baseUrl)]
      /\ JS.has_key (Sitemap.pages (snd r)) path = true).
Proof.
  intros path. split; [| split].
  - intros H.
    assert (Hs : Checker.skipped (Checker.pages st) path = true).
    { unfold Checker.skipped.
      destruct H as [H | [H | [H | H]]]; rewrite H;
        repeat rewrite orb_true_r; reflexivity. }
    split; [now apply checker_skips | now apply seo_skips].
  - intros H. apply sitemap_skips. unfold Sitemap.skipped. fold path.
    destruct H as [H | H]; rewrite H; [reflexivity | apply orb_true_r].
  - intros Hk Hh. apply sitemap_dispatches. unfold Sitemap.skipped. fold path.
    now rewrite Hk, Hh.
Qed.

Lemma C4_skip_rule_witness :
  let page := {| Sitemap.path := "/sitemap.xml"; Sitemap.depth := 2;
                 Sitemap.error := None |} in
  (Checker.checkPath Samples.siteURL Samples.html404 [] Samples.base
                     "/sitemap.xml" Samples.emptyChecker Samples.allChecks
   = ([], Samples.emptyChecker)
   /\ Seo.checkPath Samples.siteURL Samples.html404 Samples.noFindings Samples.base
                    "/sitemap.xml" Samples.emptyChecker None
      = ([], Samples.emptyChecker))
  /\ Sitemap.requests
       (snd (Sitemap.checkPath Samples.siteURL Samples.blank Samples.base page
                               Samples.emptySitemap))
     = ["https://site.test/sitemap.xml"]
  /\ (let known := {| Sitemap.pages := [("/sitemap.xml", page)];
                      Sitemap.requests := []; Sitemap.free := 1 |} in
      Sitemap.checkPath Samples.siteURL Samples.blank Samples.base page known
      = ([], known)).
Proof.
  intros page.
  destruct (C4_skip_rule Samples.siteURL Samples.html404 Samples.blank []
              Samples.noFindings Samples.base page Samples.emptyChecker
              Samples.emptySitemap Samples.allChecks None) as [Hc [_ Hd]].
  destruct (C4_skip_rule Samples.siteURL Samples.html404 Samples.blank []
              Samples.noFindings Samples.base page Samples.emptyChecker
              {| Sitemap.pages := [("/sitemap.xml", page)];
                 Sitemap.requests := []; Sitemap.free := 1 |}
              Samples.allChecks None) as [_ [Hk _]].
  split; [| split].
  - apply Hc. right. right. left. reflexivity.
  - exact (proj1 (Hd eq_refl eq_refl)).
  - apply Hk. left. reflexivity.
Defined.

(** ** The heading checks *)

Lemma unused_level_empty (hs : Check.Headings) (i : Z) :
  Check.used hs i = false -> (List.length (Check.level hs i) =? 0)%nat = true.
Proof.
  unfold Check.used. destruct (Check.level hs i); simpl; [reflexivity | discriminate].
Qed.

Section SingleGap.
Variable page : Check.PageType.
Variable lvl : Z.
Hypothesis lvl_deep : (3 <= lvl <= 6)%Z.
Hypothesis only_two :
  forall i, (1 <= i <= 6)%Z ->
            Check.used (Check.headings page) i = ((i =? 1)%Z || (i =? lvl)%Z).

Let skipsLevel : string :=
  "SEO: Heading hierarchy - h" +++ JS.string_of_Z lvl +++ " skips h"
    +++ JS.string_of_Z (lvl - 1) +++ " level".

Let withoutLevel : string :=
  "SEO: Heading " +++ JS.string_of_Z lvl +++ " without heading "
    +++ JS.string_of_Z (lvl - 1).

(** Level 1 has content, so every inner loop that starts at level 1 finds
    a shallower level. *)
Lemma anyLevelBelow_found (bound : Z) :
  (2 <= bound <= 6)%Z ->
  HeadingHierarchy.anyLevelBelow (Check.headings page) bound = true.
Proof.
  intros Hb. unfold HeadingHierarchy.anyLevelBelow, JS.range.
  destruct (Z.to_nat (bound - 1)) as [| n] eqn:E; [lia |].
  simpl. rewrite only_two by lia. reflexivity.
Qed.

(** What one pass of the body of the loop does on a page with these
    headings. *)
Lemma visit_level (current : Check.PageType) (i : Z) :
  Check.headings current = Check.headings page ->
  (1 <= i <= 6)%Z ->
  HeadingHierarchy.visit current i
  = if (i =? lvl)%Z then Check.push_error current skipsLevel else current.
Proof.
  intros Hh Hi. unfold HeadingHierarchy.visit. rewrite Hh.
  rewrite only_two by lia.
  destruct (i =? lvl)%Z eqn:El.
  - apply Z.eqb_eq in El. subst i. rewrite orb_true_r.
    replace (1 <? lvl)%Z with true by (symmetry; apply Z.ltb_lt; lia).
    replace (2 <? lvl)%Z with true by (symmetry; apply Z.ltb_lt; lia).
    rewrite anyLevelBelow_found by lia. simpl negb. cbv iota.
    rewrite unused_level_empty.
    + rewrite anyLevelBelow_found by lia. reflexivity.
    + rewrite only_two by lia.
      replace (lvl - 1 =? 1)%Z with false by (symmetry; apply Z.eqb_neq; lia).
      replace (lvl - 1 =? lvl)%Z with false by (symmetry; apply Z.eqb_neq; lia).
      reflexivity.
  - rewrite orb_false_r. destruct (i =? 1)%Z eqn:E1; [| reflexivity].
    apply Z.eqb_eq in E1. subst i. reflexivity.
Qed.

Lemma visit_levels (l : list Z) (current : Check.PageType) :
  Check.headings current = Check.headings page ->
  (forall i, In i l -> (1 <= i <= 6)%Z) ->
  fold_left HeadingHierarchy.visit l current
  = fold_left (fun p i => if (i =? lvl)%Z then Check.push_error p skipsLevel else p)
              l current.
Proof.
  revert current. induction l as [| i l IH]; intros current Hh Hl; [reflexivity |].
  simpl. rewrite visit_level by (auto; apply Hl; now left).
  apply IH.
  - now destruct (i =? lvl)%Z.
  - intros k Hk. apply Hl. now right.
Qed.

(** A page whose only headings are of level 1 and of one level between 3
    and 6: the hierarchy check pushes one error, which names that level
    and the empty level above it; level 1 is the shallower level with
    content, also when it is not the level next but one. *)
Lemma hierarchy_single_gap (options : Check.CheckOptions) (document : Dom.Document) :
  Check.seo options = Some true ->
  Check.errors (HeadingHierarchy.check options document page)
  = Check.errors page ++ [skipsLevel].
Proof.
  intros Hseo.
  unfold HeadingHierarchy.check. rewrite Hseo. simpl negb. cbv iota.
  rewrite visit_levels; [| reflexivity |].
  - generalize skipsLevel. intros msg.
    assert (Hcases : lvl = 3%Z \/ lvl = 4%Z \/ lvl = 5%Z \/ lvl = 6%Z) by lia.
    destruct Hcases as [-> | [-> | [-> | ->]]]; reflexivity.
  - unfold HeadingHierarchy.levels. simpl. intros i Hi. lia.
Qed.

Lemma compare_level (current : Check.PageType) (i : Z) :
  Check.headings current = Check.headings page ->
  (2 <= i <= 6)%Z ->
  SeoCheck.compareWithPrevious current i
  = if (i =? lvl)%Z then Check.push_error current withoutLevel else current.
Proof.
  intros Hh Hi. unfold SeoCheck.compareWithPrevious. rewrite Hh.
  rewrite only_two by lia.
  replace (i =? 1)%Z with false by (symmetry; apply Z.eqb_neq; lia).
  simpl orb. destruct (i =? lvl)%Z eqn:El; [| reflexivity].
  apply Z.eqb_eq in El. subst i.
  rewrite unused_level_empty; [reflexivity |].
  rewrite only_two by lia.
  replace (lvl - 1 =? 1)%Z with false by (symmetry; apply Z.eqb_neq; lia).
  replace (lvl - 1 =? lvl)%Z with false by (symmetry; apply Z.eqb_neq; lia).
  reflexivity.
Qed.

Lemma compare_levels (l : list Z) (current : Check.PageType) :
  Check.headings current = Check.headings page ->
  (forall i, In i l -> (2 <= i <= 6)%Z) ->
  fold_left SeoCheck.compareWithPrevious l current
  = fold_left (fun p i => if (i =? lvl)%Z then Check.push_error p withoutLevel else p)
              l current.
Proof.
  revert current. induction l as [| i l IH]; intros current Hh Hl; [reflexivity |].
  simpl. rewrite compare_level by (auto; apply Hl; now left).
  apply IH.
  - now destruct (i =? lvl)%Z.
  - intros k Hk. apply Hl. now right.
Qed.

(** On the same page the loop of the SEO check, which looks at the level
    just above only, pushes one error as well. *)
Lemma seo_loop_single_gap :
  Check.errors (SeoCheck.headingLoop page) = Check.errors page ++ [withoutLevel].
Proof.
  unfold SeoCheck.headingLoop.
  rewrite compare_levels; [| reflexivity |].
  - generalize withoutLevel. intros msg.
    assert (Hcases : lvl = 3%Z \/ lvl = 4%Z \/ lvl = 5%Z \/ lvl = 6%Z) by lia.
    destruct Hcases as [-> | [-> | [-> | ->]]]; reflexivity.
  - simpl. intros i Hi. lia.
Qed.
End SingleGap.

Lemma used_iff_not_nil (hs : Check.Headings) (i : Z) :
  Check.used hs i = true <-> Check.level hs i <> [].
Proof.
  unfold Check.used. destruct (Check.level hs i); simpl; split; intros H;
    try discriminate; try reflexivity; congruence.
Qed.

(** ** The accessibility check *)

(** Called with [value = false], [hasAccessibilityContent] has a single
    answer. *)
Lemma hasAccessibilityContent_false (element : Dom.Node) :
  Accessibility.hasAccessibilityContent element false = false.
Proof.
  destruct element as [data | tag attrs style cs];
    cbn [Accessibility.hasAccessibilityContent];
    match goal with
    | |- (if ?c then _ else _) = _ => destruct c; [reflexivity |]
    end.
  - reflexivity.
  - induction cs as [| child cs IH]; [reflexivity |].
    destruct (Dom.isElement child); [| exact IH].
    destruct (Accessibility.hasAccessibilityContent child false); [reflexivity | exact IH].
Qed.

Lemma filter_none {A : Type} (f : A -> bool) (l : list A) :
  (forall x, f x = false) -> filter f l = [].
Proof.
  intros H. induction l as [| x l IH]; simpl; [reflexivity |]. now rewrite H.
Qed.

(** The recursion of [hasAccessibilityContent] is the loop over
    [element.children] of the source. *)
Lemma hasAccessibilityContent_unfold (element : Dom.Node) (value : bool) :
  Accessibility.hasAccessibilityContent element value
  = if JS.truthy_opt (Dom.getAttribute element "aria-label")
       || JS.truthy (JS.trim (Dom.textContent element))
    then value
    else if existsb (fun child => Accessibility.hasAccessibilityContent child value)
                    (Dom.children element)
         then value else false.
Proof.
  destruct element as [data | tag attrs style cs];
    cbn [Accessibility.hasAccessibilityContent Dom.children];
    match goal with
    | |- (if ?c then _ else _) = _ => destruct c; [reflexivity |]
    end.
  - reflexivity.
  - induction cs as [| child cs IH]; [reflexivity |].
    cbn [filter]. destruct (Dom.isElement child); [| exact IH].
    cbn [existsb].
    destruct (Accessibility.hasAccessibilityContent child value); simpl.
    + now destruct value.
    + exact IH.
Qed.

(** [notAriaHidden] tests the element and then its [parentElement]. *)
Lemma notAriaHidden_unfold (element : Dom.Located) :
  Accessibility.notAriaHidden element
  = if Dom.attr_is (Dom.self element) "aria-hidden" "true"
       || Dom.attr_is (Dom.self element) "aria-hidden" EmptyString
    then false
    else match Dom.parentElement element with
         | Some parent => Accessibility.notAriaHidden parent
         | None => true
         end.
Proof.
  destruct element as [self up]. unfold Accessibility.notAriaHidden, Dom.parentElement.
  simpl. destruct up; reflexivity.
Qed.

(** C8, evaluated on the code.  The filter that selects the unlabelled
    links and buttons calls [hasAccessibilityContent] with [false], which
    answers [false] for every element; the list of elements to report is
    therefore empty for every document.  On the document that consists of
    one empty button, which is an HTML element, not hidden, matched by the
    selector and without accessible content, the check pushes no error. *)
Theorem C8_unlabelled_elements_never_reported :
  (forall element, Accessibility.hasAccessibilityContent element false = false)
  /\ (forall document, Accessibility.notLabelledLink document = [])
  /\ filter Accessibility.notAriaHidden
       (filter Accessibility.isHTMLElement
          (Dom.querySelectorAll Samples.emptyButtonDocument
                                Accessibility.interactiveUnlabelled))
     = [ {| Dom.self := Samples.emptyButton; Dom.ancestors := [] |} ]
  /\ Accessibility.hasAccessibilityContent Samples.emptyButton true = false
  /\ (forall outerHTML,
         Check.errors (Accessibility.check outerHTML Samples.allChecks
                                           Samples.emptyButtonDocument Samples.blankPage)
         = []).
Proof.
  split; [exact hasAccessibilityContent_false |].
  split.
  { intros document. unfold Accessibility.notLabelledLink.
    apply filter_none. intros e. apply hasAccessibilityContent_false. }
  split; [reflexivity |].
  split; [reflexivity |].
  intros outerHTML. reflexivity.
Qed.

(** C10.  [notAriaHidden] answers [false] exactly when the element or one
    of its ancestors carries an aria-hidden attribute whose value is the
    string true or the empty string. *)
Theorem C10_hidden_iff_marked_on_chain (element : Dom.Located) :
  Accessibility.notAriaHidden element = false
  <-> exists n, In n (Dom.self element :: Dom.ancestors element)
                /\ (Dom.getAttribute n "aria-hidden" = Some "true"
                    \/ Dom.getAttribute n "aria-hidden" = Some EmptyString).
Proof.
  destruct element as [self up]. unfold Accessibility.notAriaHidden. simpl.
  assert (Hattr : forall n v, Dom.attr_is n "aria-hidden" v = true
                              <-> Dom.getAttribute n "aria-hidden" = Some v).
  { intros n v. unfold Dom.attr_is.
    destruct (Dom.getAttribute n "aria-hidden") as [w |].
    - rewrite String.eqb_eq. split; congruence.
    - split; discriminate. }
  revert self. induction up as [| parent up IH]; intros self; simpl.
  - destruct (Dom.attr_is self "aria-hidden" "true") eqn:Et; simpl.
    + split; [| reflexivity]. intros _. exists self. split; [now left |].
      left. now apply Hattr.
    + destruct (Dom.attr_is self "aria-hidden" EmptyString) eqn:Ee.
      * split; [| reflexivity]. intros _. exists self. split; [now left |].
        right. now apply Hattr.
      * split; [discriminate |].
        intros [n [[<- | []] [H | H]]]; apply Hattr in H; congruence.
  - destruct (Dom.attr_is self "aria-hidden" "true") eqn:Et; simpl.
    + split; [| reflexivity]. intros _. exists self. split; [now left |].
      left. now apply Hattr.
    + destruct (Dom.attr_is self "aria-hidden" EmptyString) eqn:Ee.
      * split; [| reflexivity]. intros _. exists self. split; [now left |].
        right. now apply Hattr.
      * rewrite IH. split.
        -- intros [n [Hn Hv]]. exists n. split; [now right | assumption].
        -- intros [n [[<- | Hn] Hv]].
           ++ destruct Hv as [H | H]; apply Hattr in H; congruence.
           ++ exists n. split; assumption.
Qed.

(** The two cases the rule is easily got wrong on: the empty value hides,
    and the value false on the element does not stop the walk to an
    ancestor marked true. *)
Lemma C10_hidden_iff_marked_on_chain_witness :
  Accessibility.notAriaHidden Samples.bareHidden = false
  /\ Dom.getAttribute (Dom.self Samples.iconInContainer) "aria-hidden" = Some "false"
  /\ Accessibility.notAriaHidden Samples.iconInContainer = false.
Proof.
  split; [| split].
  - apply (proj2 (C10_hidden_iff_marked_on_chain Samples.bareHidden)).
    exists (Dom.self Samples.bareHidden). split; [now left | now right].
  - reflexivity.
  - apply (proj2 (C10_hidden_iff_marked_on_chain Samples.iconInContainer)).
    exists Samples.hiddenContainer. split; [right; now left | now left].
Defined.

(** ** The performance check *)

Lemma Qlt_bool_iff (x y : Q) : JS.Qlt_bool x y = true <-> (x < y)%Q.
Proof.
  unfold JS.Qlt_bool. rewrite negb_true_iff. split.
  - intros H. apply Qnot_le_lt. intros Hle. apply Qle_bool_iff in Hle. congruence.
  - intros H. destruct (Qle_bool y x) eqn:E; [| reflexivity].
    apply Qle_bool_iff in E. exfalso. now apply (Qlt_not_le x y).
Qed.

Lemma Qlt_bool_false_iff (x y : Q) : JS.Qlt_bool x y = false <-> (y <= x)%Q.
Proof.
  unfold JS.Qlt_bool. rewrite negb_false_iff. apply Qle_bool_iff.
Qed.

(** C9, as the code has it.  For a page whose loading time is set and is
    not zero, the performance check pushes one error above 4000 ms, one
    warning above 2500 ms and up to 4000 ms, nothing otherwise, and sets
    the score to excellent below 1000 ms, good below 2500 ms,
    needs-improvement below 4000 ms, and poor from 4000 ms on. *)
Theorem C9_performance_classes
        (options : Check.CheckOptions) (document : Dom.Document)
        (page : Check.PageType) (t : Q) :
  let page' := Performance.check options document page in
  let ms := JS.string_of_Z (JS.Math_round t) in
  Check.loadingTime page = Some t ->
  ~ (t == 0)%Q ->
  ((4000 < t)%Q ->
   Check.errors page'
   = Check.errors page ++ ["Performance: Page load time too slow (" +++ ms +++ "ms)"]
   /\ Check.warnings page' = Check.warnings page)
  /\ ((2500 < t)%Q -> (t <= 4000)%Q ->
      Check.warnings page'
      = Check.warnings page
          ++ ["Performance: Page load time could be improved (" +++ ms +++ "ms)"]
      /\ Check.errors page' = Check.errors page)
  /\ ((t <= 2500)%Q ->
      Check.errors page' = Check.errors page /\ Check.warnings page' = Check.warnings page)
  /\ ((t < 1000)%Q -> Check.performanceScore page' = Some "excellent")
  /\ ((1000 <= t)%Q -> (t < 2500)%Q -> Check.performanceScore page' = Some "good")
  /\ ((2500 <= t)%Q -> (t < 4000)%Q ->
      Check.performanceScore page' = Some "needs-improvement")
  /\ ((4000 <= t)%Q -> Check.performanceScore page' = Some "poor").
Proof.
  intros page' ms Ht Hnz. subst page' ms. unfold Performance.check. rewrite Ht.
  assert (E0 : Qeq_bool t 0 = false).
  { destruct (Qeq_bool t 0) eqn:E; [| reflexivity].
    apply Qeq_bool_iff in E. contradiction. }
  rewrite E0.
  destruct (JS.Qlt_bool 4000 t) eqn:E4; destruct (JS.Qlt_bool 2500 t) eqn:E25;
    destruct (JS.Qlt_bool t 1000) eqn:E1; destruct (JS.Qlt_bool t 2500) eqn:E2;
    destruct (JS.Qlt_bool t 4000) eqn:E3;
    rewrite ?Qlt_bool_iff, ?Qlt_bool_false_iff in *;
    simpl;
    repeat split; intros;
    try reflexivity;
    exfalso;
    repeat match goal with
           | H : (_ < _)%Q |- _ => unfold Qlt in H; simpl in H
           | H : (_ <= _)%Q |- _ => unfold Qle in H; simpl in H
           end;
    lia.
Qed.

Lemma C9_performance_classes_witness :
  let page' := Performance.check Samples.allChecks Samples.emptyDocument
                                 (Samples.timedPage (6401 # 2)) in
  Check.warnings page' = ["Performance: Page load time could be improved (3201ms)"]
  /\ Check.errors page' = []
  /\ Check.performanceScore page' = Some "needs-improvement".
Proof.
  destruct (C9_performance_classes Samples.allChecks Samples.emptyDocument
              (Samples.timedPage (6401 # 2)) (6401 # 2) eq_refl)
    as [_ [Hw [_ [_ [_ [Hs _]]]]]].
  - intros H. vm_compute in H. discriminate.
  - split; [| split].
    + apply Hw; vm_compute; [reflexivity | discriminate].
    + apply Hw; vm_compute; [reflexivity | discriminate].
    + apply Hs; vm_compute; [discriminate | reflexivity].
Defined.

(** C9 as stated fails for a loading time of zero: it is below 1000, and
    the check returns before it sets a score.  The same happens when the
    loading time is not set. *)
Lemma C9_zero_loading_time_gets_no_score :
  Check.loadingTime (Samples.timedPage 0) = Some 0%Q
  /\ (0 < 1000)%Q
  /\ Check.performanceScore
       (Performance.check Samples.allChecks Samples.emptyDocument (Samples.timedPage 0))
     = None
  /\ Check.performanceScore
       (Performance.check Samples.allChecks Samples.emptyDocument Samples.blankPage)
     = None.
Proof. repeat split. Qed.

(** ** The sitemap renderers *)

Lemma nth_error_numbered {A : Type} (l : list A) (s i : nat) (x : A) :
  nth_error l i = Some x ->
  nth_error (combine (seq s (List.length l)) l) i = Some ((s + i)%nat, x).
Proof.
  revert s i. induction l as [| y l IH]; intros s i H.
  - destruct i; discriminate.
  - destruct i as [| i]; simpl in *.
    + injection H as ->. now rewrite Nat.add_0_r.
    + rewrite (IH (S s) i H). f_equal. f_equal. lia.
Qed.

Lemma nth_error_rendered {A B : Type} (f : nat * A -> B) (l : list A) (i : nat) (x : A) :
  nth_error l i = Some x ->
  nth_error (map f (combine (seq 0 (List.length l)) l)) i = Some (f (i, x)).
Proof.
  intros H. rewrite nth_error_map, (nth_error_numbered l 0 i x H). reflexivity.
Qed.

(** [round nb 2] is a whole number of hundredths, the one nearest to [nb],
    the upper one at a tie. *)
Lemma round_two_decimals (nb : Q) :
  let n := JS.Math_round (nb * 100)%Q in
  (GenerateSitemap.round nb 2 == inject_Z n / 100)%Q
  /\ (nb * 100 - (1 # 2) < inject_Z n)%Q
  /\ (inject_Z n <= nb * 100 + (1 # 2))%Q.
Proof.
  intros n. subst n. unfold GenerateSitemap.round, JS.Math_round.
  change (10 ^ 2)%Q with 100%Q.
  split; [reflexivity |]. split.
  - pose proof (Qlt_floor (nb * 100 + (1 # 2))) as H.
    rewrite inject_Z_plus in H. apply Qplus_lt_l with (z := 1%Q).
    eapply Qle_lt_trans; [| exact H].
    unfold Qle, Qminus. simpl. lia.
  - apply Qfloor_le.
Qed.

(** C5, as the code has it.  The page at position [i] among those that
    pass the error filter is rendered at position [i].  generateSitemap
    gives it the priority [round(0.8^(depth-1), 2)] printed with two
    decimals and the change frequency daily; the second [generate] action
    of sitemap.ts gives it the same number and frequency; the first
    [generate] action of sitemap.ts gives it [1 / depth] and no change
    frequency.  The rounded number is the nearest whole number of
    hundredths; depths 1, 2 and 3 yield 1.00, 0.80 and 0.64. *)
Theorem C5_priority_by_depth
        (clock : nat -> string) (pages : JS.Dict Sitemap.PageType)
        (i : nat) (page : Sitemap.PageType) :
  let decayed := ((8 # 10) ^ (Sitemap.depth page - 1))%Q in
  nth_error (GenerateSitemap.kept pages) i = Some page ->
  nth_error (GenerateSitemap.urls clock pages) i
  = Some {| GenerateSitemap.loc := GenerateSitemap.escapeXml (Sitemap.path page);
            GenerateSitemap.lastmod := clock i;
            GenerateSitemap.priority := JS.toFixed (GenerateSitemap.round decayed 2) 2;
            GenerateSitemap.changefreq := "daily" |}
  /\ nth_error (SitemapTs.secondUrls clock pages) i
     = Some {| SitemapTs.loc := Sitemap.path page;
               SitemapTs.lastmod := clock i;
               SitemapTs.priority := GenerateSitemap.round decayed 2;
               SitemapTs.changefreq := Some "daily" |}
  /\ nth_error (SitemapTs.firstUrls clock pages) i
     = Some {| SitemapTs.loc := Sitemap.path page;
               SitemapTs.lastmod := clock i;
               SitemapTs.priority := (1 / inject_Z (Sitemap.depth page))%Q;
               SitemapTs.changefreq := None |}
  /\ (GenerateSitemap.round decayed 2
      == inject_Z (JS.Math_round (decayed * 100)) / 100)%Q
  /\ (decayed * 100 - (1 # 2) < inject_Z (JS.Math_round (decayed * 100)))%Q
  /\ (inject_Z (JS.Math_round (decayed * 100)) <= decayed * 100 + (1 # 2))%Q
  /\ map GenerateSitemap.getPriority [1; 2; 3]%Z = ["1.00"; "0.80"; "0.64"]
  /\ (SitemapTs.getPriority 1 == 1)%Q
  /\ (SitemapTs.getPriority 2 == 80 # 100)%Q
  /\ (SitemapTs.getPriority 3 == 64 # 100)%Q.
Proof.
  intros decayed H.
  split; [exact (nth_error_rendered _ _ i page H) |].
  split; [exact (nth_error_rendered _ _ i page H) |].
  split; [exact (nth_error_rendered _ _ i page H) |].
  destruct (round_two_decimals decayed) as [Hr [Hlo Hhi]].
  repeat split; assumption || reflexivity.
Qed.

Lemma C5_priority_by_depth_witness :
  nth_error (GenerateSitemap.urls Samples.noon Samples.twoPages) 1
  = Some {| GenerateSitemap.loc := "https://site.test/about";
            GenerateSitemap.lastmod := "2024-01-01T12:00:00.000Z";
            GenerateSitemap.priority := "0.80";
            GenerateSitemap.changefreq := "daily" |}.
Proof.
  exact (proj1 (C5_priority_by_depth Samples.noon Samples.twoPages 1
                  {| Sitemap.path := "https://site.test/about"; Sitemap.depth := 2;
                     Sitemap.error := None |} eq_refl)).
Defined.

(** C5 as stated fails for the first [generate] action of sitemap.ts: a
    page at depth 2 gets the priority one half, which is not 0.80, and no
    change frequency. *)
Lemma C5_first_action_gives_reciprocal_depth :
  nth_error (SitemapTs.firstUrls Samples.noon Samples.twoPages) 1
  = Some {| SitemapTs.loc := "https://site.test/about";
            SitemapTs.lastmod := "2024-01-01T12:00:00.000Z";
            SitemapTs.priority := (1 / inject_Z 2)%Q;
            SitemapTs.changefreq := None |}
  /\ (1 / inject_Z 2 == 1 # 2)%Q
  /\ ~ (1 / inject_Z 2 == GenerateSitemap.round ((8 # 10) ^ (2 - 1)) 2)%Q.
Proof.
  split; [reflexivity |]. split; [reflexivity |].
  intros H. vm_compute in H. discriminate.
Qed.

(** * Further properties of the code *)

(** ** [escapeXml] *)

Lemma chars_append (a b : string) :
  list_ascii_of_string (a +++ b) = list_ascii_of_string a ++ list_ascii_of_string b.
Proof. induction a as [| c a IH]; simpl; [reflexivity | now rewrite IH]. Qed.

(** The six shapes [escapeChar] has. *)
Lemma escapeChar_cases (c : ascii) :
  (c = "<"%char /\ GenerateSitemap.escapeChar c = "&lt;")
  \/ (c = ">"%char /\ GenerateSitemap.escapeChar c = "&gt;")
  \/ (c = "&"%char /\ GenerateSitemap.escapeChar c = "&amp;")
  \/ (c = "'"%char /\ GenerateSitemap.escapeChar c = "&apos;")
  \/ (c = ascii_of_nat 34 /\ GenerateSitemap.escapeChar c = "&quot;")
  \/ (c <> "<"%char /\ c <> ">"%char /\ c <> "&"%char /\ c <> "'"%char
      /\ c <> ascii_of_nat 34
      /\ GenerateSitemap.escapeChar c = String c EmptyString).
Proof.
  unfold GenerateSitemap.escapeChar.
  destruct (Ascii.eqb c "<") eqn:E1;
    [apply Ascii.eqb_eq in E1; left; now split |].
  destruct (Ascii.eqb c ">") eqn:E2;
    [apply Ascii.eqb_eq in E2; right; left; now split |].
  destruct (Ascii.eqb c "&") eqn:E3;
    [apply Ascii.eqb_eq in E3; right; right; left; now split |].
  destruct (Ascii.eqb c "'") eqn:E4;
    [apply Ascii.eqb_eq in E4; right; right; right; left; now split |].
  destruct (Ascii.eqb c (ascii_of_nat 34)) eqn:E5;
    [apply Ascii.eqb_eq in E5; right; right; right; right; left; now split |].
  apply Ascii.eqb_neq in E1, E2, E3, E4, E5.
  right; right; right; right; right. repeat split; assumption.
Qed.

(** The text [escapeXml] returns holds no angle bracket and no quote. *)
Theorem escapeXml_leaves_no_markup (unsafe : string) (c : ascii) :
  In c (list_ascii_of_string (GenerateSitemap.escapeXml unsafe)) ->
  c <> "<"%char /\ c <> ">"%char /\ c <> "'"%char /\ c <> ascii_of_nat 34.
Proof.
  induction unsafe as [| d rest IH]; simpl; [intros [] |].
  rewrite chars_append, in_app_iff. intros [H | H]; [| now apply IH].
  destruct (escapeChar_cases d)
    as [[_ E] | [[_ E] | [[_ E] | [[_ E] | [[_ E] | [N1 [N2 [N3 [N4 [N5 E]]]]]]]]]];
    rewrite E in H; simpl in H;
    repeat (destruct H as [<- | H]; [repeat split; (discriminate || assumption) |]);
    destruct H.
Qed.

Lemma escapeXml_leaves_no_markup_witness :
  GenerateSitemap.escapeXml "<a href='x'>" = "&lt;a href=&apos;x&apos;&gt;"
  /\ "&"%char <> "<"%char.
Proof.
  split; [reflexivity |].
  apply (escapeXml_leaves_no_markup "<a href='x'>" "&"%char). simpl. now left.
Defined.

(** Two texts with the same escaped form are the same text: nothing is
    lost by escaping. *)
Theorem escapeXml_injective (a b : string) :
  GenerateSitemap.escapeXml a = GenerateSitemap.escapeXml b -> a = b.
Proof.
  revert b. induction a as [| c a IH]; intros [| d b] H; simpl in H.
  - reflexivity.
  - exfalso.
    destruct (escapeChar_cases d)
      as [[_ E] | [[_ E] | [[_ E] | [[_ E] | [[_ E] | [_ [_ [_ [_ [_ E]]]]]]]]]];
      rewrite E in H; discriminate.
  - exfalso.
    destruct (escapeChar_cases c)
      as [[_ E] | [[_ E] | [[_ E] | [[_ E] | [[_ E] | [_ [_ [_ [_ [_ E]]]]]]]]]];
      rewrite E in H; discriminate.
  - destruct (escapeChar_cases c)
      as [[C E] | [[C E] | [[C E] | [[C E] | [[C E] | [C1 [C2 [C3 [C4 [C5 E]]]]]]]]]];
      destruct (escapeChar_cases d)
        as [[D E'] | [[D E'] | [[D E'] | [[D E'] | [[D E'] | [D1 [D2 [D3 [D4 [D5 E']]]]]]]]]];
      rewrite E, E' in H; simpl in H;
      try discriminate;
      try (injection H as H; subst; f_equal; now apply IH);
      try (injection H as Hc H; subst; congruence).
Qed.

Lemma escapeXml_injective_witness : "a&b" = "a&b".
Proof.
  apply (escapeXml_injective "a&b" "a&b"). reflexivity.
Defined.

(** ** [round] and [getPriority] *)

Lemma Qfloor_unique (y : Q) (n : Z) :
  (inject_Z n <= y)%Q -> (y < inject_Z (n + 1))%Q -> Qfloor y = n.
Proof.
  intros Hlo Hhi.
  pose proof (Qfloor_le y) as H1. pose proof (Qlt_floor y) as H2.
  assert (A : (Qfloor y < n + 1)%Z).
  { rewrite Zlt_Qlt. eapply Qle_lt_trans; eassumption. }
  assert (B : (n < Qfloor y + 1)%Z).
  { rewrite Zlt_Qlt. eapply Qle_lt_trans; eassumption. }
  lia.
Qed.

Lemma decay_at_most_one (j : nat) : (0 < (8 # 10) ^ Z.of_nat j <= 1)%Q.
Proof.
  induction j as [| j IH].
  - simpl. split; [reflexivity | apply Qle_refl].
  - rewrite Nat2Z.inj_succ, <- Z.add_1_l.
    rewrite Qpower_plus by discriminate.
    change ((8 # 10) ^ 1)%Q with (8 # 10)%Q.
    destruct IH as [Hlo Hhi]. split; nra.
Qed.

Lemma decay_from_24 (k : Z) :
  (24 <= k)%Z -> (0 < (8 # 10) ^ k)%Q /\ ((8 # 10) ^ k <= (8 # 10) ^ 24)%Q.
Proof.
  intros Hk. replace k with (24 + Z.of_nat (Z.to_nat (k - 24)))%Z by lia.
  rewrite Qpower_plus by discriminate.
  destruct (decay_at_most_one (Z.to_nat (k - 24))) as [Hlo Hhi].
  assert (H24 : (0 < (8 # 10) ^ 24)%Q) by (apply Qpower_0_lt; reflexivity).
  split; nra.
Qed.

(** From depth 25 on the priority written to the sitemap is 0.00; depth
    24 is the last depth with a priority above zero. *)
Theorem getPriority_zero_from_depth_25 (depth : Z) :
  (25 <= depth)%Z ->
  GenerateSitemap.getPriority depth = "0.00"
  /\ GenerateSitemap.getPriority 24 = "0.01".
Proof.
  intros Hd. split; [| reflexivity].
  unfold GenerateSitemap.getPriority, GenerateSitemap.round.
  assert (H0 : JS.Math_round ((8 # 10) ^ (depth - 1) * 10 ^ 2)%Q = 0%Z).
  { unfold JS.Math_round. apply Qfloor_unique.
    - destruct (decay_from_24 (depth - 1)) as [Hlo _]; [lia |].
      change (10 ^ 2)%Q with 100%Q. change (inject_Z 0) with 0%Q. lra.
    - destruct (decay_from_24 (depth - 1)) as [_ Hhi]; [lia |].
      assert (Hc : ((8 # 10) ^ 24 < 1 # 200)%Q) by (vm_compute; reflexivity).
      change (10 ^ 2)%Q with 100%Q. change (inject_Z (0 + 1)) with 1%Q. lra. }
  rewrite H0. reflexivity.
Qed.

Lemma getPriority_zero_from_depth_25_witness :
  GenerateSitemap.getPriority 40 = "0.00".
Proof.
  apply (getPriority_zero_from_depth_25 40). lia.
Defined.

(** ** [getTag] *)

Lemma indexOf_absent (s : string) (c : ascii) :
  ~ In c (list_ascii_of_string s) -> JS.indexOf s c = (-1)%Z.
Proof.
  induction s as [| d s IH]; simpl; intros H; [reflexivity |].
  destruct (Ascii.eqb d c) eqn:E.
  - apply Ascii.eqb_eq in E. exfalso. apply H. now left.
  - rewrite IH by (intros Hin; apply H; now right). reflexivity.
Qed.

Lemma indexOf_first (a b : string) (c : ascii) :
  ~ In c (list_ascii_of_string a) ->
  JS.indexOf (a +++ String c b) c = Z.of_nat (String.length a).
Proof.
  induction a as [| d a IH]; intros H.
  - simpl. now rewrite Ascii.eqb_refl.
  - cbn [String.append JS.indexOf String.length].
    destruct (Ascii.eqb d c) eqn:E.
    + apply Ascii.eqb_eq in E. exfalso. apply H. simpl. now left.
    + rewrite IH by (intros Hin; apply H; simpl; now right).
      destruct (Z.of_nat (String.length a) <? 0)%Z eqn:El; [apply Z.ltb_lt in El; lia |].
      lia.
Qed.

Lemma length_append (a b : string) :
  String.length (a +++ b) = (String.length a + String.length b)%nat.
Proof. induction a as [| d a IH]; simpl; [reflexivity | now rewrite IH]. Qed.

Lemma substring_prefix (a b : string) :
  String.substring 0 (String.length a) (a +++ b) = a.
Proof.
  induction a as [| d a IH]; simpl.
  - now destruct b.
  - now rewrite IH.
Qed.

(** [getTag] returns the serialization up to and including its first
    closing angle bracket, and the empty text when there is none. *)
Theorem getTag_is_text_up_to_first_bracket
        (outerHTML : Dom.Node -> string) (element : Dom.Located) :
  (forall before after,
      outerHTML (Dom.self element) = before +++ ">" +++ after ->
      ~ In ">"%char (list_ascii_of_string before) ->
      Accessibility.getTag outerHTML element = before +++ ">")
  /\ (~ In ">"%char (list_ascii_of_string (outerHTML (Dom.self element))) ->
      Accessibility.getTag outerHTML element = EmptyString).
Proof.
  split.
  - intros before after E H. unfold Accessibility.getTag, JS.slice0. rewrite E.
    change (">" +++ after) with (String ">"%char after).
    rewrite indexOf_first by assumption.
    replace (Z.to_nat (Z.of_nat (String.length before) + 1))
      with (String.length (before +++ ">")).
    + replace (before +++ String ">"%char after) with ((before +++ ">") +++ after).
      * apply substring_prefix.
      * clear. induction before as [| d s IH]; simpl; [reflexivity | now rewrite IH].
    + rewrite length_append. simpl. lia.
  - intros H. unfold Accessibility.getTag, JS.slice0.
    rewrite indexOf_absent by assumption. simpl.
    now destruct (outerHTML (Dom.self element)).
Qed.

Lemma getTag_is_text_up_to_first_bracket_witness :
  Accessibility.getTag (fun _ => "<a title=x>more</a>")
                       {| Dom.self := Samples.emptyButton; Dom.ancestors := [] |}
  = "<a title=x>"
  /\ Accessibility.getTag (fun _ => "no bracket")
                          {| Dom.self := Samples.emptyButton; Dom.ancestors := [] |}
     = EmptyString.
Proof.
  split.
  - apply (proj1 (getTag_is_text_up_to_first_bracket
                    (fun _ => "<a title=x>more</a>")
                    {| Dom.self := Samples.emptyButton; Dom.ancestors := [] |})
             "<a title=x" "more</a>").
    + reflexivity.
    + simpl. intros H.
      repeat (destruct H as [H | H]; [discriminate |]). exact H.
  - apply (proj2 (getTag_is_text_up_to_first_bracket
                    (fun _ => "no bracket")
                    {| Dom.self := Samples.emptyButton; Dom.ancestors := [] |})).
    simpl. intros H.
    repeat (destruct H as [H | H]; [discriminate |]). exact H.
Defined.

(** ** [hasAccessibilityContent] with its default value *)

Lemma trimEnd_truthy (t : string) :
  JS.truthy (JS.trimEnd t)
  = existsb (fun c => negb (JS.isSpace c)) (list_ascii_of_string t).
Proof.
  induction t as [| c t IH]; [reflexivity |].
  cbn [JS.trimEnd list_ascii_of_string existsb]. rewrite <- IH.
  unfold JS.truthy. destruct (JS.isSpace c); simpl.
  - now destruct (String.eqb (JS.trimEnd t) EmptyString).
  - reflexivity.
Qed.

Lemma trimStart_visible (s : string) :
  existsb (fun c => negb (JS.isSpace c)) (list_ascii_of_string (JS.trimStart s))
  = existsb (fun c => negb (JS.isSpace c)) (list_ascii_of_string s).
Proof.
  induction s as [| c s IH]; [reflexivity |].
  cbn [JS.trimStart]. destruct (JS.isSpace c) eqn:E.
  - rewrite IH. simpl. now rewrite E.
  - reflexivity.
Qed.

(** A text survives [trim] exactly when it has a character that is not
    white space. *)
Lemma trim_truthy (s : string) :
  JS.truthy (JS.trim s)
  = existsb (fun c => negb (JS.isSpace c)) (list_ascii_of_string s).
Proof. unfold JS.trim. now rewrite trimEnd_truthy, trimStart_visible. Qed.

Lemma existsb_flat_map {A B : Type} (f : B -> bool) (g : A -> list B) (l : list A) :
  existsb f (flat_map g l) = existsb (fun x => existsb f (g x)) l.
Proof.
  induction l as [| x l IH]; simpl; [reflexivity |]. now rewrite existsb_app, IH.
Qed.

Lemma textContent_element (tag : string) (attrs : list (string * string))
      (style : bool) (cs : list Dom.Node) :
  list_ascii_of_string (Dom.textContent (Dom.Element tag attrs style cs))
  = flat_map (fun c => list_ascii_of_string (Dom.textContent c)) cs.
Proof.
  cbn [Dom.textContent]. induction cs as [| c cs IH]; [reflexivity |].
  cbn [flat_map]. now rewrite chars_append, IH.
Qed.

Lemma elements_under_element (up : list Dom.Node) (tag : string)
      (attrs : list (string * string)) (style : bool) (cs : list Dom.Node) :
  Dom.elements_under up (Dom.Element tag attrs style cs)
  = {| Dom.self := Dom.Element tag attrs style cs; Dom.ancestors := up |}
      :: flat_map (Dom.elements_under (Dom.Element tag attrs style cs :: up)) cs.
Proof.
  reflexivity.
Qed.

(** Which elements a subtree holds does not depend on what is above it. *)
Lemma selves_any_ancestors (n : Dom.Node) :
  forall up up', map Dom.self (Dom.elements_under up n)
                 = map Dom.self (Dom.elements_under up' n).
Proof.
  induction n as [data | tag attrs style cs IH] using Node_induction; intros up up'.
  - reflexivity.
  - rewrite !elements_under_element. cbn [map]. f_equal.
    generalize (Dom.Element tag attrs style cs :: up)
               (Dom.Element tag attrs style cs :: up').
    intros above above'.
    induction IH as [| c cs Hc _ IHcs]; [reflexivity |].
    cbn [flat_map]. rewrite !map_app. f_equal; [apply Hc | apply IHcs].
Qed.

(** Called with its default value, [hasAccessibilityContent] answers true
    exactly when the text of the element is not blank or the element or
    one of the elements below it has a non-empty aria-label. *)
Theorem hasAccessibilityContent_true_iff (element : Dom.Node) :
  Accessibility.hasAccessibilityContent element true = true
  <-> JS.truthy (JS.trim (Dom.textContent element)) = true
      \/ exists d, In d (map Dom.self (Dom.elements_under [] element))
                   /\ JS.truthy_opt (Dom.getAttribute d "aria-label") = true.
Proof.
  induction element as [data | tag attrs style cs IH] using Node_induction.
  - rewrite hasAccessibilityContent_unfold. cbn [Dom.getAttribute JS.truthy_opt orb
      Dom.children existsb Dom.elements_under map].
    destruct (JS.truthy (JS.trim (Dom.textContent (Dom.Text data)))).
    + split; [now left | reflexivity].
    + split; [discriminate | intros [H | [d [[] _]]]; discriminate].
  - rewrite hasAccessibilityContent_unfold.
    set (e := Dom.Element tag attrs style cs) in *.
    destruct (JS.truthy_opt (Dom.getAttribute e "aria-label")) eqn:Ea.
    { cbn [orb]. split; [| reflexivity]. intros _. right. exists e. split; [| exact Ea].
      unfold e. rewrite elements_under_element. now left. }
    destruct (JS.truthy (JS.trim (Dom.textContent e))) eqn:Et.
    { cbn [orb]. split; [now left | reflexivity]. }
    cbn [orb].
    assert (Hblank : forall c, In c cs ->
                     JS.truthy (JS.trim (Dom.textContent c)) = false).
    { intros c Hc. rewrite trim_truthy in Et |- *. unfold e in Et.
      rewrite textContent_element, existsb_flat_map in Et.
      destruct (existsb _ (list_ascii_of_string (Dom.textContent c))) eqn:Ec;
        [| reflexivity].
      assert (Hex : existsb (fun x => existsb (fun c0 => negb (JS.isSpace c0))
                                        (list_ascii_of_string (Dom.textContent x))) cs
                    = true).
      { apply existsb_exists. now exists c. }
      congruence. }
    rewrite Forall_forall in IH.
    destruct (existsb _ (Dom.children e)) eqn:Ex.
    + split; [| reflexivity]. intros _.
      apply existsb_exists in Ex. destruct Ex as [c [Hc Hacc]].
      unfold e in Hc. cbn [Dom.children] in Hc. apply filter_In in Hc.
      destruct Hc as [Hc _].
      apply (IH c Hc) in Hacc. destruct Hacc as [Htext | [d [Hd Hl]]].
      * rewrite (Hblank c Hc) in Htext. discriminate.
      * right. exists d. split; [| exact Hl].
        unfold e. rewrite elements_under_element. cbn [map]. right.
        rewrite flat_map_concat_map, concat_map, map_map. apply in_concat.
        exists (map Dom.self (Dom.elements_under [e] c)). split.
        -- apply in_map_iff. now exists c.
        -- now rewrite (selves_any_ancestors c [e] []).
    + split; [discriminate |]. intros [H | [d [Hd Hl]]]; [discriminate |].
      exfalso. unfold e in Hd. rewrite elements_under_element in Hd. cbn [map] in Hd.
      destruct Hd as [<- | Hd]; [cbn [Dom.self] in Hl; fold e in Hl; congruence |].
      rewrite flat_map_concat_map, concat_map, map_map in Hd.
      apply in_concat in Hd. destruct Hd as [l [Hl1 Hl2]].
      apply in_map_iff in Hl1. destruct Hl1 as [c [<- Hc]].
      rewrite (selves_any_ancestors c _ []) in Hl2.
      assert (Hacc : Accessibility.hasAccessibilityContent c true = true).
      { apply (IH c Hc). right. now exists d. }
      assert (Hel : Dom.isElement c = true).
      { destruct c; [destruct Hl2 | reflexivity]. }
      assert (Hin : existsb (fun child => Accessibility.hasAccessibilityContent child true)
                            (Dom.children e) = true).
      { apply existsb_exists. exists c. split; [| exact Hacc].
        unfold e. cbn [Dom.children]. apply filter_In. now split. }
      congruence.
Qed.

(** ** The link filters of [checkPath] *)

Lemma existsb_eqb_In (x : string) (l : list string) :
  existsb (String.eqb x) l = true <-> In x l.
Proof.
  rewrite existsb_exists. split.
  - intros [y [Hy E]]. apply String.eqb_eq in E. now subst.
  - intros H. exists x. split; [assumption | apply String.eqb_refl].
Qed.

Section CheckerLinks.
Variable newURL : string -> string -> URL.
Variable baseUrl : string.
Variable pages : JS.Dict Check.PageType.

(** A link the filter lets through, and the path it contributes. *)
Let passes (link p : string) : Prop :=
  origin (newURL link baseUrl) = baseUrl
  /\ pathname (newURL link baseUrl) = p
  /\ existsb (fun page => String.eqb (Check.path page) (href (newURL link baseUrl)))
             (JS.values pages) = false.

Let step (pagesToCheck : list string) (link : string) : list string :=
  let url := newURL link baseUrl in
  if String.eqb (origin url) baseUrl
     && negb (existsb (String.eqb (pathname url)) pagesToCheck)
     && negb (existsb (fun page => String.eqb (Check.path page) (href url))
                      (JS.values pages))
  then pagesToCheck ++ [pathname url]
  else pagesToCheck.

Lemma checker_links_from (links acc : list string) :
  NoDup acc ->
  NoDup (fold_left step links acc)
  /\ forall p, In p (fold_left step links acc)
               <-> In p acc \/ exists link, In link links /\ passes link p.
Proof.
  revert acc. induction links as [| link links IH]; intros acc Hnd; simpl.
  - split; [assumption |]. intros p. split; [now left | intros [H | [l [[] _]]]; exact H].
  - assert (Hstep : NoDup (step acc link)
                    /\ forall p, In p (step acc link)
                                 <-> In p acc \/ passes link p).
    { unfold step, passes.
      destruct (String.eqb (origin (newURL link baseUrl)) baseUrl) eqn:Eo; simpl.
      - apply String.eqb_eq in Eo.
        destruct (existsb (String.eqb (pathname (newURL link baseUrl))) acc) eqn:Ea; simpl.
        + apply existsb_eqb_In in Ea. split; [assumption |].
          intros p. split; [now left |]. intros [H | [_ [<- _]]]; assumption.
        + destruct (existsb _ (JS.values pages)) eqn:Er; simpl.
          * split; [assumption |]. intros p. split; [now left |].
            intros [H | [_ [_ H]]]; [assumption | discriminate].
          * assert (Hnew : ~ In (pathname (newURL link baseUrl)) acc).
            { intros Hin. apply existsb_eqb_In in Hin. congruence. }
            split.
            -- apply NoDup_app; [assumption | constructor; [intros [] | constructor] |].
               intros x Hx [<- | []]. now apply Hnew.
            -- intros p. rewrite in_app_iff. simpl. split.
               ++ intros [H | [<- | []]]; [now left | right; auto].
               ++ intros [H | [_ [<- _]]]; [now left | right; now left].
      - split; [assumption |]. intros p. split; [now left |].
        intros [H | [H _]]; [assumption |].
        apply String.eqb_neq in Eo. contradiction. }
    destruct Hstep as [Hnd' Hin']. destruct (IH _ Hnd') as [Hnd'' Hin''].
    split; [assumption |]. intros p. rewrite Hin'', Hin'. split.
    + intros [[H | H] | [l [Hl Hp]]].
      * now left.
      * right. exists link. split; [now left | assumption].
      * right. exists l. split; [now right | assumption].
    + intros [H | [l [[<- | Hl] Hp]]].
      * left. now left.
      * left. now right.
      * right. now exists l.
Qed.

(** The paths [checkPath] of check.ts returns hold no path twice, and are
    exactly the paths of the links that resolve to the crawled origin and
    to no address recorded in the store. *)
Theorem checker_links_are_new_and_distinct (links : list string) :
  NoDup (Checker.collectLinks newURL baseUrl pages links)
  /\ forall p, In p (Checker.collectLinks newURL baseUrl pages links)
               <-> exists link,
                     In link links
                     /\ origin (newURL link baseUrl) = baseUrl
                     /\ pathname (newURL link baseUrl) = p
                     /\ existsb (fun page => String.eqb (Check.path page)
                                                        (href (newURL link baseUrl)))
                                (JS.values pages) = false.
Proof.
  destruct (checker_links_from links [] (NoDup_nil _)) as [Hnd Hin].
  split; [exact Hnd |]. intros p.
  unfold Checker.collectLinks. fold step. rewrite Hin. unfold passes.
  split; [intros [[] | H]; exact H | intros H; now right].
Qed.
End CheckerLinks.

Section SitemapLinks.
Variable newURL : string -> string -> URL.
Variable baseUrl : string.
Variable page : Sitemap.PageType.
Variable pages : JS.Dict Sitemap.PageType.

Let passes (link p : string) : Prop :=
  origin (newURL link baseUrl) = baseUrl
  /\ pathname (newURL link baseUrl) = p
  /\ existsb (fun q => String.eqb (Sitemap.path q) (href (newURL link baseUrl)))
             (JS.values pages) = false.

Let step (acc : list Sitemap.Ref * nat) (link : string) : list Sitemap.Ref * nat :=
  let '(pagesToCheck, free) := acc in
  let linkUrl := newURL link baseUrl in
  if String.eqb (origin linkUrl) baseUrl
     && negb (existsb (fun p => String.eqb (Sitemap.path p) (href linkUrl))
                      (JS.values pages))
     && negb (existsb (fun r => String.eqb (Sitemap.path (Sitemap.target r))
                                           (pathname linkUrl))
                      pagesToCheck)
  then (pagesToCheck
          ++ [{| Sitemap.address := free;
                 Sitemap.target := {| Sitemap.path := pathname linkUrl;
                                      Sitemap.depth := (Sitemap.depth page + 1)%Z;
                                      Sitemap.error := None |} |}],
        S free)
  else (pagesToCheck, free).

(** What holds of the list under construction and of the next free
    address, from the address [first] the extraction started with. *)
Let wellFormed (first : nat) (acc : list Sitemap.Ref * nat) : Prop :=
  map Sitemap.address (fst acc) = seq first (List.length (fst acc))
  /\ snd acc = (first + List.length (fst acc))%nat
  /\ NoDup (map (fun r => Sitemap.path (Sitemap.target r)) (fst acc))
  /\ forall r, In r (fst acc) ->
               Sitemap.depth (Sitemap.target r) = (Sitemap.depth page + 1)%Z
               /\ Sitemap.error (Sitemap.target r) = None.

Let paths (acc : list Sitemap.Ref * nat) : list string :=
  map (fun r => Sitemap.path (Sitemap.target r)) (fst acc).

Lemma existsb_path_In (p : string) (l : list Sitemap.Ref) :
  existsb (fun r => String.eqb (Sitemap.path (Sitemap.target r)) p) l = true
  <-> In p (map (fun r => Sitemap.path (Sitemap.target r)) l).
Proof.
  rewrite existsb_exists, in_map_iff. split.
  - intros [r [Hr E]]. apply String.eqb_eq in E. now exists r.
  - intros [r [E Hr]]. exists r. split; [assumption | now apply String.eqb_eq].
Qed.

Lemma sitemap_step (first : nat) (acc : list Sitemap.Ref * nat) (link : string) :
  wellFormed first acc ->
  wellFormed first (step acc link)
  /\ forall p, In p (paths (step acc link)) <-> In p (paths acc) \/ passes link p.
Proof.
  destruct acc as [found free]. unfold wellFormed, paths, passes, step. cbn [fst snd].
  intros [Ha [Hf [Hnd Hd]]].
  destruct (String.eqb (origin (newURL link baseUrl)) baseUrl) eqn:Eo; simpl.
  - apply String.eqb_eq in Eo.
    destruct (existsb _ (JS.values pages)) eqn:Er; simpl.
    + repeat split; try assumption; try (now apply Hd).
      * now left.
      * intros [H | [_ [_ H]]]; [assumption | discriminate].
    + destruct (existsb _ found) eqn:Ea; simpl.
      * apply existsb_path_In in Ea.
        repeat split; try assumption; try (now apply Hd).
        -- now left.
        -- intros [H | [_ [<- _]]]; assumption.
      * assert (Hnew : ~ In (pathname (newURL link baseUrl))
                            (map (fun r => Sitemap.path (Sitemap.target r)) found)).
        { intros Hin. apply existsb_path_In in Hin. congruence. }
        repeat split.
        -- rewrite map_app, length_app, seq_app, Ha. simpl. now rewrite Hf.
        -- rewrite length_app. simpl. lia.
        -- rewrite map_app. simpl.
           apply NoDup_app; [assumption | constructor; [intros [] | constructor] |].
           intros x Hx [<- | []]. now apply Hnew.
        -- apply in_app_iff in H. destruct H as [H | [<- | []]]; [now apply Hd | reflexivity].
        -- apply in_app_iff in H. destruct H as [H | [<- | []]]; [now apply Hd | reflexivity].
        -- rewrite map_app, in_app_iff. simpl.
           intros [H | [<- | []]]; [now left | right; auto].
        -- rewrite map_app, in_app_iff. simpl.
           intros [H | [_ [<- _]]]; [now left | right; now left].
  - repeat split; try assumption; try (now apply Hd).
    + now left.
    + intros [H | [H _]]; [assumption |]. apply String.eqb_neq in Eo. contradiction.
Qed.

Lemma sitemap_links_from (first : nat) (links : list string)
      (acc : list Sitemap.Ref * nat) :
  wellFormed first acc ->
  wellFormed first (fold_left step links acc)
  /\ forall p, In p (paths (fold_left step links acc))
               <-> In p (paths acc) \/ exists link, In link links /\ passes link p.
Proof.
  revert acc. induction links as [| link links IH]; intros acc Hw; simpl.
  - split; [assumption |]. intros p. split; [now left | intros [H | [l [[] _]]]; exact H].
  - destruct (sitemap_step first acc link Hw) as [Hw' Hin'].
    destruct (IH _ Hw') as [Hw'' Hin'']. split; [assumption |].
    intros p. rewrite Hin'', Hin'. split.
    + intros [[H | H] | [l [Hl Hp]]].
      * now left.
      * right. exists link. split; [now left | assumption].
      * right. exists l. split; [now right | assumption].
    + intros [H | [l [[<- | Hl] Hp]]].
      * left. now left.
      * left. now right.
      * right. now exists l.
Qed.

(** The candidates the sitemap [checkPath] returns: each is one hop deeper
    than the page they were found on, no two have the same path, they are
    new objects at consecutive addresses, and their paths are exactly the
    paths of the links that resolve to the crawled origin and to no address
    recorded in the store. *)
Theorem sitemap_links_one_hop_deeper_and_fresh (free : nat) (links : list string) :
  let found := fst (Sitemap.collectLinks newURL baseUrl page pages free links) in
  let free' := snd (Sitemap.collectLinks newURL baseUrl page pages free links) in
  (forall r, In r found ->
             Sitemap.depth (Sitemap.target r) = (Sitemap.depth page + 1)%Z
             /\ Sitemap.error (Sitemap.target r) = None)
  /\ NoDup (map (fun r => Sitemap.path (Sitemap.target r)) found)
  /\ map Sitemap.address found = seq free (List.length found)
  /\ free' = (free + List.length found)%nat
  /\ forall p, In p (map (fun r => Sitemap.path (Sitemap.target r)) found)
               <-> exists link,
                     In link links
                     /\ origin (newURL link baseUrl) = baseUrl
                     /\ pathname (newURL link baseUrl) = p
                     /\ existsb (fun q => String.eqb (Sitemap.path q)
                                                     (href (newURL link baseUrl)))
                                (JS.values pages) = false.
Proof.
  intros found free'. subst found free'.
  assert (H0 : wellFormed free ([], free)).
  { unfold wellFormed. simpl. repeat split; [lia | constructor | destruct H | destruct H]. }
  destruct (sitemap_links_from free links ([], free) H0) as [[Ha [Hf [Hnd Hd]]] Hin].
  unfold Sitemap.collectLinks. fold step.
  repeat split; try assumption; try (now apply Hd).
  - intros H. apply Hin in H. destruct H as [[] | H]. exact H.
  - intros H. apply Hin. now right.
Qed.
End SitemapLinks.

(** ** Calling [checkPath] again *)

Section Revisit.
Variable newURL : string -> string -> URL.
Variable fetch : string -> Checker.Response.
Variable methods : list Checker.Method.
Variable baseUrl : string.
Variable options : Check.CheckOptions.

(** A path answered with something else than HTML leaves no trace in the
    store, so it passes the guard again: dispatched twice, it is requested
    twice. *)
Theorem checker_non_html_path_is_requested_again (path : string) (st : Checker.State) :
  let once := snd (Checker.checkPath newURL fetch methods baseUrl path st options) in
  let twice := snd (Checker.checkPath newURL fetch methods baseUrl path once options) in
  Checker.skipped (Checker.pages st) path = false ->
  Checker.notHtml (fetch (href (newURL path baseUrl))) = true ->
  Checker.skipped (Checker.pages once) path = false
  /\ Checker.pages twice = Checker.pages st
  /\ Checker.requests twice
     = Checker.requests st ++ [href (newURL path baseUrl); href (newURL path baseUrl)].
Proof.
  intros once twice Hs Hn. subst once twice.
  rewrite (checker_not_html newURL fetch methods baseUrl path st options Hs Hn).
  cbn [snd]. split; [exact Hs |].
  rewrite (checker_not_html newURL fetch methods baseUrl path _ options);
    [| exact Hs | exact Hn].
  cbn [snd Checker.request Checker.pages Checker.requests].
  split; [reflexivity |]. now rewrite <- app_assoc.
Qed.
End Revisit.

Lemma checker_non_html_path_is_requested_again_witness :
  Checker.requests
    (snd (Checker.checkPath Samples.siteURL Samples.plain404 [] Samples.base "/notes.txt"
            (snd (Checker.checkPath Samples.siteURL Samples.plain404 [] Samples.base
                                    "/notes.txt" Samples.emptyChecker Samples.allChecks))
            Samples.allChecks))
  = ["https://site.test/notes.txt"; "https://site.test/notes.txt"].
Proof.
  exact (proj2 (proj2 (checker_non_html_path_is_requested_again
                         Samples.siteURL Samples.plain404 [] Samples.base
                         Samples.allChecks "/notes.txt" Samples.emptyChecker
                         eq_refl eq_refl))).
Defined.

(** ** A registered check that throws *)

Lemma runMethods_issued (methods : list Checker.Method) (options : Check.CheckOptions)
      (document : Dom.Document) (acc : Check.PageType * list string) :
  fold_left (fun acc method =>
               let '(page', issued) := method options document (fst acc) in
               (page', snd acc ++ issued))
            methods acc
  = (fst (Checker.runMethods methods options document (fst acc)),
     snd acc ++ snd (Checker.runMethods methods options document (fst acc))).
Proof.
  unfold Checker.runMethods. revert acc.
  induction methods as [| method methods IH]; intros [page issued]; cbn [fold_left fst snd].
  - now rewrite app_nil_r.
  - destruct (method options document page) as [page' more]. cbn [app].
    rewrite (IH (page', issued ++ more)), (IH (page', more)). cbn [fst snd].
    now rewrite app_assoc.
Qed.

(** On checks that return, the loop over the registry is the loop of
    module [Checker]. *)
Lemma runMethods_of_returning_checks (methods : list Checker.Method)
      (options : Check.CheckOptions) (document : Dom.Document) (page : Check.PageType) :
  Registry.runMethods (map Registry.returning methods) options document page
  = (Some (fst (Checker.runMethods methods options document page)),
     snd (Checker.runMethods methods options document page)).
Proof.
  revert page. induction methods as [| method methods IH]; intros page; [reflexivity |].
  cbn [map Registry.runMethods]. unfold Registry.returning at 1.
  unfold Checker.runMethods at 1 2. cbn [fold_left fst snd].
  destruct (method options document page) as [page' issued].
  rewrite IH. cbn [app]. rewrite (runMethods_issued methods options document (page', issued)).
  reflexivity.
Qed.

Lemma checkPath_of_returning_checks
      (newURL : string -> string -> URL) (fetch : string -> Checker.Response)
      (methods : list Checker.Method) (baseUrl path : string) (st : Checker.State)
      (options : Check.CheckOptions) :
  Registry.checkPath newURL fetch (map Registry.returning methods) baseUrl path st options
  = (Some (fst (Checker.checkPath newURL fetch methods baseUrl path st options)),
     snd (Checker.checkPath newURL fetch methods baseUrl path st options)).
Proof.
  unfold Registry.checkPath, Checker.checkPath.
  destruct (Checker.skipped (Checker.pages st) path); [reflexivity |].
  unfold Registry.settle, Checker.settle.
  destruct (Checker.notHtml _); [reflexivity |].
  destruct (negb (Checker.ok _)); [reflexivity |].
  rewrite runMethods_of_returning_checks.
  destruct (Checker.runMethods _ _ _ _) as [page issued]. reflexivity.
Qed.


Section RevisitAfterThrow.
Variable newURL : string -> string -> URL.
Variable fetch : string -> Checker.Response.
Variable methods : list Registry.Method.
Variable baseUrl : string.
Variable options : Check.CheckOptions.

End RevisitAfterThrow.


(** ** Which pages the heading checks flag *)

Lemma empty_is_unused (hs : Check.Headings) (i : Z) :
  (List.length (Check.level hs i) =? 0)%nat = negb (Check.used hs i).
Proof. unfold Check.used. now destruct (Check.level hs i). Qed.

Lemma range_In (lo hi k : Z) : In k (JS.range lo hi) <-> (lo <= k < hi)%Z.
Proof.
  unfold JS.range. rewrite in_map_iff. split.
  - intros [j [<- Hj]]. apply in_seq in Hj. lia.
  - intros Hk. exists (Z.to_nat (k - lo)). split; [lia | apply in_seq; lia].
Qed.

(** A list of strings that equals the [Set] built from it has no string
    twice. *)
Lemma distinct_when_set_keeps_all (l : list string) :
  JS.Array_from_Set String.eqb l = l -> NoDup l.
Proof. intros <-. apply Array_from_Set_NoDup. apply string_same_eq. Qed.

Section HeadingFindings.
Variable hs : Check.Headings.

(** The errors one pass of the hierarchy loop pushes for a level. *)
Let hierarchyFindings (i : Z) : list string :=
  if Check.used hs i then
    (if (1 <? i)%Z && negb (HeadingHierarchy.anyLevelBelow hs i)
     then ["SEO: Heading hierarchy - h" +++ JS.string_of_Z i
             +++ " used without any parent heading levels"]
     else [])
    ++ (if (2 <? i)%Z && negb (Check.used hs (i - 1))
           && HeadingHierarchy.anyLevelBelow hs (i - 1)
        then ["SEO: Heading hierarchy - h" +++ JS.string_of_Z i +++ " skips h"
                +++ JS.string_of_Z (i - 1) +++ " level"]
        else [])
  else [].

(** The errors one pass of the SEO heading loop pushes for a level. *)
Let loopFindings (i : Z) : list string :=
  if Check.used hs i && negb (Check.used hs (i - 1))
  then ["SEO: Heading " +++ JS.string_of_Z i +++ " without heading "
          +++ JS.string_of_Z (i - 1)]
  else [].

Lemma visit_findings (current : Check.PageType) (i : Z) :
  Check.headings current = hs ->
  Check.headings (HeadingHierarchy.visit current i) = hs
  /\ Check.errors (HeadingHierarchy.visit current i)
     = Check.errors current ++ hierarchyFindings i.
Proof.
  intros Hh. unfold HeadingHierarchy.visit, hierarchyFindings. rewrite Hh.
  rewrite empty_is_unused.
  destruct (Check.used hs i); [| now rewrite app_nil_r].
  destruct (1 <? i)%Z; destruct (2 <? i)%Z;
    destruct (HeadingHierarchy.anyLevelBelow hs i);
    destruct (Check.used hs (i - 1));
    destruct (HeadingHierarchy.anyLevelBelow hs (i - 1));
    cbn [negb andb Check.push_error Check.headings Check.errors app];
    rewrite ?app_nil_r, <- ?app_assoc; split; reflexivity || assumption.
Qed.

Lemma visits_findings (l : list Z) (current : Check.PageType) :
  Check.headings current = hs ->
  Check.errors (fold_left HeadingHierarchy.visit l current)
  = Check.errors current ++ List.concat (map hierarchyFindings l).
Proof.
  revert current. induction l as [| i l IH]; intros current Hh; simpl.
  - now rewrite app_nil_r.
  - destruct (visit_findings current i Hh) as [Hh' He].
    rewrite (IH _ Hh'), He. now rewrite <- app_assoc.
Qed.

Lemma compare_findings (current : Check.PageType) (i : Z) :
  Check.headings current = hs ->
  Check.headings (SeoCheck.compareWithPrevious current i) = hs
  /\ Check.errors (SeoCheck.compareWithPrevious current i)
     = Check.errors current ++ loopFindings i.
Proof.
  intros Hh. unfold SeoCheck.compareWithPrevious, loopFindings. rewrite Hh.
  rewrite empty_is_unused.
  destruct (Check.used hs i && negb (Check.used hs (i - 1))); simpl.
  - split; [assumption | reflexivity].
  - split; [assumption | now rewrite app_nil_r].
Qed.

Lemma compares_findings (l : list Z) (current : Check.PageType) :
  Check.headings current = hs ->
  Check.errors (fold_left SeoCheck.compareWithPrevious l current)
  = Check.errors current ++ List.concat (map loopFindings l).
Proof.
  revert current. induction l as [| i l IH]; intros current Hh; simpl.
  - now rewrite app_nil_r.
  - destruct (compare_findings current i Hh) as [Hh' He].
    rewrite (IH _ Hh'), He. now rewrite <- app_assoc.
Qed.

(** Every error the SEO heading loop pushes starts with the same words. *)
Lemma headingLoop_adds (current : Check.PageType) :
  Check.headings current = hs ->
  exists added,
    Check.errors (SeoCheck.headingLoop current) = Check.errors current ++ added
    /\ Check.headings (SeoCheck.headingLoop current) = hs
    /\ forall m, In m added -> exists rest, m = "SEO: Heading " +++ rest.
Proof.
  intros Hh. exists (List.concat (map loopFindings (JS.range 2 7))).
  split; [| split].
  - unfold SeoCheck.headingLoop. now apply compares_findings.
  - unfold SeoCheck.headingLoop. generalize (JS.range 2 7). intros l.
    revert current Hh. induction l as [| i l IH]; intros current Hh; simpl.
    + assumption.
    + apply IH. now apply compare_findings.
  - intros m Hm. apply in_concat in Hm. destruct Hm as [ms [Hms Hm]].
    apply in_map_iff in Hms. destruct Hms as [i [<- _]].
    unfold loopFindings in Hm.
    destruct (Check.used hs i && negb (Check.used hs (i - 1))); [| destruct Hm].
    destruct Hm as [<- | []]. eexists. reflexivity.
Qed.

(** The inner loops of the hierarchy check, in words. *)
Lemma anyLevelBelow_iff (bound : Z) :
  HeadingHierarchy.anyLevelBelow hs bound = true
  <-> exists k, (1 <= k < bound)%Z /\ Check.used hs k = true.
Proof.
  unfold HeadingHierarchy.anyLevelBelow. rewrite existsb_exists.
  split; intros [k [H1 H2]]; exists k.
  - split; [now apply range_In | exact H2].
  - split; [now apply range_In | exact H2].
Qed.

Lemma anyLevelBelow_false_iff (bound : Z) :
  HeadingHierarchy.anyLevelBelow hs bound = false
  <-> forall k, (1 <= k < bound)%Z -> Check.used hs k = false.
Proof.
  split.
  - intros H k Hk. destruct (Check.used hs k) eqn:E; [| reflexivity].
    rewrite <- H. symmetry. apply anyLevelBelow_iff. now exists k.
  - intros H. destruct (HeadingHierarchy.anyLevelBelow hs bound) eqn:E; [| reflexivity].
    apply anyLevelBelow_iff in E. destruct E as [k [Hk Hu]].
    rewrite (H k Hk) in Hu. discriminate.
Qed.

Ltac spell_out_levels :=
  unfold hierarchyFindings, HeadingHierarchy.levels;
  cbn [map List.concat];
  change (2 - 1)%Z with 1%Z; change (3 - 1)%Z with 2%Z; change (4 - 1)%Z with 3%Z;
  change (5 - 1)%Z with 4%Z; change (6 - 1)%Z with 5%Z; change (1 - 1)%Z with 0%Z;
  change (HeadingHierarchy.anyLevelBelow hs 0) with (existsb (Check.used hs) []);
  change (HeadingHierarchy.anyLevelBelow hs 1) with (existsb (Check.used hs) []);
  change (HeadingHierarchy.anyLevelBelow hs 2) with (existsb (Check.used hs) [1]%Z);
  change (HeadingHierarchy.anyLevelBelow hs 3) with (existsb (Check.used hs) [1; 2]%Z);
  change (HeadingHierarchy.anyLevelBelow hs 4) with (existsb (Check.used hs) [1; 2; 3]%Z);
  change (HeadingHierarchy.anyLevelBelow hs 5)
    with (existsb (Check.used hs) [1; 2; 3; 4]%Z);
  change (HeadingHierarchy.anyLevelBelow hs 6)
    with (existsb (Check.used hs) [1; 2; 3; 4; 5]%Z);
  cbn [existsb].

Ltac each_use_of_levels :=
  destruct (Check.used hs 1), (Check.used hs 2), (Check.used hs 3),
    (Check.used hs 4), (Check.used hs 5), (Check.used hs 6).

(** What the hierarchy loop pushes, in words: no message twice; for a
    level from 3 to 6 the message about a skipped level exactly when the
    level is in use, the level above it is empty and a level still
    shallower is in use; for a level from 2 to 6 the message about a
    missing parent exactly when the level is in use and no shallower
    level is; and nothing else. *)
Lemma hierarchy_findings_in_words :
  NoDup (List.concat (map hierarchyFindings HeadingHierarchy.levels))
  /\ (forall n, (3 <= n <= 6)%Z ->
        In (skippedLevelError n)
           (List.concat (map hierarchyFindings HeadingHierarchy.levels))
        <-> Check.used hs n = true /\ Check.used hs (n - 1) = false
            /\ exists k, (1 <= k < n - 1)%Z /\ Check.used hs k = true)
  /\ (forall n, (2 <= n <= 6)%Z ->
        In (orphanLevelError n)
           (List.concat (map hierarchyFindings HeadingHierarchy.levels))
        <-> Check.used hs n = true
            /\ forall k, (1 <= k < n)%Z -> Check.used hs k = false)
  /\ (forall m, In m (List.concat (map hierarchyFindings HeadingHierarchy.levels)) ->
                (exists n, (3 <= n <= 6)%Z /\ m = skippedLevelError n)
                \/ (exists n, (2 <= n <= 6)%Z /\ m = orphanLevelError n)).
Proof.
  assert (Hskip : forall n,
             (Check.used hs n = true /\ Check.used hs (n - 1) = false
              /\ exists k, (1 <= k < n - 1)%Z /\ Check.used hs k = true)
             <-> Check.used hs n && negb (Check.used hs (n - 1))
                 && HeadingHierarchy.anyLevelBelow hs (n - 1) = true).
  { intros n. rewrite <- anyLevelBelow_iff, !andb_true_iff, negb_true_iff. tauto. }
  assert (Horphan : forall n,
             (Check.used hs n = true
              /\ forall k, (1 <= k < n)%Z -> Check.used hs k = false)
             <-> Check.used hs n && negb (HeadingHierarchy.anyLevelBelow hs n) = true).
  { intros n. rewrite <- anyLevelBelow_false_iff, andb_true_iff, negb_true_iff. tauto. }
  split; [| split; [| split]].
  - spell_out_levels. each_use_of_levels;
      apply distinct_when_set_keeps_all; vm_compute; reflexivity.
  - intros n Hn. rewrite Hskip, <- existsb_eqb_In.
    assert (Hc : n = 3%Z \/ n = 4%Z \/ n = 5%Z \/ n = 6%Z) by lia.
    destruct Hc as [-> | [-> | [-> | ->]]];
      spell_out_levels; each_use_of_levels; vm_compute; tauto.
  - intros n Hn. rewrite Horphan, <- existsb_eqb_In.
    assert (Hc : n = 2%Z \/ n = 3%Z \/ n = 4%Z \/ n = 5%Z \/ n = 6%Z) by lia.
    destruct Hc as [-> | [-> | [-> | [-> | ->]]]];
      spell_out_levels; each_use_of_levels; vm_compute; tauto.
  - intros m. spell_out_levels. each_use_of_levels;
      cbn [negb andb orb app In Z.ltb Z.compare Pos.compare Pos.compare_cont];
      cbn [negb andb orb app In]; intros Hm;
      repeat match goal with
             | H : _ \/ _ |- _ => destruct H as [<- | H]
             | H : False |- _ => destruct H
             end;
      first [ left; exists 3%Z; split; [lia | reflexivity]
            | left; exists 4%Z; split; [lia | reflexivity]
            | left; exists 5%Z; split; [lia | reflexivity]
            | left; exists 6%Z; split; [lia | reflexivity]
            | right; exists 2%Z; split; [lia | reflexivity]
            | right; exists 3%Z; split; [lia | reflexivity]
            | right; exists 4%Z; split; [lia | reflexivity]
            | right; exists 5%Z; split; [lia | reflexivity]
            | right; exists 6%Z; split; [lia | reflexivity] ].
Qed.
End HeadingFindings.



(** ** The first-level findings of the SEO check *)

Lemma headingTexts_count (document : Dom.Document) (tag : string) :
  List.length (SeoCheck.headingTexts document tag)
  = List.length (Dom.querySelectorAll document [[Dom.Tag tag]]).
Proof. unfold SeoCheck.headingTexts. apply length_map. Qed.

(** The heading part of the SEO check reports a missing first-level
    heading exactly when the document has no h1 element and several
    first-level headings exactly when it has more than one; it never
    reports "No headings", because a document with an h1 element has a
    first-level heading text, be it empty. *)
Theorem seo_first_level_findings
        (options : Check.CheckOptions) (document : Dom.Document) (page : Check.PageType) :
  let page' := SeoCheck.headingPart options document page in
  let h1s := Dom.querySelectorAll document [[Dom.Tag "h1"]] in
  Check.seo options = Some true ->
  (In "SEO: No headings" (Check.errors page') -> In "SEO: No headings" (Check.errors page))
  /\ (In "SEO: Missing h1" (Check.errors page')
      <-> In "SEO: Missing h1" (Check.errors page) \/ h1s = [])
  /\ (In "SEO: Multiple h1" (Check.errors page')
      <-> In "SEO: Multiple h1" (Check.errors page) \/ (1 < List.length h1s)%nat)
  /\ Check.headings page' = SeoCheck.extractHeadings document.
Proof.
  intros page' h1s Hseo. subst page' h1s. unfold SeoCheck.headingPart.
  rewrite Hseo. cbn [JS.truthy_flag negb].
  pose proof (headingTexts_count document "h1") as Hcount.
  set (p1 := Check.set_headings page (SeoCheck.extractHeadings document)).
  assert (Hh1 : Check.h1 (Check.headings p1) = SeoCheck.headingTexts document "h1")
    by reflexivity.
  assert (Hskip : forall (m : string) (base added : list string),
            (forall x, In x added -> exists rest, x = "SEO: Heading " +++ rest) ->
            (forall rest, m <> "SEO: Heading " +++ rest) ->
            In m (base ++ added) <-> In m base).
  { intros m base added Hshape Hm. rewrite in_app_iff. split; [| now left].
    intros [H | H]; [assumption |]. destruct (Hshape _ H) as [rest ->].
    now destruct (Hm rest). }
  destruct (Dom.querySelectorAll document [[Dom.Tag "h1"]]) as [| first others] eqn:Eh.
  - (* no h1 element *)
    cbn [Check.push_error Check.headings]. fold p1. rewrite Hh1.
    destruct (SeoCheck.headingTexts document "h1"); [| discriminate Hcount].
    cbn [List.length Nat.ltb Nat.leb].
    destruct (headingLoop_adds (SeoCheck.extractHeadings document)
                (Check.push_error p1 "SEO: Missing h1") eq_refl)
      as [added [He [Hh Hshape]]].
    rewrite He, Hh. cbn [Check.push_error Check.errors p1 Check.set_headings].
    rewrite !(Hskip _ _ _ Hshape) by (intros rest; discriminate).
    rewrite !in_app_iff. simpl.
    split; [| split; [| split]].
    + intros [H | [H | []]]; [assumption | discriminate].
    + split; [intros _; now right | intros _; right; now left].
    + split; [intros [H | [H | []]]; [now left | discriminate] |].
      intros [H | H]; [now left | lia].
    + reflexivity.
  - (* at least one h1 element *)
    assert (Hne : SeoCheck.allEmpty (Check.headings p1) = false).
    { unfold SeoCheck.allEmpty. cbn [forallb]. rewrite Hh1.
      destruct (SeoCheck.headingTexts document "h1"); [discriminate Hcount | reflexivity]. }
    rewrite Hne, Hh1, Hcount.
    destruct (1 <? List.length (first :: others))%nat eqn:Em.
    + destruct (headingLoop_adds (SeoCheck.extractHeadings document)
                  (Check.push_error p1 "SEO: Multiple h1") eq_refl)
        as [added [He [Hh Hshape]]].
      rewrite He, Hh. cbn [Check.push_error Check.errors p1 Check.set_headings].
      apply Nat.ltb_lt in Em.
      rewrite !(Hskip _ _ _ Hshape) by (intros rest; discriminate).
      rewrite !in_app_iff. simpl.
      split; [| split; [| split]].
      * intros [H | [H | []]]; [assumption | discriminate].
      * split; [intros [H | [H | []]]; [now left | discriminate] |].
        intros [H | H]; [now left | discriminate].
      * split; [intros _; right; simpl in Em; lia | intros _; right; now left].
      * reflexivity.
    + destruct (headingLoop_adds (SeoCheck.extractHeadings document) p1 eq_refl)
        as [added [He [Hh Hshape]]].
      rewrite He, Hh. cbn [Check.errors p1 Check.set_headings].
      apply Nat.ltb_ge in Em.
      rewrite !(Hskip _ _ _ Hshape) by (intros rest; discriminate).
      split; [| split; [| split]].
      * tauto.
      * split; [now left |]. intros [H | H]; [assumption | discriminate].
      * split; [now left |]. intros [H | H]; [assumption | simpl in Em, H; lia].
      * reflexivity.
Qed.

Lemma seo_first_level_findings_witness :
  ~ In "SEO: Missing h1"
       (Check.errors (SeoCheck.headingPart Samples.allChecks Samples.h1h3Document
                                           Samples.blankPage)).
Proof.
  intros H.
  apply (proj1 (proj1 (proj2 (seo_first_level_findings Samples.allChecks
                                Samples.h1h3Document Samples.blankPage eq_refl)))) in H.
  destruct H as [[] | H]. discriminate H.
Defined.

(** ** The title width and the length of first-level headings *)

Lemma sizeOf_In (table : list (ascii * Q)) (char : ascii) (size : Q) :
  SeoRules.sizeOf table char = Some size -> In size (map snd table).
Proof.
  induction table as [| [c w] table IH]; simpl; [discriminate |].
  destruct (Ascii.eqb c char); [intros [= ->]; now left | intros H; right; now apply IH].
Qed.

(** Every character is at least as wide as the space and at most as wide
    as the capital M. *)
Lemma width_bounds (char : ascii) :
  (319 # 64 <= SeoRules.width char)%Q /\ (SeoRules.width char <= 561 # 32)%Q.
Proof.
  assert (Htable : forallb (fun w => Qle_bool (319 # 64) w && Qle_bool w (561 # 32))
                           (map snd SeoRules.sizes) = true) by (vm_compute; reflexivity).
  assert (Haverage : Qle_bool (319 # 64) SeoRules.averageSize
                     && Qle_bool SeoRules.averageSize (561 # 32) = true)
    by (vm_compute; reflexivity).
  unfold SeoRules.width. destruct (SeoRules.sizeOf SeoRules.sizes char) as [w |] eqn:E.
  - apply sizeOf_In in E. rewrite forallb_forall in Htable.
    specialize (Htable w E). apply andb_true_iff in Htable.
    destruct Htable as [H1 H2]. split; now apply Qle_bool_iff.
  - apply andb_true_iff in Haverage. destruct Haverage as [H1 H2].
    split; now apply Qle_bool_iff.
Qed.

Lemma width_sum_bounds (l : list ascii) (acc : Q) :
  (acc + inject_Z (Z.of_nat (List.length l)) * (319 # 64)
   <= fold_left (fun total char => total + SeoRules.width char) l acc)%Q
  /\ (fold_left (fun total char => total + SeoRules.width char) l acc
      <= acc + inject_Z (Z.of_nat (List.length l)) * (561 # 32))%Q.
Proof.
  revert acc. induction l as [| c l IH]; intros acc.
  - cbn [fold_left List.length Z.of_nat]. change (inject_Z 0) with 0%Q. split; lra.
  - cbn [fold_left List.length]. rewrite Nat2Z.inj_succ, <- Z.add_1_r, inject_Z_plus.
    change (inject_Z 1) with 1%Q.
    destruct (IH (acc + SeoRules.width c)%Q) as [Hlo Hhi].
    destruct (width_bounds c) as [Wlo Whi]. split; lra.
Qed.

Lemma chars_length (s : string) : List.length (list_ascii_of_string s) = String.length s.
Proof. induction s as [| c s IH]; simpl; [reflexivity | now rewrite IH]. Qed.

(** A title of at most 31 characters is never reported as too long and a
    title of at least 111 characters always is; between the two it
    depends on the characters: 32 capital M overflow, 110 spaces do not. *)
Theorem overflowTitle_by_length (title : string) :
  ((String.length title <= 31)%nat -> SeoRules.overflowTitle title = false)
  /\ ((111 <= String.length title)%nat -> SeoRules.overflowTitle title = true)
  /\ SeoRules.overflowTitle "MMMMMMMMMMMMMMMMMMMMMMMMMMMMMMMM" = true
  /\ SeoRules.overflowTitle
       (String.concat EmptyString (repeat " " 110)) = false.
Proof.
  unfold SeoRules.overflowTitle at 1 2, SeoRules.titleWidth.
  destruct (width_sum_bounds (list_ascii_of_string title) 0) as [Hlo Hhi].
  rewrite chars_length in Hlo, Hhi.
  split; [| split; [| split]].
  - intros Hn. apply Qlt_bool_false_iff.
    assert (Hq : (inject_Z (Z.of_nat (String.length title)) <= 31)%Q).
    { change 31%Q with (inject_Z 31). rewrite <- Zle_Qle. lia. }
    lra.
  - intros Hn. apply Qlt_bool_iff.
    assert (Hq : (111 <= inject_Z (Z.of_nat (String.length title)))%Q).
    { change 111%Q with (inject_Z 111). rewrite <- Zle_Qle. lia. }
    lra.
  - vm_compute. reflexivity.
  - vm_compute. reflexivity.
Qed.

Lemma overflowTitle_by_length_witness :
  SeoRules.overflowTitle "Home" = false
  /\ SeoRules.overflowTitle (String.concat EmptyString (repeat "i" 111)) = true.
Proof.
  split.
  - apply (proj1 (overflowTitle_by_length "Home")). simpl. lia.
  - apply (proj1 (proj2 (overflowTitle_by_length
                           (String.concat EmptyString (repeat "i" 111))))).
    vm_compute. lia.
Defined.

Lemma split_length (s : string) (sep : ascii) :
  List.length (SeoRules.split s sep)
  = S (count_occ Ascii.ascii_dec (list_ascii_of_string s) sep).
Proof.
  induction s as [| c s IH]; [reflexivity |].
  cbn [SeoRules.split list_ascii_of_string count_occ].
  destruct (Ascii.eqb c sep) eqn:E.
  - apply Ascii.eqb_eq in E. subst c.
    destruct (Ascii.ascii_dec sep sep); [| contradiction]. simpl. now rewrite IH.
  - apply Ascii.eqb_neq in E.
    destruct (Ascii.ascii_dec c sep); [contradiction |].
    destruct (SeoRules.split s sep) as [| piece pieces]; [discriminate IH |].
    simpl in *. exact IH.
Qed.

(** The warning about a long first-level heading counts space characters,
    not words: a heading is reported exactly when it holds at least twelve
    spaces, one warning per such heading, in order; errors are untouched. *)
Theorem h1_too_long_counts_spaces (page : Check.PageType) :
  Check.warnings (SeoRules.h1LengthRule page)
  = Check.warnings page
      ++ map (fun heading => "SEO: H1 too long: " +++ heading)
             (filter (fun heading =>
                        (12 <=? count_occ Ascii.ascii_dec
                                          (list_ascii_of_string heading) " "%char)%nat)
                     (Check.h1 (Check.headings page)))
  /\ Check.errors (SeoRules.h1LengthRule page) = Check.errors page.
Proof.
  unfold SeoRules.h1LengthRule. generalize (Check.h1 (Check.headings page)). intros l.
  revert page. induction l as [| heading l IH]; intros page.
  - simpl. now rewrite app_nil_r.
  - cbn [fold_left filter]. rewrite split_length.
    change (12 <? S ?n)%nat with (12 <=? n)%nat.
    destruct (12 <=? count_occ Ascii.ascii_dec (list_ascii_of_string heading) " "%char)%nat.
    + destruct (IH (Check.push_warning page ("SEO: H1 too long: " +++ heading)))
        as [Hw He].
      rewrite Hw, He. cbn [Check.push_warning Check.warnings Check.errors map].
      now rewrite <- app_assoc.
    + apply IH.
Qed.

(** ** The social media check *)

Lemma requireMeta_errors (document : Dom.Document) (attr value : string)
      (page : Check.PageType) :
  Check.errors (SocialMedia.requireMeta document attr value page)
  = Check.errors page
      ++ (if hasMeta document (attr, value) then []
          else ["SEO: Missing " +++ value +++ " tag"])
  /\ Check.warnings (SocialMedia.requireMeta document attr value page)
     = Check.warnings page.
Proof.
  unfold SocialMedia.requireMeta, hasMeta. cbn [fst snd].
  destruct (Dom.querySelectorAll document _); simpl.
  - split; reflexivity.
  - now rewrite app_nil_r.
Qed.

Lemma all_present_no_findings (document : Dom.Document) (l : list (string * string)) :
  (forall tag, In tag l -> hasMeta document tag = true) ->
  List.concat (map (fun tag => if hasMeta document tag then []
                               else ["SEO: Missing " +++ snd tag +++ " tag"]) l) = [].
Proof.
  induction l as [| tag l IH]; intros H; [reflexivity |].
  cbn [map List.concat]. rewrite (H tag) by now left. simpl.
  apply IH. intros t Ht. apply H. now right.
Qed.

(** With the option set, the social media check pushes one error for each
    of the eight tags the document lacks, and nothing else: it is silent
    exactly when all eight are there, and never adds more than eight
    errors or any warning. *)
Theorem social_media_check_counts_missing_tags
        (options : Check.CheckOptions) (document : Dom.Document) (page : Check.PageType) :
  Check.socialMedia options = Some true ->
  let page' := SocialMedia.check options document page in
  List.length (Check.errors page')
  = (List.length (Check.errors page)
     + List.length (filter (fun tag => negb (hasMeta document tag)) socialTags))%nat
  /\ (Check.errors page' = Check.errors page
      <-> forall tag, In tag socialTags -> hasMeta document tag = true)
  /\ (List.length (Check.errors page') <= List.length (Check.errors page) + 8)%nat
  /\ Check.warnings page' = Check.warnings page.
Proof.
  intros Hopt page'. subst page'. unfold SocialMedia.check. rewrite Hopt.
  cbn [JS.truthy_flag negb].
  assert (Herr : Check.errors
                   (SocialMedia.requireMeta document "name" "twitter:image"
                      (SocialMedia.requireMeta document "name" "twitter:description"
                         (SocialMedia.requireMeta document "name" "twitter:title"
                            (SocialMedia.requireMeta document "property" "og:type"
                               (SocialMedia.requireMeta document "property" "og:url"
                                  (SocialMedia.requireMeta document "property" "og:image"
                                     (SocialMedia.requireMeta document "property"
                                        "og:description"
                                        (SocialMedia.requireMeta document "property"
                                           "og:title" page))))))))
                 = Check.errors page
                     ++ List.concat
                          (map (fun tag => if hasMeta document tag then []
                                           else ["SEO: Missing " +++ snd tag +++ " tag"])
                               socialTags)).
  { repeat rewrite (proj1 (requireMeta_errors _ _ _ _)).
    unfold socialTags. cbn [map List.concat snd]. rewrite app_nil_r.
    now rewrite <- !app_assoc. }
  rewrite Herr. clear Herr.
  assert (Hlen : List.length
                   (List.concat
                      (map (fun tag => if hasMeta document tag then []
                                       else ["SEO: Missing " +++ snd tag +++ " tag"])
                           socialTags))
                 = List.length (filter (fun tag => negb (hasMeta document tag)) socialTags)).
  { generalize socialTags. intros l. induction l as [| tag l IH]; [reflexivity |].
    cbn [map List.concat filter]. rewrite length_app, IH.
    now destruct (hasMeta document tag). }
  split; [| split; [| split]].
  - now rewrite length_app, Hlen.
  - split.
    + intros H. rewrite <- (app_nil_r (Check.errors page)) in H at 2.
      apply app_inv_head in H.
      assert (Hnone : filter (fun tag => negb (hasMeta document tag)) socialTags = []).
      { apply length_zero_iff_nil. rewrite <- Hlen, H. reflexivity. }
      intros tag Htag. destruct (hasMeta document tag) eqn:E; [reflexivity |].
      assert (Hin : In tag (filter (fun t => negb (hasMeta document t)) socialTags)).
      { apply filter_In. split; [assumption | now rewrite E]. }
      rewrite Hnone in Hin. destruct Hin.
    + intros H. rewrite <- (app_nil_r (Check.errors page)) at 2. f_equal.
      now apply all_present_no_findings.
  - rewrite length_app, Hlen.
    pose proof (filter_length_le (fun tag => negb (hasMeta document tag)) socialTags) as Hle.
    change (List.length socialTags) with 8%nat in Hle. lia.
  - repeat rewrite (proj2 (requireMeta_errors _ _ _ _)). reflexivity.
Qed.

Lemma social_media_check_counts_missing_tags_witness :
  List.length (Check.errors (SocialMedia.check
                               {| Check.seo := None; Check.accessibility := None;
                                  Check.verbose := None; Check.socialMedia := Some true |}
                               Samples.emptyDocument Samples.blankPage)) = 8%nat.
Proof.
  exact (proj1 (social_media_check_counts_missing_tags
                  {| Check.seo := None; Check.accessibility := None;
                     Check.verbose := None; Check.socialMedia := Some true |}
                  Samples.emptyDocument Samples.blankPage eq_refl)).
Defined.

(** ** The ARIA role check *)

Lemma get_In {V : Type} (o : JS.Dict V) (k : string) (v : V) :
  JS.get o k = Some v -> In k (map fst o).
Proof.
  induction o as [| [k' v'] o IH]; simpl; [discriminate |].
  destruct (String.eqb k' k) eqn:E.
  - apply String.eqb_eq in E. now left.
  - intros H. right. now apply IH.
Qed.

(** Every role that has required attributes is a role of the vocabulary. *)
Lemma required_roles_are_valid (role : string) (attrs : list string) :
  JS.get AriaRoles.ariaRequirements role = Some attrs ->
  AriaRoles.isValidRole role = true.
Proof.
  intros H. apply get_In in H.
  assert (Hall : forallb AriaRoles.isValidRole (map fst AriaRoles.ariaRequirements) = true)
    by (vm_compute; reflexivity).
  rewrite forallb_forall in Hall. now apply Hall.
Qed.

(** An inherited name is a non-empty text and is no key of the table. *)
Lemma inherited_role (role : string) :
  In role AriaRoles.inheritedKeys <->
  AriaRoles.requirementOf role = AriaRoles.Inherited.
Proof.
  split.
  - intros H.
    assert (Hall : forallb (fun k => match AriaRoles.requirementOf k with
                                     | AriaRoles.Inherited => true
                                     | _ => false
                                     end) AriaRoles.inheritedKeys = true)
      by (vm_compute; reflexivity).
    rewrite forallb_forall in Hall. specialize (Hall role H).
    now destruct (AriaRoles.requirementOf role).
  - unfold AriaRoles.requirementOf.
    destruct (JS.get AriaRoles.ariaRequirements role); [discriminate |].
    destruct (existsb (String.eqb role) AriaRoles.inheritedKeys) eqn:E; [| discriminate].
    intros _. now apply existsb_eqb_In in E.
Qed.

Lemma inherited_is_truthy (role : string) :
  In role AriaRoles.inheritedKeys -> JS.truthy role = true.
Proof.
  intros H.
  assert (Hall : forallb JS.truthy AriaRoles.inheritedKeys = true)
    by (vm_compute; reflexivity).
  rewrite forallb_forall in Hall. now apply Hall.
Qed.

Section Aria.
Variable outerHTML : Dom.Node -> string.

Lemma requiredAttributes_throws_iff (page : Check.PageType) (element : Dom.Located) :
  AriaRoles.requiredAttributes outerHTML page element = None
  <-> exists role, Dom.getAttribute (Dom.self element) "role" = Some role
                   /\ In role AriaRoles.inheritedKeys.
Proof.
  unfold AriaRoles.requiredAttributes.
  destruct (Dom.getAttribute (Dom.self element) "role") as [role |].
  - split.
    + intros H. exists role. split; [reflexivity |]. apply inherited_role.
      destruct (JS.truthy role); [| discriminate].
      now destruct (AriaRoles.requirementOf role).
    + intros [r [[= <-] Hin]]. rewrite (inherited_is_truthy _ Hin).
      apply inherited_role in Hin. now rewrite Hin.
  - split; [discriminate | intros [r [H _]]; discriminate].
Qed.

Lemma requiredAll_throws_iff (elements : list Dom.Located) (page : Check.PageType) :
  AriaRoles.requiredAll outerHTML elements page = None
  <-> exists element role,
        In element elements
        /\ Dom.getAttribute (Dom.self element) "role" = Some role
        /\ In role AriaRoles.inheritedKeys.
Proof.
  revert page. induction elements as [| e elements IH]; intros page; simpl.
  - split; [discriminate | intros [x [r [[] _]]]].
  - destruct (AriaRoles.requiredAttributes outerHTML page e) as [page' |] eqn:E.
    + rewrite IH. split.
      * intros [x [r [Hx H]]]. exists x, r. split; [now right | assumption].
      * intros [x [r [[<- | Hx] [Ha Hr]]]].
        -- assert (Hn : AriaRoles.requiredAttributes outerHTML page e = None).
           { apply requiredAttributes_throws_iff. now exists r. }
           congruence.
        -- exists x, r. now split.
    + split; [| reflexivity]. intros _.
      apply requiredAttributes_throws_iff in E. destruct E as [r [Ha Hr]].
      exists e, r. split; [now left | now split].
Qed.

(** With the option set, the ARIA role check throws exactly when some
    element of the document has a role attribute that names a property
    every object inherits, such as constructor or toString; for every
    other document it returns a page. *)
Theorem aria_check_throws_iff_inherited_role
        (options : Check.CheckOptions) (document : Dom.Document) (page : Check.PageType) :
  Check.accessibility options = Some true ->
  AriaRoles.check outerHTML options document page = None
  <-> exists element role,
        In element (Dom.querySelectorAll document [[Dom.HasAttr "role"]])
        /\ Dom.getAttribute (Dom.self element) "role" = Some role
        /\ In role AriaRoles.inheritedKeys.
Proof.
  intros Hopt. unfold AriaRoles.check. rewrite Hopt. cbn [JS.truthy_flag negb].
  rewrite <- (requiredAll_throws_iff (Dom.querySelectorAll document [[Dom.HasAttr "role"]])
                (fold_left (AriaRoles.invalidRole outerHTML)
                           (Dom.querySelectorAll document [[Dom.HasAttr "role"]]) page)).
  destruct (AriaRoles.requiredAll outerHTML _ _); split; (discriminate || reflexivity).
Qed.

(** An element whose role is reported as invalid is never also reported
    for a missing required attribute: for such an element the second
    loop changes nothing, or throws. *)
Theorem aria_invalid_role_has_no_requirements
        (page current : Check.PageType) (element : Dom.Located) :
  Check.errors (AriaRoles.invalidRole outerHTML page element) <> Check.errors page ->
  AriaRoles.requiredAttributes outerHTML current element = Some current
  \/ AriaRoles.requiredAttributes outerHTML current element = None.
Proof.
  unfold AriaRoles.invalidRole, AriaRoles.requiredAttributes.
  destruct (Dom.getAttribute (Dom.self element) "role") as [role |];
    [| intros H; now destruct H].
  destruct (JS.truthy role); [| intros H; now destruct H].
  cbn [andb]. destruct (AriaRoles.isValidRole role) eqn:Ev; [intros H; now destruct H |].
  intros _. unfold AriaRoles.requirementOf.
  destruct (JS.get AriaRoles.ariaRequirements role) as [attrs |] eqn:Eg.
  - apply required_roles_are_valid in Eg. congruence.
  - destruct (existsb _ AriaRoles.inheritedKeys); [now right | now left].
Qed.
End Aria.

(** ** No check removes or rewrites a finding *)

Lemma extends_refl (page : Check.PageType) : extends page page.
Proof.
  unfold extends. repeat split; try reflexivity; exists []; now rewrite app_nil_r.
Qed.

Lemma extends_trans (a b c : Check.PageType) : extends a b -> extends b c -> extends a c.
Proof.
  intros [P1 [T1 [L1 [[e1 E1] [w1 W1]]]]] [P2 [T2 [L2 [[e2 E2] [w2 W2]]]]].
  unfold extends. repeat split; try congruence.
  - exists (e1 ++ e2). rewrite E2, E1. now rewrite app_assoc.
  - exists (w1 ++ w2). rewrite W2, W1. now rewrite app_assoc.
Qed.

Lemma extends_push_error (page : Check.PageType) (s : string) :
  extends page (Check.push_error page s).
Proof.
  unfold extends. simpl. repeat split; [now exists [s] | exists []; now rewrite app_nil_r].
Qed.

Lemma extends_push_warning (page : Check.PageType) (s : string) :
  extends page (Check.push_warning page s).
Proof.
  unfold extends. simpl. repeat split; [exists []; now rewrite app_nil_r | now exists [s]].
Qed.

Lemma extends_set_headings (page : Check.PageType) (hs : Check.Headings) :
  extends page (Check.set_headings page hs).
Proof.
  unfold extends. simpl. repeat split; exists []; now rewrite app_nil_r.
Qed.

Lemma extends_set_performanceScore (page : Check.PageType) (s : string) :
  extends page (Check.set_performanceScore page s).
Proof.
  unfold extends. simpl. repeat split; exists []; now rewrite app_nil_r.
Qed.

Lemma extends_fold {A : Type} (f : Check.PageType -> A -> Check.PageType) (l : list A) :
  (forall p x, extends p (f p x)) ->
  forall page, extends page (fold_left f l page).
Proof.
  intros H. induction l as [| x l IH]; intros page; simpl.
  - apply extends_refl.
  - eapply extends_trans; [apply H | apply IH].
Qed.

Create HintDb appending.

#[local] Hint Resolve extends_refl extends_push_error extends_push_warning
  extends_set_headings extends_set_performanceScore : appending.

Lemma extends_visit (page : Check.PageType) (i : Z) :
  extends page (HeadingHierarchy.visit page i).
Proof.
  unfold HeadingHierarchy.visit.
  repeat match goal with
         | |- context [if ?c then _ else _] => destruct c
         end;
    eauto using extends_trans with appending.
Qed.

Lemma extends_headingLoop (page : Check.PageType) : extends page (SeoCheck.headingLoop page).
Proof.
  unfold SeoCheck.headingLoop. apply extends_fold. intros p i.
  unfold SeoCheck.compareWithPrevious. destruct (_ && _); auto with appending.
Qed.

Lemma extends_headingPart (options : Check.CheckOptions) (document : Dom.Document)
      (page : Check.PageType) :
  extends page (SeoCheck.headingPart options document page).
Proof.
  unfold SeoCheck.headingPart.
  destruct (negb (JS.truthy_flag (Check.seo options))); [apply extends_refl |].
  eapply extends_trans; [| apply extends_headingLoop].
  eapply extends_trans; [apply extends_set_headings |].
  set (p1 := Check.set_headings page (SeoCheck.extractHeadings document)).
  assert (H2 : extends p1 match Dom.querySelectorAll document [[Dom.Tag "h1"]] with
                          | [] => Check.push_error p1 "SEO: Missing h1"
                          | _ :: _ =>
                              if SeoCheck.allEmpty (Check.headings p1)
                              then Check.push_error p1 "SEO: No headings"
                              else p1
                          end).
  { destruct (Dom.querySelectorAll document [[Dom.Tag "h1"]]); [auto with appending |].
    destruct (SeoCheck.allEmpty (Check.headings p1)); auto with appending. }
  eapply extends_trans; [exact H2 |].
  destruct (1 <? _)%nat; auto with appending.
Qed.

Section Appending.
Variable outerHTML : Dom.Node -> string.
Variable probe : string -> string -> SeoRules.Probe.

Lemma extends_report (prefix : string)
      (push : Check.PageType -> string -> Check.PageType)
      (found : list Dom.Located) (page : Check.PageType) :
  (forall p s, extends p (push p s)) ->
  extends page (Accessibility.report outerHTML prefix push found page).
Proof. intros H. unfold Accessibility.report. apply extends_fold. intros p x. apply H. Qed.

Lemma extends_images (images : list string) (acc : Check.PageType * list string) :
  extends (fst acc) (fst (fold_left (SeoRules.imageStep probe) images acc)).
Proof.
  revert acc. induction images as [| image images IH]; intros acc; simpl.
  - apply extends_refl.
  - eapply extends_trans; [| apply IH].
    unfold SeoRules.imageStep. destruct (probe image _) as [u ok ct | u message]; cbn [fst].
    + destruct (negb ok); [auto with appending |].
      destruct (negb _); auto with appending.
    + auto with appending.
Qed.

Lemma extends_seo_rules (options : Check.CheckOptions) (document : Dom.Document)
      (page : Check.PageType) :
  extends page (fst (SeoRules.check outerHTML probe options document page)).
Proof.
  unfold SeoRules.check.
  destruct (negb (JS.truthy_flag (Check.seo options))); [apply extends_refl |].
  eapply extends_trans; [| apply extends_images]. cbn [fst].
  eapply extends_trans; [apply extends_headingPart |].
  eapply extends_trans;
    [| unfold SeoRules.hrefRule; apply extends_fold; intros; apply extends_push_error].
  eapply extends_trans;
    [| unfold SeoRules.h1LengthRule; apply extends_fold; intros p h;
       destruct (12 <? _)%nat; auto with appending].
  eapply extends_trans;
    [| unfold SeoRules.descriptionRule;
       destruct (Dom.querySelectorAll document _); auto with appending].
  unfold SeoRules.titleRule. destruct (negb _); [auto with appending |].
  destruct (SeoRules.overflowTitle _); auto with appending.
Qed.

Lemma extends_accessibility (options : Check.CheckOptions) (document : Dom.Document)
      (page : Check.PageType) :
  extends page (Accessibility.check outerHTML options document page).
Proof.
  unfold Accessibility.check.
  destruct (negb (JS.truthy_flag (Check.accessibility options))); [apply extends_refl |].
  repeat (eapply extends_trans;
          [| apply extends_report; auto using extends_push_error, extends_push_warning]).
  apply extends_refl.
Qed.

Lemma extends_required (elements : list Dom.Located) (page after : Check.PageType) :
  AriaRoles.requiredAll outerHTML elements page = Some after -> extends page after.
Proof.
  revert page. induction elements as [| e elements IH]; intros page; simpl.
  - intros [= <-]. apply extends_refl.
  - destruct (AriaRoles.requiredAttributes outerHTML page e) as [page' |] eqn:E;
      [| discriminate].
    intros H. eapply extends_trans; [| apply (IH _ H)].
    unfold AriaRoles.requiredAttributes in E.
    destruct (Dom.getAttribute (Dom.self e) "role") as [role |];
      [| injection E as <-; apply extends_refl].
    destruct (JS.truthy role); [| injection E as <-; apply extends_refl].
    destruct (AriaRoles.requirementOf role) as [attrs | |];
      [| discriminate | injection E as <-; apply extends_refl].
    injection E as <-. unfold AriaRoles.missingAttributes. apply extends_fold.
    intros p a. destruct (negb _); auto with appending.
Qed.

(** Every check leaves the address, the title and the loading time of the
    page as they are and only appends to its errors and warnings: what an
    earlier check found is still there, in place, after a later one. *)
Theorem checks_only_append
        (options : Check.CheckOptions) (document : Dom.Document) (page : Check.PageType) :
  extends page (HeadingHierarchy.check options document page)
  /\ extends page (fst (SeoRules.check outerHTML probe options document page))
  /\ extends page (Performance.check options document page)
  /\ extends page (Accessibility.check outerHTML options document page)
  /\ extends page (SocialMedia.check options document page)
  /\ (forall after, AriaRoles.check outerHTML options document page = Some after ->
                    extends page after).
Proof.
  split; [| split; [| split; [| split; [| split]]]].
  - unfold HeadingHierarchy.check. destruct (negb _); [apply extends_refl |].
    apply extends_fold. intros p i. apply extends_visit.
  - apply extends_seo_rules.
  - unfold Performance.check. destruct (Check.loadingTime page) as [t |];
      [| apply extends_refl].
    destruct (Qeq_bool t 0); [apply extends_refl |].
    destruct (JS.Qlt_bool 4000 t); destruct (JS.Qlt_bool 2500 t);
      destruct (JS.Qlt_bool t 1000); destruct (JS.Qlt_bool t 2500);
      destruct (JS.Qlt_bool t 4000);
      (eapply extends_trans; [| apply extends_set_performanceScore]);
      auto with appending.
  - apply extends_accessibility.
  - unfold SocialMedia.check. destruct (negb _); [apply extends_refl |].
    repeat (eapply extends_trans;
            [| unfold SocialMedia.requireMeta at 1;
               destruct (Dom.querySelectorAll document _); auto with appending]).
    apply extends_refl.
  - intros after. unfold AriaRoles.check. destruct (negb _); [intros [= <-]; apply extends_refl |].
    destruct (AriaRoles.requiredAll outerHTML _ _) as [page' |] eqn:E; [| discriminate].
    intros [= <-].
    eapply extends_trans;
      [| unfold AriaRoles.buttonLike; apply extends_fold; intros; apply extends_push_warning].
    eapply extends_trans; [| apply (extends_required _ _ _ E)].
    apply extends_fold. intros p e. unfold AriaRoles.invalidRole.
    destruct (Dom.getAttribute (Dom.self e) "role"); [| apply extends_refl].
    destruct (_ && _); auto with appending.
Qed.
End Appending.

(** ** Invariants of the sitemap crawl *)

Lemma get_set_other {V : Type} (o : JS.Dict V) (k k' : string) (v : V) :
  k' <> k -> JS.get (JS.set o k v) k' = JS.get o k'.
Proof.
  intros Hne. induction o as [| [k0 v0] o IH]; simpl.
  - destruct (String.eqb k k') eqn:E; [apply String.eqb_eq in E; congruence | reflexivity].
  - destruct (String.eqb k0 k) eqn:E; simpl.
    + apply String.eqb_eq in E. subst k0.
      destruct (String.eqb k k') eqn:E'; [apply String.eqb_eq in E'; congruence | reflexivity].
    + destruct (String.eqb k0 k'); [reflexivity | exact IH].
Qed.

Lemma set_keys {V : Type} (o : JS.Dict V) (k : string) (v : V) :
  map fst (JS.set o k v) = if JS.has_key o k then map fst o else map fst o ++ [k].
Proof.
  unfold JS.has_key. induction o as [| [k0 v0] o IH]; simpl; [reflexivity |].
  destruct (String.eqb k0 k) eqn:E; simpl; [reflexivity |].
  rewrite IH. now destruct (JS.get o k).
Qed.

Lemma has_key_In {V : Type} (o : JS.Dict V) (k : string) :
  JS.has_key o k = true <-> In k (map fst o).
Proof.
  unfold JS.has_key. induction o as [| [k0 v0] o IH]; simpl.
  - split; [discriminate | intros []].
  - destruct (String.eqb k0 k) eqn:E.
    + apply String.eqb_eq in E. split; [now left | reflexivity].
    + apply String.eqb_neq in E. rewrite IH. split; [now right | intros [H | H]; congruence].
Qed.

Lemma set_keeps_keys_distinct {V : Type} (o : JS.Dict V) (k : string) (v : V) :
  NoDup (map fst o) -> NoDup (map fst (JS.set o k v)).
Proof.
  intros H. rewrite set_keys. destruct (JS.has_key o k) eqn:E; [assumption |].
  apply NoDup_app; [assumption | constructor; [intros [] | constructor] |].
  intros x Hx [<- | []]. apply has_key_In in Hx. congruence.
Qed.

Lemma set_entries {V : Type} (o : JS.Dict V) (k k' : string) (v v' : V) :
  In (k', v') (JS.set o k v) -> (k' = k /\ v' = v) \/ In (k', v') o.
Proof.
  induction o as [| [k0 v0] o IH]; simpl.
  - intros [[= <- <-] | []]. now left.
  - destruct (String.eqb k0 k) eqn:E; simpl.
    + apply String.eqb_eq in E. subst k0.
      intros [[= <- <-] | H]; [now left | right; now right].
    + intros [H | H]; [right; now left |].
      destruct (IH H) as [Hl | Hr]; [now left | right; now right].
Qed.

Lemma fold_add_subset {A : Type} (same : A -> A -> bool) (xs seen : list A) (y : A) :
  In y (fold_left (JS.add same) xs seen) -> In y seen \/ In y xs.
Proof.
  revert seen. induction xs as [| x xs IH]; simpl; intros seen H; [now left |].
  destruct (IH _ H) as [Hs | Hx]; [| right; now right].
  unfold JS.add in Hs. destruct (JS.has same seen x); [now left |].
  apply in_app_iff in Hs. destruct Hs as [Hs | [<- | []]]; [now left | right; now left].
Qed.

Lemma Array_from_Set_subset {A : Type} (same : A -> A -> bool) (xs : list A) (y : A) :
  In y (JS.Array_from_Set same xs) -> In y xs.
Proof.
  intros H. apply fold_add_subset in H. destruct H as [[] | H]. exact H.
Qed.

Section SitemapBatch.
Variable newURL : string -> string -> URL.
Variable fetch : string -> Sitemap.Response.
Variable baseUrl : string.

(** A property of the state and a property of the candidates returned. *)
Variable I : Sitemap.State -> Prop.
Variable R : Sitemap.Ref -> Prop.

(** The batch and the state it starts from. *)
Variable batch : list Sitemap.Ref.
Variable st0 : Sitemap.State.

Hypothesis settle_keeps :
  forall r st,
    In r batch ->
    Sitemap.skipped (Sitemap.pages st0) (Sitemap.target r) = false ->
    I st ->
    I (snd (Sitemap.settle newURL fetch baseUrl (Sitemap.target r) st))
    /\ Forall R (fst (Sitemap.settle newURL fetch baseUrl (Sitemap.target r) st)).

(** The workers that settle keep [I], and everything they return has [R]. *)
Lemma settled_batch_keeps (order : list nat) (st1 : Sitemap.State) :
  I st1 ->
  let live := map (fun r => negb (Sitemap.skipped (Sitemap.pages st0) (Sitemap.target r)))
                  batch in
  let done := fold_left (Sitemap.settleWorker newURL fetch baseUrl batch live)
                        order (st1, []) in
  I (fst done)
  /\ Forall (Forall R) (map (Sitemap.resultOf (snd done)) (seq 0 (List.length batch))).
Proof.
  intros H1 live done.
  assert (Hfold : forall order acc,
             I (fst acc) /\ Forall (fun ir => Forall R (snd ir)) (snd acc) ->
             let out := fold_left (Sitemap.settleWorker newURL fetch baseUrl batch live)
                                  order acc in
             I (fst out) /\ Forall (fun ir => Forall R (snd ir)) (snd out)).
  { clear order done. intros order. induction order as [| i order IH]; intros acc Hacc.
    - exact Hacc.
    - cbn [fold_left]. apply IH. unfold Sitemap.settleWorker.
      destruct (nth_error batch i) as [r |] eqn:Eb; [| exact Hacc].
      destruct (nth_error live i) as [[|] |] eqn:El; try exact Hacc.
      assert (Hlive : Sitemap.skipped (Sitemap.pages st0) (Sitemap.target r) = false).
      { unfold live in El. rewrite nth_error_map, Eb in El. simpl in El.
        injection El as El. now apply negb_true_iff in El. }
      destruct Hacc as [Hi Hr].
      destruct (settle_keeps r (fst acc) (nth_error_In _ _ Eb) Hlive Hi) as [Hi' Hr'].
      destruct (Sitemap.settle newURL fetch baseUrl (Sitemap.target r) (fst acc))
        as [found st']. cbn [fst snd] in *. split; [assumption |].
      constructor; assumption. }
  destruct (Hfold order (st1, []) (conj H1 (Forall_nil _))) as [Hi Hr].
  split; [exact Hi |].
  apply Forall_forall. intros found Hfound. apply in_map_iff in Hfound.
  destruct Hfound as [i [<- _]]. unfold Sitemap.resultOf.
  destruct (find _ (snd done)) as [ir |] eqn:Ef; [| constructor].
  apply find_some in Ef. destruct Ef as [Hin _].
  rewrite Forall_forall in Hr. now apply Hr.
Qed.

Hypothesis request_keeps : forall st location, I st -> I (Sitemap.request st location).

Lemma issued_batch_keeps (l : list Sitemap.Ref) (st : Sitemap.State) :
  I st ->
  I (fold_left (fun s r =>
                  if Sitemap.skipped (Sitemap.pages st0) (Sitemap.target r) then s
                  else Sitemap.request s (href (newURL (Sitemap.path (Sitemap.target r))
                                                       baseUrl)))
               l st).
Proof.
  revert st. induction l as [| r l IH]; intros st H; simpl; [assumption |].
  apply IH. destruct (Sitemap.skipped _ _); [assumption | now apply request_keeps].
Qed.

(** A batch keeps [I], and everything it returns has [R]. *)
Lemma batch_keeps (order : list nat) :
  I st0 ->
  I (snd (Sitemap.runBatch newURL fetch baseUrl order batch st0))
  /\ Forall (Forall R) (fst (Sitemap.runBatch newURL fetch baseUrl order batch st0)).
Proof.
  intros H0. unfold Sitemap.runBatch.
  pose proof (settled_batch_keeps (completionOrder (List.length batch) order)
                (Sitemap.issueAll newURL baseUrl st0 batch)
                (issued_batch_keeps batch st0 H0)) as Hs.
  cbv zeta in Hs.
  destruct (fold_left _ (completionOrder (List.length batch) order) _) as [st2 settled].
  cbn [fst snd] in *. destruct Hs as [Hi Hr]. split; assumption.
Qed.
End SitemapBatch.

Lemma in_firstn {A : Type} (n : nat) (l : list A) (x : A) : In x (firstn n l) -> In x l.
Proof. intros H. rewrite <- (firstn_skipn n l), in_app_iff. now left. Qed.

Lemma in_skipn {A : Type} (n : nat) (l : list A) (x : A) : In x (skipn n l) -> In x l.
Proof. intros H. rewrite <- (firstn_skipn n l), in_app_iff. now right. Qed.

Section SitemapStore.
Variable newURL : string -> string -> URL.
Variable fetch : string -> Sitemap.Response.
Variable baseUrl : string.

Lemma collected_depths (page : Sitemap.PageType) (pages : JS.Dict Sitemap.PageType)
      (links : list string) (acc : list Sitemap.Ref * nat) :
  Forall (fun r => Sitemap.depth (Sitemap.target r) = (Sitemap.depth page + 1)%Z) (fst acc) ->
  Forall (fun r => Sitemap.depth (Sitemap.target r) = (Sitemap.depth page + 1)%Z)
         (fst (fold_left
                 (fun acc link =>
                    let '(pagesToCheck, free) := acc in
                    let linkUrl := newURL link baseUrl in
                    if String.eqb (origin linkUrl) baseUrl
                       && negb (existsb (fun p => String.eqb (Sitemap.path p) (href linkUrl))
                                        (JS.values pages))
                       && negb (existsb (fun r => String.eqb (Sitemap.path (Sitemap.target r))
                                                             (pathname linkUrl))
                                        pagesToCheck)
                    then (pagesToCheck
                            ++ [{| Sitemap.address := free;
                                   Sitemap.target :=
                                     {| Sitemap.path := pathname linkUrl;
                                        Sitemap.depth := (Sitemap.depth page + 1)%Z;
                                        Sitemap.error := None |} |}],
                          S free)
                    else (pagesToCheck, free))
                 links acc)).
Proof.
  revert acc. induction links as [| link links IH]; intros [found free] H; simpl.
  - exact H.
  - apply IH. destruct (_ && _); cbn [fst] in *; [| exact H].
    apply Forall_app. split; [exact H |]. constructor; [reflexivity | constructor].
Qed.

(** One worker keeps the store in good order and returns candidates of
    depth at least one, when the page it was given has such a depth. *)
Lemma settle_keeps_store (page : Sitemap.PageType) (st : Sitemap.State) :
  (1 <= Sitemap.depth page)%Z ->
  sitemapStoreOk newURL baseUrl (Sitemap.pages st) ->
  sitemapStoreOk newURL baseUrl
    (Sitemap.pages (snd (Sitemap.settle newURL fetch baseUrl page st)))
  /\ Forall (fun r => (1 <= Sitemap.depth (Sitemap.target r))%Z)
            (fst (Sitemap.settle newURL fetch baseUrl page st)).
Proof.
  intros Hd [Hnd Hrec]. unfold Sitemap.settle.
  assert (Hset : forall e,
             sitemapStoreOk newURL baseUrl
               (JS.set (Sitemap.pages st) (Sitemap.path page)
                       {| Sitemap.path := href (newURL (Sitemap.path page) baseUrl);
                          Sitemap.depth := Sitemap.depth page; Sitemap.error := e |})).
  { intros e. split; [now apply set_keeps_keys_distinct |].
    intros k p Hin. apply set_entries in Hin.
    destruct Hin as [[-> ->] | Hin]; [now split | now apply Hrec]. }
  destruct (negb (Sitemap.ok _)); cbn [fst snd Sitemap.pages].
  - split; [apply Hset | constructor].
  - pose proof (collected_depths page
                  (JS.set (Sitemap.pages st) (Sitemap.path page)
                          {| Sitemap.path := href (newURL (Sitemap.path page) baseUrl);
                             Sitemap.depth := Sitemap.depth page; Sitemap.error := None |})
                  (Sitemap.hrefs (fetch (href (newURL (Sitemap.path page) baseUrl))))
                  ([], Sitemap.free st) (Forall_nil _)) as Hc.
    unfold Sitemap.collectLinks.
    destruct (fold_left _ _ _) as [found free']. cbn [fst snd Sitemap.pages] in *.
    split; [apply Hset |].
    eapply Forall_impl; [| exact Hc]. intros r Hr. cbv beta in Hr. lia.
Qed.

(** One turn of the loop keeps the store in good order and the frontier
    at depths of at least one. *)
Lemma turn_keeps_store (max : Z) (order : list nat) (st : Sitemap.State)
      (pagesToCheck : list Sitemap.Ref) :
  sitemapStoreOk newURL baseUrl (Sitemap.pages st) ->
  Forall (fun r => (1 <= Sitemap.depth (Sitemap.target r))%Z) pagesToCheck ->
  sitemapStoreOk newURL baseUrl
    (Sitemap.pages (fst (Sitemap.turn newURL fetch baseUrl max order st pagesToCheck)))
  /\ Forall (fun r => (1 <= Sitemap.depth (Sitemap.target r))%Z)
            (snd (Sitemap.turn newURL fetch baseUrl max order st pagesToCheck)).
Proof.
  intros Hok Hfr. unfold Sitemap.turn, JS.splice0.
  set (n := Z.to_nat (JS.Math_max max 1)).
  pose proof (batch_keeps newURL fetch baseUrl
                (fun s => sitemapStoreOk newURL baseUrl (Sitemap.pages s))
                (fun r => (1 <= Sitemap.depth (Sitemap.target r))%Z)
                (firstn n pagesToCheck) st) as Hb.
  destruct (Hb) with (order := order) as [Hst Hres].
  - intros r s Hin _ Hs. apply settle_keeps_store; [| exact Hs].
    rewrite Forall_forall in Hfr. apply Hfr. now apply in_firstn in Hin.
  - intros s location Hs. exact Hs.
  - exact Hok.
  - destruct (Sitemap.runBatch newURL fetch baseUrl order (firstn n pagesToCheck) st)
      as [results st']. cbn [fst snd] in *. split; [exact Hst |].
    apply Forall_forall. intros r Hr. apply Array_from_Set_subset in Hr.
    apply in_app_iff in Hr. destruct Hr as [Hr | Hr].
    + rewrite Forall_forall in Hfr. apply Hfr. now apply in_skipn in Hr.
    + apply in_concat in Hr. destruct Hr as [found [Hfound Hr]].
      rewrite Forall_forall in Hres. specialize (Hres found Hfound).
      rewrite Forall_forall in Hres. now apply Hres.
Qed.

Lemma loop_keeps_store (fuel : nat) (max : Z) (schedule : list (list nat))
      (st final : Sitemap.State) (pagesToCheck : list Sitemap.Ref) :
  sitemapStoreOk newURL baseUrl (Sitemap.pages st) ->
  Forall (fun r => (1 <= Sitemap.depth (Sitemap.target r))%Z) pagesToCheck ->
  Sitemap.loop newURL fetch fuel baseUrl max schedule st pagesToCheck = Some final ->
  sitemapStoreOk newURL baseUrl (Sitemap.pages final).
Proof.
  revert schedule st pagesToCheck.
  induction fuel as [| fuel IH]; intros schedule st pagesToCheck Hok Hfr Hloop.
  - destruct pagesToCheck; simpl in Hloop; [injection Hloop as <-; exact Hok | discriminate].
  - destruct pagesToCheck as [| r rest]; [simpl in Hloop; injection Hloop as <-; exact Hok |].
    cbn [Sitemap.loop] in Hloop.
    destruct (turn_keeps_store max (hd [] schedule) st (r :: rest) Hok Hfr) as [Hok' Hfr'].
    destruct (Sitemap.turn newURL fetch baseUrl max (hd [] schedule) st (r :: rest))
      as [st' next]. cbn [fst snd] in *.
    exact (IH _ _ _ Hok' Hfr' Hloop).
Qed.

(** When the sitemap crawl ends, whatever the site, the batch size and the
    order in which the fetches settled, the store holds no key twice, and
    under each key a record with the resolved address of that key and a
    depth of at least one. *)
Theorem sitemap_store_in_good_order
        (fuel : nat) (max : Z) (schedule : list (list nat)) (final : Sitemap.State) :
  Sitemap.checkAllPages newURL fetch fuel baseUrl max schedule = Some final ->
  NoDup (map fst (Sitemap.pages final))
  /\ forall k p, In (k, p) (Sitemap.pages final) ->
                 Sitemap.path p = href (newURL k baseUrl) /\ (1 <= Sitemap.depth p)%Z.
Proof.
  intros H. unfold Sitemap.checkAllPages in H.
  apply (loop_keeps_store fuel max schedule (fst Sitemap.start) final (snd Sitemap.start)).
  - split; [constructor | intros k p []].
  - constructor; [simpl; lia | constructor].
  - exact H.
Qed.
End SitemapStore.

Lemma sitemap_store_in_good_order_witness :
  exists final,
    Sitemap.checkAllPages Samples.siteURL Samples.diamond 10 Samples.base 2 [] = Some final
    /\ NoDup (map fst (Sitemap.pages final)).
Proof.
  eexists. split; [vm_compute; reflexivity |].
  apply (sitemap_store_in_good_order Samples.siteURL Samples.diamond Samples.base
           10 2 []).
  vm_compute. reflexivity.
Defined.

Section SitemapTurns.
Variable newURL : string -> string -> URL.
Variable fetch : string -> Sitemap.Response.
Variable baseUrl : string.

Lemma settle_issues_nothing (page : Sitemap.PageType) (st : Sitemap.State) :
  Sitemap.requests (snd (Sitemap.settle newURL fetch baseUrl page st))
  = Sitemap.requests st.
Proof.
  unfold Sitemap.settle. destruct (negb (Sitemap.ok _)); [reflexivity |].
  destruct (Sitemap.collectLinks _ _ _ _ _ _). reflexivity.
Qed.

Lemma issueAll_count (st0 : Sitemap.State) (l : list Sitemap.Ref) (st : Sitemap.State) :
  let after :=
    fold_left (fun s r =>
                 if Sitemap.skipped (Sitemap.pages st0) (Sitemap.target r) then s
                 else Sitemap.request s (href (newURL (Sitemap.path (Sitemap.target r))
                                                      baseUrl)))
              l st in
  (List.length (Sitemap.requests st) <= List.length (Sitemap.requests after)
   <= List.length (Sitemap.requests st) + List.length l)%nat.
Proof.
  revert st. induction l as [| r l IH]; intros st; simpl; [lia |].
  destruct (Sitemap.skipped _ _).
  - specialize (IH st). simpl in IH. lia.
  - specialize (IH (Sitemap.request st (href (newURL (Sitemap.path (Sitemap.target r))
                                                     baseUrl)))).
    simpl in IH. rewrite length_app in IH. simpl in IH. lia.
Qed.

(** One turn of the sitemap loop issues at most [max] requests, and at
    most one when [max] is zero or negative. *)
Theorem sitemap_turn_respects_the_limit
        (max : Z) (order : list nat) (st : Sitemap.State) (pagesToCheck : list Sitemap.Ref) :
  let st' := fst (Sitemap.turn newURL fetch baseUrl max order st pagesToCheck) in
  (List.length (Sitemap.requests st) <= List.length (Sitemap.requests st')
   <= List.length (Sitemap.requests st) + Z.to_nat (Z.max max 1))%nat.
Proof.
  intros st'. subst st'. unfold Sitemap.turn, JS.splice0, JS.Math_max.
  set (n := Z.to_nat (Z.max max 1)). set (batch := firstn n pagesToCheck).
  unfold Sitemap.runBatch.
  pose proof (settled_batch_keeps newURL fetch baseUrl
                (fun s => Sitemap.requests s
                          = Sitemap.requests (Sitemap.issueAll newURL baseUrl st batch))
                (fun _ => True) batch st) as Hs.
  destruct Hs with (order := completionOrder (List.length batch) order)
                   (st1 := Sitemap.issueAll newURL baseUrl st batch) as [Hreq _].
  - intros r s _ _ Hs'. split; [now rewrite settle_issues_nothing |].
    apply Forall_forall. intros; exact Logic.I.
  - reflexivity.
  - cbv zeta in Hreq.
    destruct (fold_left _ (completionOrder (List.length batch) order) _) as [st2 settled].
    cbn [fst snd] in *. rewrite Hreq.
    pose proof (issueAll_count st batch st) as Hc. cbv zeta in Hc.
    pose proof (firstn_le_length n pagesToCheck) as Hn.
    unfold Sitemap.issueAll. fold batch in Hn. lia.
Qed.

(** A record that is in the store when a turn starts is there, unchanged,
    when the turn ends. *)
Lemma turn_keeps_records (max : Z) (order : list nat) (st : Sitemap.State)
      (pagesToCheck : list Sitemap.Ref) (k : string) (p : Sitemap.PageType) :
  JS.get (Sitemap.pages st) k = Some p ->
  JS.get (Sitemap.pages (fst (Sitemap.turn newURL fetch baseUrl max order st pagesToCheck)))
         k = Some p.
Proof.
  intros Hget. unfold Sitemap.turn, JS.splice0.
  set (batch := firstn (Z.to_nat (JS.Math_max max 1)) pagesToCheck).
  pose proof (batch_keeps newURL fetch baseUrl
                (fun s => JS.get (Sitemap.pages s) k = Some p) (fun _ => True)
                batch st) as Hb.
  destruct Hb with (order := order) as [Hst _].
  - intros r s _ Hlive Hs. split; [| apply Forall_forall; intros; exact Logic.I].
    assert (Hne : k <> Sitemap.path (Sitemap.target r)).
    { intros ->. unfold Sitemap.skipped, JS.has_key in Hlive. rewrite Hget in Hlive.
      discriminate. }
    unfold Sitemap.settle. destruct (negb (Sitemap.ok _)); cbn [snd Sitemap.pages].
    + now rewrite get_set_other.
    + destruct (Sitemap.collectLinks _ _ _ _ _ _). cbn [snd Sitemap.pages].
      now rewrite get_set_other.
  - intros s location Hs. exact Hs.
  - exact Hget.
  - destruct (Sitemap.runBatch newURL fetch baseUrl order batch st) as [results st'].
    exact Hst.
Qed.

Lemma loop_keeps_records (fuel : nat) (max : Z) (schedule : list (list nat))
      (st final : Sitemap.State) (pagesToCheck : list Sitemap.Ref)
      (k : string) (p : Sitemap.PageType) :
  Sitemap.loop newURL fetch fuel baseUrl max schedule st pagesToCheck = Some final ->
  JS.get (Sitemap.pages st) k = Some p ->
  JS.get (Sitemap.pages final) k = Some p.
Proof.
  revert schedule st pagesToCheck.
  induction fuel as [| fuel IH]; intros schedule st pagesToCheck Hloop Hget.
  - destruct pagesToCheck; simpl in Hloop; [injection Hloop as <-; exact Hget | discriminate].
  - destruct pagesToCheck as [| r rest]; [simpl in Hloop; injection Hloop as <-; exact Hget |].
    cbn [Sitemap.loop] in Hloop.
    pose proof (turn_keeps_records max (hd [] schedule) st (r :: rest) k p Hget) as Hk.
    destruct (Sitemap.turn newURL fetch baseUrl max (hd [] schedule) st (r :: rest))
      as [st' next]. cbn [fst] in Hk.
    exact (IH _ _ _ Hloop Hk).
Qed.

Lemma completionOrder_one (order : list nat) : completionOrder 1 order = [0%nat].
Proof.
  unfold completionOrder, JS.Array_from_Set. simpl seq.
  assert (Hzero : forall l, Forall (fun i => i = 0%nat) l ->
                            fold_left (JS.add Nat.eqb) (l ++ [0%nat]) [0%nat] = [0%nat]).
  { intros l. induction l as [| i l IH]; intros H; [reflexivity |].
    inversion H as [| ? ? Hi Hl]; subst. simpl. now apply IH. }
  assert (Hall : Forall (fun i => i = 0%nat) (filter (fun i => (i <? 1)%nat) order)).
  { apply Forall_forall. intros i Hi. apply filter_In in Hi. destruct Hi as [_ Hi].
    apply Nat.ltb_lt in Hi. lia. }
  destruct (filter (fun i => (i <? 1)%nat) order) as [| i l]; [reflexivity |].
  inversion Hall as [| ? ? Hi Hl]; subst. simpl. now apply Hzero.
Qed.

(** When the sitemap crawl ends, the record of the root is the one written
    in the first turn: depth 1, the resolved address of the root, and the
    error mark of the first answer.  No later turn rewrites a record. *)
Theorem sitemap_root_record_is_final
        (fuel : nat) (max : Z) (schedule : list (list nat)) (final : Sitemap.State) :
  Sitemap.checkAllPages newURL fetch fuel baseUrl max schedule = Some final ->
  JS.get (Sitemap.pages final) "/"
  = Some {| Sitemap.path := href (newURL "/" baseUrl);
            Sitemap.depth := 1;
            Sitemap.error := if Sitemap.ok (fetch (href (newURL "/" baseUrl)))
                             then None else Some true |}.
Proof.
  unfold Sitemap.checkAllPages. destruct fuel as [| fuel]; [discriminate |].
  cbn [Sitemap.loop Sitemap.start fst snd]. intros Hloop.
  assert (Hfirst : JS.get
                     (Sitemap.pages
                        (fst (Sitemap.turn newURL fetch baseUrl max (hd [] schedule)
                                {| Sitemap.pages := []; Sitemap.requests := [];
                                   Sitemap.free := 1 |}
                                [{| Sitemap.address := 0;
                                    Sitemap.target := {| Sitemap.path := "/";
                                                         Sitemap.depth := 1;
                                                         Sitemap.error := None |} |}])))
                     "/"
                   = Some {| Sitemap.path := href (newURL "/" baseUrl);
                             Sitemap.depth := 1;
                             Sitemap.error :=
                               if Sitemap.ok (fetch (href (newURL "/" baseUrl)))
                               then None else Some true |}).
  { unfold Sitemap.turn, JS.splice0, JS.Math_max.
    destruct (Z.to_nat (Z.max max 1)) as [| n] eqn:En; [lia |].
    cbn [firstn skipn]. replace (firstn n []) with (@nil Sitemap.Ref) by now destruct n.
    unfold Sitemap.runBatch. cbn [List.length]. rewrite completionOrder_one.
    cbn [fold_left map Sitemap.settleWorker nth_error Sitemap.skipped Sitemap.pages
         JS.has_key JS.get Sitemap.target Sitemap.path orb negb fst snd].
    change (JS.startsWith "/" "http") with false. cbn [negb].
    unfold Sitemap.settle. cbn [Sitemap.path Sitemap.depth].
    destruct (Sitemap.ok (fetch (href (newURL "/" baseUrl)))); cbn [negb].
    - destruct (Sitemap.collectLinks _ _ _ _ _ _) as [found free']. cbn [fst snd].
      cbn [Sitemap.pages]. apply get_set_same.
    - cbn [fst snd Sitemap.pages]. apply get_set_same. }
  destruct (Sitemap.turn newURL fetch baseUrl max (hd [] schedule) _ _) as [st' next].
  cbn [fst] in Hfirst.
  exact (loop_keeps_records fuel max (tl schedule) st' final next "/" _ Hloop Hfirst).
Qed.
End SitemapTurns.

Lemma sitemap_root_record_is_final_witness :
  exists final,
    Sitemap.checkAllPages Samples.siteURL Samples.diamond 10 Samples.base 2 [] = Some final
    /\ JS.get (Sitemap.pages final) "/"
       = Some {| Sitemap.path := "https://site.test/"; Sitemap.depth := 1;
                 Sitemap.error := None |}.
Proof.
  eexists. split; [vm_compute; reflexivity |].
  apply (sitemap_root_record_is_final Samples.siteURL Samples.diamond Samples.base
           10 2 []).
  vm_compute. reflexivity.
Defined.

(** ** The [Set] of the sitemap loop *)

Lemma completionOrder_NoDup (n : nat) (order : list nat) : NoDup (completionOrder n order).
Proof. apply Array_from_Set_NoDup. intros a b. apply Nat.eqb_eq. Qed.

Lemma NoDup_skipn {A : Type} (n : nat) (l : list A) : NoDup l -> NoDup (skipn n l).
Proof.
  intros H. rewrite <- (firstn_skipn n l) in H. now apply NoDup_app_remove_l in H.
Qed.

Lemma NoDup_app_apart {A : Type} (l1 l2 : list A) (a : A) :
  NoDup (l1 ++ l2) -> In a l1 -> ~ In a l2.
Proof.
  induction l1 as [| x l1 IH]; intros H Hin; [destruct Hin |].
  simpl in H. inversion H as [| ? ? Hx Hrest]; subst.
  destruct Hin as [-> | Hin].
  - intros H2. apply Hx. apply in_app_iff. now right.
  - now apply IH.
Qed.

(** Lists of candidates, each list under an index: when no address occurs
    twice in the whole and no index occurs twice, picking the lists of
    distinct indices gives no address twice. *)
Lemma picked_results_distinct (settled : list (nat * list Sitemap.Ref)) (indices : list nat) :
  NoDup (map Sitemap.address (List.concat (map snd settled))) ->
  NoDup (map fst settled) ->
  NoDup indices ->
  NoDup (map Sitemap.address
             (List.concat (map (Sitemap.resultOf settled) indices))).
Proof.
  intros Hall Hidx Hnd.
  assert (Hfind : forall i found,
             Sitemap.resultOf settled i = found -> found <> [] ->
             In (i, found) settled).
  { intros i found E Hne. unfold Sitemap.resultOf in E.
    destruct (find _ settled) as [[j f] |] eqn:Ef; [| now subst].
    apply find_some in Ef. destruct Ef as [Hin Hj]. simpl in Hj, E.
    apply Nat.eqb_eq in Hj. now subst. }
  assert (Hsub : forall i found, In (i, found) settled ->
                                 forall x, In x found ->
                                 In (Sitemap.address x)
                                    (map Sitemap.address (List.concat (map snd settled)))).
  { intros i found Hin x Hx. apply in_map. apply in_concat. exists found.
    split; [| exact Hx]. apply in_map_iff. now exists (i, found). }
  assert (Htwice : forall i j f g x y,
             In (i, f) settled -> In (j, g) settled -> i <> j ->
             In x f -> In y g -> Sitemap.address x <> Sitemap.address y).
  { clear Hfind Hsub Hnd indices.
    induction settled as [| [k h] settled IH]; intros i j f g x y Hf Hg Hij Hx Hy;
      [destruct Hf |].
    cbn [map snd List.concat] in Hall. rewrite map_app in Hall.
    cbn [map fst] in Hidx. inversion Hidx as [| ? ? Hk Hidx']; subst.
    destruct Hf as [[= -> ->] | Hf]; destruct Hg as [[= -> ->] | Hg].
    - congruence.
    - intros E. apply NoDup_app_apart with (a := Sitemap.address x) in Hall.
      + apply Hall. rewrite E. apply in_map. apply in_concat. exists g.
        split; [| exact Hy]. apply in_map_iff. now exists (j, g).
      + now apply in_map.
    - intros E. apply NoDup_app_apart with (a := Sitemap.address y) in Hall.
      + apply Hall. rewrite <- E. apply in_map. apply in_concat. exists f.
        split; [| exact Hx]. apply in_map_iff. now exists (i, f).
      + now apply in_map.
    - apply (IH (NoDup_app_remove_l _ _ Hall) Hidx' i j f g x y); assumption. }
  assert (Hone : forall i found, In (i, found) settled -> NoDup (map Sitemap.address found)).
  { clear Hfind Hsub Htwice Hnd indices.
    induction settled as [| [k h] settled IH]; intros i found Hin; [destruct Hin |].
    cbn [map snd List.concat] in Hall. rewrite map_app in Hall.
    cbn [map fst] in Hidx. inversion Hidx as [| ? ? Hk Hidx']; subst.
    destruct Hin as [[= -> ->] | Hin].
    - now apply NoDup_app_remove_r in Hall.
    - apply (IH (NoDup_app_remove_l _ _ Hall) Hidx' i found Hin). }
  induction Hnd as [| i indices Hi Hnd IH]; [constructor |].
  cbn [map List.concat]. rewrite map_app. apply NoDup_app.
  - destruct (Sitemap.resultOf settled i) as [| x found] eqn:E; [constructor |].
    apply (Hone i). apply Hfind; [exact E | discriminate].
  - exact IH.
  - intros a Ha Hb. apply in_map_iff in Ha. destruct Ha as [x [<- Hx]].
    apply in_map_iff in Hb. destruct Hb as [y [Exy Hy]].
    apply in_concat in Hy. destruct Hy as [g [Hg Hy]].
    apply in_map_iff in Hg. destruct Hg as [j [<- Hj]].
    assert (Hij : i <> j) by (intros ->; contradiction).
    refine (Htwice i j _ _ x y _ _ Hij Hx Hy (eq_sym Exy)).
    + apply Hfind; [reflexivity |]. intros E. rewrite E in Hx. destruct Hx.
    + apply Hfind; [reflexivity |]. intros E. rewrite E in Hy. destruct Hy.
Qed.

Section SitemapSet.
Variable newURL : string -> string -> URL.
Variable fetch : string -> Sitemap.Response.
Variable baseUrl : string.

Lemma collected_addresses (page : Sitemap.PageType) (pages : JS.Dict Sitemap.PageType)
      (first : nat) (links : list string) (acc : list Sitemap.Ref * nat) :
  map Sitemap.address (fst acc) = seq first (List.length (fst acc))
  /\ snd acc = (first + List.length (fst acc))%nat ->
  let out :=
    fold_left
      (fun acc link =>
         let '(pagesToCheck, free) := acc in
         let linkUrl := newURL link baseUrl in
         if String.eqb (origin linkUrl) baseUrl
            && negb (existsb (fun p => String.eqb (Sitemap.path p) (href linkUrl))
                             (JS.values pages))
            && negb (existsb (fun r => String.eqb (Sitemap.path (Sitemap.target r))
                                                  (pathname linkUrl))
                             pagesToCheck)
         then (pagesToCheck
                 ++ [{| Sitemap.address := free;
                        Sitemap.target :=
                          {| Sitemap.path := pathname linkUrl;
                             Sitemap.depth := (Sitemap.depth page + 1)%Z;
                             Sitemap.error := None |} |}],
               S free)
         else (pagesToCheck, free))
      links acc in
  map Sitemap.address (fst out) = seq first (List.length (fst out))
  /\ snd out = (first + List.length (fst out))%nat.
Proof.
  revert acc. induction links as [| link links IH]; intros [found free] H; simpl.
  - exact H.
  - apply IH. destruct (_ && _); cbn [fst snd] in *; [| exact H].
    destruct H as [Ha Hf]. subst free. split.
    + rewrite map_app, length_app, seq_app, Ha. reflexivity.
    + rewrite length_app. simpl. lia.
Qed.

(** The candidates a worker returns are new objects: their addresses are
    the consecutive ones from the free address it found to the free
    address it leaves. *)
Lemma settle_allocates (page : Sitemap.PageType) (st : Sitemap.State) :
  let found := fst (Sitemap.settle newURL fetch baseUrl page st) in
  let st' := snd (Sitemap.settle newURL fetch baseUrl page st) in
  map Sitemap.address found = seq (Sitemap.free st) (List.length found)
  /\ Sitemap.free st' = (Sitemap.free st + List.length found)%nat.
Proof.
  unfold Sitemap.settle. destruct (negb (Sitemap.ok _)); cbn [fst snd Sitemap.free].
  - split; [reflexivity | simpl; lia].
  - pose proof (collected_addresses page
                  (JS.set (Sitemap.pages st) (Sitemap.path page)
                          {| Sitemap.path := href (newURL (Sitemap.path page) baseUrl);
                             Sitemap.depth := Sitemap.depth page; Sitemap.error := None |})
                  (Sitemap.free st)
                  (Sitemap.hrefs (fetch (href (newURL (Sitemap.path page) baseUrl))))
                  ([], Sitemap.free st)) as Hc.
    cbv zeta in Hc. unfold Sitemap.collectLinks.
    destruct (fold_left _ _ _) as [found free']. cbn [fst snd Sitemap.free] in *.
    apply Hc. split; [reflexivity | simpl; lia].
Qed.

Lemma issueAll_free (st0 : Sitemap.State) (l : list Sitemap.Ref) (st : Sitemap.State) :
  Sitemap.free
    (fold_left (fun s r =>
                  if Sitemap.skipped (Sitemap.pages st0) (Sitemap.target r) then s
                  else Sitemap.request s (href (newURL (Sitemap.path (Sitemap.target r))
                                                       baseUrl)))
               l st)
  = Sitemap.free st.
Proof.
  revert st. induction l as [| r l IH]; intros st; simpl; [reflexivity |].
  destruct (Sitemap.skipped _ _); rewrite IH; reflexivity.
Qed.

(** What the workers of a batch return, taken together: new objects only,
    no two at the same address, one list per worker. *)
Lemma settled_allocations (batch : list Sitemap.Ref) (live : list bool)
      (first : nat) (order : list nat) (acc : Sitemap.State * list (nat * list Sitemap.Ref)) :
  NoDup order ->
  (forall i, In i (map fst (snd acc)) -> ~ In i order) ->
  (first <= Sitemap.free (fst acc))%nat ->
  NoDup (map Sitemap.address (List.concat (map snd (snd acc)))) ->
  (forall a, In a (map Sitemap.address (List.concat (map snd (snd acc)))) ->
             (first <= a < Sitemap.free (fst acc))%nat) ->
  NoDup (map fst (snd acc)) ->
  let out := fold_left (Sitemap.settleWorker newURL fetch baseUrl batch live) order acc in
  (first <= Sitemap.free (fst out))%nat
  /\ NoDup (map Sitemap.address (List.concat (map snd (snd out))))
  /\ (forall a, In a (map Sitemap.address (List.concat (map snd (snd out)))) ->
                (first <= a < Sitemap.free (fst out))%nat)
  /\ NoDup (map fst (snd out)).
Proof.
  revert acc. induction order as [| i order IH];
    intros acc Hnd Hfresh Hfree Hall Hrange Hidx; [cbn; auto |].
  cbn [fold_left]. inversion Hnd as [| ? ? Hi Hnd']; subst.
  set (acc' := Sitemap.settleWorker newURL fetch baseUrl batch live acc i).
  assert (Hstep :
    (forall j, In j (map fst (snd acc')) -> ~ In j order)
    /\ (first <= Sitemap.free (fst acc'))%nat
    /\ NoDup (map Sitemap.address (List.concat (map snd (snd acc'))))
    /\ (forall a, In a (map Sitemap.address (List.concat (map snd (snd acc')))) ->
                  (first <= a < Sitemap.free (fst acc'))%nat)
    /\ NoDup (map fst (snd acc'))).
  { assert (Hsame :
      (forall j, In j (map fst (snd acc)) -> ~ In j order)
      /\ (first <= Sitemap.free (fst acc))%nat
      /\ NoDup (map Sitemap.address (List.concat (map snd (snd acc))))
      /\ (forall a, In a (map Sitemap.address (List.concat (map snd (snd acc)))) ->
                    (first <= a < Sitemap.free (fst acc))%nat)
      /\ NoDup (map fst (snd acc))).
    { repeat split; auto; try apply Hrange; auto.
      intros j Hj Hin. apply (Hfresh j Hj). now right. }
    subst acc'. unfold Sitemap.settleWorker.
    destruct (nth_error batch i) as [r |]; [| exact Hsame].
    destruct (nth_error live i) as [[|] |]; try exact Hsame.
    destruct (settle_allocates (Sitemap.target r) (fst acc)) as [Haddr Hnext].
    destruct (Sitemap.settle newURL fetch baseUrl (Sitemap.target r) (fst acc))
      as [found st']. cbn [fst snd map List.concat] in *.
    split; [| split; [| split; [| split]]].
    - intros j [<- | Hj] Hin; [contradiction |]. apply (Hfresh j Hj). now right.
    - lia.
    - rewrite map_app. apply NoDup_app; [rewrite Haddr; apply seq_NoDup | exact Hall |].
      intros a Ha Hb. rewrite Haddr in Ha. apply in_seq in Ha.
      specialize (Hrange a Hb). lia.
    - intros a Ha. rewrite map_app, in_app_iff in Ha. destruct Ha as [Ha | Ha].
      + rewrite Haddr in Ha. apply in_seq in Ha. lia.
      + specialize (Hrange a Ha). lia.
    - constructor; [| exact Hidx]. intros Hin. apply (Hfresh i Hin). now left. }
  destruct Hstep as [H1 [H2 [H3 [H4 H5]]]]. now apply IH.
Qed.

(** In the sitemap loop the [Set] removes nothing: when the references of
    the frontier are in good order, the frontier after the turn is what
    was left of the old one followed by everything the batch returned,
    and its references are in good order again. *)
Lemma turn_set_removes_nothing (max : Z) (order : list nat) (st : Sitemap.State)
      (pagesToCheck : list Sitemap.Ref) :
  sitemapRefsOk st pagesToCheck ->
  let n := Z.to_nat (Z.max max 1) in
  let out := Sitemap.turn newURL fetch baseUrl max order st pagesToCheck in
  snd out
  = skipn n pagesToCheck
      ++ List.concat (fst (Sitemap.runBatch newURL fetch baseUrl order
                                            (firstn n pagesToCheck) st))
  /\ sitemapRefsOk (fst out) (snd out).
Proof.
  intros [Hnd Hold] n out. subst out. unfold Sitemap.turn, JS.splice0, JS.Math_max.
  fold n. unfold Sitemap.runBatch.
  set (batch := firstn n pagesToCheck).
  set (live := map (fun r => negb (Sitemap.skipped (Sitemap.pages st) (Sitemap.target r)))
                   batch).
  pose proof (settled_allocations batch live (Sitemap.free st)
                (completionOrder (List.length batch) order)
                (Sitemap.issueAll newURL baseUrl st batch, [])) as Hs.
  cbv zeta in Hs.
  destruct Hs as [Hfree [Hall [Hrange Hidx]]].
  - apply completionOrder_NoDup.
  - intros i [].
  - cbn [fst]. unfold Sitemap.issueAll. rewrite issueAll_free. lia.
  - constructor.
  - intros a [].
  - constructor.
  - destruct (fold_left _ (completionOrder (List.length batch) order) _) as [st2 settled].
    cbn [fst snd] in *.
    assert (Hres : NoDup (map Sitemap.address
                               (List.concat (map (Sitemap.resultOf settled)
                                                 (seq 0 (List.length batch)))))).
    { apply picked_results_distinct; [exact Hall | exact Hidx | apply seq_NoDup]. }
    assert (Hnew : forall r, In r (List.concat (map (Sitemap.resultOf settled)
                                                    (seq 0 (List.length batch)))) ->
                             (Sitemap.free st <= Sitemap.address r < Sitemap.free st2)%nat).
    { intros r Hr. apply Hrange. apply in_map.
      apply in_concat in Hr. destruct Hr as [found [Hfound Hr]].
      apply in_map_iff in Hfound. destruct Hfound as [i [<- _]].
      unfold Sitemap.resultOf in Hr.
      destruct (find _ settled) as [ir |] eqn:Ef; [| destruct Hr].
      apply find_some in Ef. destruct Ef as [Hin _].
      apply in_concat. exists (snd ir). split; [now apply in_map | exact Hr]. }
    assert (Hdistinct : NoDup (map Sitemap.address
                                    (skipn n pagesToCheck
                                       ++ List.concat (map (Sitemap.resultOf settled)
                                                           (seq 0 (List.length batch)))))).
    { rewrite map_app. apply NoDup_app; [| exact Hres |].
      - rewrite <- skipn_map. now apply NoDup_skipn.
      - intros a Ha Hb. apply in_map_iff in Ha. destruct Ha as [r [<- Hr]].
        apply in_map_iff in Hb. destruct Hb as [r' [E Hr']].
        apply in_skipn in Hr. specialize (Hold r Hr). specialize (Hnew r' Hr'). lia. }
    rewrite (set_of_distinct_objects _ Hdistinct).
    split; [reflexivity |]. split; [exact Hdistinct |].
    intros r Hr. apply in_app_iff in Hr. destruct Hr as [Hr | Hr].
    + apply in_skipn in Hr. specialize (Hold r Hr). lia.
    + specialize (Hnew r Hr). lia.
Qed.

Lemma turns_refs_ok (n : nat) (max : Z) (schedule : list (list nat))
      (st : Sitemap.State) (pagesToCheck : list Sitemap.Ref) :
  sitemapRefsOk st pagesToCheck ->
  sitemapRefsOk (fst (Sitemap.turns newURL fetch n baseUrl max schedule st pagesToCheck))
                (snd (Sitemap.turns newURL fetch n baseUrl max schedule st pagesToCheck)).
Proof.
  revert schedule st pagesToCheck.
  induction n as [| n IH]; intros schedule st pagesToCheck Hok; [exact Hok |].
  destruct pagesToCheck as [| r rest]; [exact Hok |].
  cbn [Sitemap.turns].
  destruct (turn_set_removes_nothing max (hd [] schedule) st (r :: rest) Hok) as [_ Hok'].
  destruct (Sitemap.turn newURL fetch baseUrl max (hd [] schedule) st (r :: rest))
    as [st' next]. now apply IH.
Qed.

(** In every state the sitemap crawl reaches, whatever the site, the batch
    size and the order in which the fetches settle, the [Set] of the loop
    removes nothing: the next frontier is the rest of the frontier
    followed by all candidates the batch returned, repeated paths
    included. *)
Theorem sitemap_set_never_removes_a_candidate
        (turnsDone : nat) (max : Z) (schedule : list (list nat)) (order : list nat) :
  let reached := Sitemap.turns newURL fetch turnsDone baseUrl max schedule
                               (fst Sitemap.start) (snd Sitemap.start) in
  let n := Z.to_nat (Z.max max 1) in
  snd (Sitemap.turn newURL fetch baseUrl max order (fst reached) (snd reached))
  = skipn n (snd reached)
      ++ List.concat (fst (Sitemap.runBatch newURL fetch baseUrl order
                                            (firstn n (snd reached)) (fst reached))).
Proof.
  intros reached n.
  apply (turn_set_removes_nothing max order (fst reached) (snd reached)).
  apply turns_refs_ok. unfold sitemapRefsOk, Sitemap.start. simpl. split.
  - constructor; [intros [] | constructor].
  - intros r [<- | []]. simpl. lia.
Qed.
End SitemapSet.

(** ** The properties above, run on the samples *)

Lemma sitemap_links_one_hop_deeper_and_fresh_witness :
  Sitemap.depth (Sitemap.target refToA) = (Sitemap.depth rootRecord + 1)%Z
  /\ Sitemap.error (Sitemap.target refToA) = None.
Proof.
  apply (proj1 (sitemap_links_one_hop_deeper_and_fresh
                  Samples.siteURL Samples.base rootRecord [] 1 ["/a"; "/b"]) refToA).
  vm_compute. left. reflexivity.
Defined.

Lemma aria_check_throws_iff_inherited_role_witness :
  AriaRoles.check Samples.tagOnly Samples.allChecks constructorRoleDocument Samples.blankPage
  = None.
Proof.
  apply (proj2 (aria_check_throws_iff_inherited_role
                  Samples.tagOnly Samples.allChecks constructorRoleDocument
                  Samples.blankPage eq_refl)).
  eexists. exists "constructor". vm_compute.
  split; [left; reflexivity | split; [reflexivity | tauto]].
Defined.

Lemma aria_invalid_role_has_no_requirements_witness :
  AriaRoles.requiredAttributes Samples.tagOnly Samples.blankPage bananaRole
  = Some Samples.blankPage
  \/ AriaRoles.requiredAttributes Samples.tagOnly Samples.blankPage bananaRole = None.
Proof.
  apply (aria_invalid_role_has_no_requirements
           Samples.tagOnly Samples.blankPage Samples.blankPage bananaRole).
  vm_compute. discriminate.
Defined.

Lemma checks_only_append_witness :
  exists after,
    AriaRoles.check Samples.tagOnly Samples.allChecks bananaRoleDocument Samples.blankPage
    = Some after
    /\ extends Samples.blankPage after.
Proof.
  eexists. split; [vm_compute; reflexivity |].
  apply (proj2 (proj2 (proj2 (proj2 (proj2
           (checks_only_append Samples.tagOnly offline Samples.allChecks
                               bananaRoleDocument Samples.blankPage)))))).
  vm_compute. reflexivity.
Defined.

(** ** The heading hierarchy check and the headings the SEO check extracts *)

Lemma follows_refl (page : Check.PageType) : follows page page.
Proof. split; [apply extends_refl | reflexivity]. Qed.

Lemma follows_trans (a b c : Check.PageType) : follows a b -> follows b c -> follows a c.
Proof.
  intros [Hab Eab] [Hbc Ebc]. split; [eapply extends_trans; eassumption | congruence].
Qed.

Lemma follows_push_error (page : Check.PageType) (s : string) :
  follows page (Check.push_error page s).
Proof. split; [apply extends_push_error | reflexivity]. Qed.

Lemma follows_push_warning (page : Check.PageType) (s : string) :
  follows page (Check.push_warning page s).
Proof. split; [apply extends_push_warning | reflexivity]. Qed.

Lemma follows_fold {A : Type} (f : Check.PageType -> A -> Check.PageType) (l : list A) :
  (forall p x, follows p (f p x)) ->
  forall page, follows page (fold_left f l page).
Proof.
  intros H. induction l as [| x l IH]; intros page; simpl.
  - apply follows_refl.
  - eapply follows_trans; [apply H | apply IH].
Qed.

Lemma follows_headingLoop (page : Check.PageType) : follows page (SeoCheck.headingLoop page).
Proof.
  unfold SeoCheck.headingLoop. apply follows_fold. intros p i.
  unfold SeoCheck.compareWithPrevious.
  destruct (_ && _); [apply follows_push_error | apply follows_refl].
Qed.

(** With the option set, the first part of the SEO check leaves the
    extracted headings in [page.headings]. *)
Lemma headingPart_headings (options : Check.CheckOptions) (document : Dom.Document)
      (page : Check.PageType) :
  Check.seo options = Some true ->
  Check.headings (SeoCheck.headingPart options document page)
  = SeoCheck.extractHeadings document.
Proof.
  intros Hseo. unfold SeoCheck.headingPart. rewrite Hseo. cbn [JS.truthy_flag negb].
  rewrite (proj2 (follows_headingLoop _)).
  destruct (1 <? _)%nat; cbn [Check.push_error Check.headings];
    destruct (Dom.querySelectorAll document [[Dom.Tag "h1"]]);
    try destruct (SeoCheck.allEmpty _); reflexivity.
Qed.

Section AfterExtraction.
Variable outerHTML : Dom.Node -> string.
Variable probe : string -> string -> SeoRules.Probe.

Lemma follows_images (images : list string) (acc : Check.PageType * list string) :
  follows (fst acc) (fst (fold_left (SeoRules.imageStep probe) images acc)).
Proof.
  revert acc. induction images as [| image images IH]; intros acc; simpl.
  - apply follows_refl.
  - eapply follows_trans; [| apply IH].
    unfold SeoRules.imageStep. destruct (probe image _) as [u ok ct | u message]; cbn [fst].
    + destruct (negb ok); [apply follows_push_error |].
      destruct (negb _); [apply follows_push_error | apply follows_refl].
    + apply follows_push_error.
Qed.

(** The rules of the SEO check that come after its heading part append
    findings and leave the headings alone. *)
Lemma seo_rules_follow_heading_part (options : Check.CheckOptions)
      (document : Dom.Document) (page : Check.PageType) :
  Check.seo options = Some true ->
  follows (SeoCheck.headingPart options document page)
          (fst (SeoRules.check outerHTML probe options document page)).
Proof.
  intros Hseo. unfold SeoRules.check. rewrite Hseo. cbn [JS.truthy_flag negb].
  eapply follows_trans; [| apply follows_images]. cbn [fst].
  eapply follows_trans;
    [| unfold SeoRules.hrefRule; apply follows_fold; intros; apply follows_push_error].
  eapply follows_trans;
    [| unfold SeoRules.h1LengthRule; apply follows_fold; intros p h;
       destruct (12 <? _)%nat; [apply follows_push_warning | apply follows_refl]].
  eapply follows_trans;
    [| unfold SeoRules.descriptionRule;
       destruct (Dom.querySelectorAll document _);
       [apply follows_push_error | apply follows_refl]].
  unfold SeoRules.titleRule. destruct (negb _); [apply follows_push_error |].
  destruct (SeoRules.overflowTitle _); [apply follows_push_warning | apply follows_refl].
Qed.

(** On a page whose extracted headings are of the first and the third
    level only, the SEO check records its own error for level 3. *)
Lemma seo_check_records_its_own_error (options : Check.CheckOptions)
      (document : Dom.Document) (page : Check.PageType) :
  Check.seo options = Some true ->
  (forall i, (1 <= i <= 6)%Z ->
             Check.used (SeoCheck.extractHeadings document) i
             = ((i =? 1)%Z || (i =? 3)%Z)) ->
  In "SEO: Heading 3 without heading 2"
     (Check.errors (fst (SeoRules.check outerHTML probe options document page))).
Proof.
  intros Hseo Hused.
  assert (Hpart : In "SEO: Heading 3 without heading 2"
                     (Check.errors (SeoCheck.headingPart options document page))).
  { unfold SeoCheck.headingPart. rewrite Hseo. simpl negb. cbv iota zeta.
    match goal with
    | |- In _ (Check.errors (SeoCheck.headingLoop ?p)) =>
        assert (Hp : Check.headings p = SeoCheck.extractHeadings document)
          by (destruct (1 <? _)%nat; cbn [Check.push_error Check.headings];
              destruct (Dom.querySelectorAll document [[Dom.Tag "h1"]]);
              try destruct (SeoCheck.allEmpty _); reflexivity);
        rewrite (seo_loop_single_gap p 3 ltac:(lia))
          by (rewrite Hp; exact Hused)
    end.
    apply in_or_app. right. now left. }
  destruct (seo_rules_follow_heading_part options document page Hseo)
    as [[_ [_ [_ [[more Hmore] _]]]] _].
  rewrite Hmore. apply in_or_app. left. exact Hpart.
Qed.

Lemma seo_check_leaves_extracted_headings (options : Check.CheckOptions)
      (document : Dom.Document) (page : Check.PageType) :
  Check.seo options = Some true ->
  Check.headings (fst (SeoRules.check outerHTML probe options document page))
  = SeoCheck.extractHeadings document.
Proof.
  intros Hseo.
  destruct (seo_rules_follow_heading_part options document page Hseo) as [_ Hh].
  etransitivity.
  - exact Hh.
  - apply headingPart_headings. exact Hseo.
Qed.
End AfterExtraction.

(** The headings hold entries of the first and the third level only. *)
Lemma only_first_and_third (hs : Check.Headings) :
  Check.h1 hs <> [] -> Check.h3 hs <> [] ->
  Check.h2 hs = [] -> Check.h4 hs = [] -> Check.h5 hs = [] -> Check.h6 hs = [] ->
  forall i, (1 <= i <= 6)%Z -> Check.used hs i = ((i =? 1)%Z || (i =? 3)%Z).
Proof.
  intros H1 H3 H2 H4 H5 H6 i Hi.
  assert (Hcases : i = 1%Z \/ i = 2%Z \/ i = 3%Z \/ i = 4%Z \/ i = 5%Z \/ i = 6%Z) by lia.
  destruct Hcases as [-> | [-> | [-> | [-> | [-> | ->]]]]]; simpl;
    try (apply used_iff_not_nil; assumption);
    unfold Check.used; simpl; rewrite ?H2, ?H4, ?H5, ?H6; reflexivity.
Qed.

(** On a page whose six heading lists are empty the hierarchy check
    does nothing. *)
Lemma hierarchy_check_without_headings (options : Check.CheckOptions)
      (document : Dom.Document) (page : Check.PageType) :
  Check.headings page = Check.no_headings ->
  HeadingHierarchy.check options document page = page.
Proof.
  intros Hh. unfold HeadingHierarchy.check.
  destruct (negb _); [reflexivity |].
  assert (Hstep : forall i, HeadingHierarchy.visit page i = page).
  { intros i. unfold HeadingHierarchy.visit. rewrite Hh.
    replace (Check.used Check.no_headings i) with false; [reflexivity |].
    unfold Check.used, Check.level, Check.no_headings.
    destruct i as [| [[[| |] | [| |] |] | [[| |] | [| |] |] |] |]; reflexivity. }
  induction HeadingHierarchy.levels as [| i l IH]; [reflexivity |].
  cbn [fold_left]. now rewrite Hstep.
Qed.

(** C7.  The heading hierarchy check reads [page.headings]; it extracts
    nothing itself.  Run after the SEO check, which leaves the headings
    of the document there, it appends, for a level from 3 to 6, the error
    about a skipped level exactly when the level is in use, the level
    above it is empty and some level still shallower is in use, and, for
    a level from 2 to 6, the error about a missing parent exactly when
    the level is in use and no shallower level is; it appends no message
    twice and nothing else.  So for every document whose extracted
    headings are of the first and the third level only it appends one
    error, that level 3 skips level 2, next to the error the SEO check
    has recorded for level 3 on its own account.  Run on a page whose
    heading lists are still empty, as [checkPath] builds it, the
    hierarchy check records nothing. *)
Theorem C7_h3_without_h2_flagged_once
        (outerHTML : Dom.Node -> string) (probe : string -> string -> SeoRules.Probe)
        (options : Check.CheckOptions) (document : Dom.Document) (page : Check.PageType) :
  Check.seo options = Some true ->
  let hs := SeoCheck.extractHeadings document in
  let prepared := fst (SeoRules.check outerHTML probe options document page) in
  (exists added,
      Check.errors (HeadingHierarchy.check options document prepared)
      = Check.errors prepared ++ added
      /\ NoDup added
      /\ (forall n, (3 <= n <= 6)%Z ->
            In (skippedLevelError n) added
            <-> Check.used hs n = true /\ Check.used hs (n - 1) = false
                /\ exists k, (1 <= k < n - 1)%Z /\ Check.used hs k = true)
      /\ (forall n, (2 <= n <= 6)%Z ->
            In (orphanLevelError n) added
            <-> Check.used hs n = true
                /\ forall k, (1 <= k < n)%Z -> Check.used hs k = false)
      /\ (forall m, In m added ->
                    (exists n, (3 <= n <= 6)%Z /\ m = skippedLevelError n)
                    \/ (exists n, (2 <= n <= 6)%Z /\ m = orphanLevelError n))
      /\ (Check.h1 hs <> [] -> Check.h3 hs <> [] ->
          Check.h2 hs = [] -> Check.h4 hs = [] -> Check.h5 hs = [] -> Check.h6 hs = [] ->
          added = ["SEO: Heading hierarchy - h3 skips h2 level"]
          /\ In "SEO: Heading 3 without heading 2" (Check.errors prepared)))
  /\ (Check.headings page = Check.no_headings ->
      HeadingHierarchy.check options document page = page).
Proof.
  intros Hseo hs prepared.
  split; [| apply hierarchy_check_without_headings].
  assert (Hh : Check.headings prepared = hs)
    by (apply seo_check_leaves_extracted_headings; exact Hseo).
  assert (Hown : (forall i, (1 <= i <= 6)%Z ->
                            Check.used hs i = ((i =? 1)%Z || (i =? 3)%Z)) ->
                 In "SEO: Heading 3 without heading 2" (Check.errors prepared))
    by (apply seo_check_records_its_own_error; exact Hseo).
  clearbody prepared hs.
  assert (He : Check.errors (HeadingHierarchy.check options document prepared)
               = Check.errors (fold_left HeadingHierarchy.visit HeadingHierarchy.levels
                                         prepared)).
  { unfold HeadingHierarchy.check. rewrite Hseo. simpl negb. cbv iota. reflexivity. }
  rewrite (visits_findings hs HeadingHierarchy.levels prepared Hh) in He.
  destruct (hierarchy_findings_in_words hs) as [Hnd [Hs [Ho Hc]]].
  eexists. split; [exact He |].
  split; [exact Hnd |]. split; [exact Hs |]. split; [exact Ho |]. split; [exact Hc |].
  intros H1 H3 H2 H4 H5 H6.
  pose proof (only_first_and_third hs H1 H3 H2 H4 H5 H6) as Hused.
  split; [| exact (Hown Hused)].
  assert (Hgap : forall i, (1 <= i <= 6)%Z ->
                 Check.used (Check.headings prepared) i = ((i =? 1)%Z || (i =? 3)%Z))
    by (rewrite Hh; exact Hused).
  pose proof (hierarchy_single_gap prepared 3 ltac:(lia) Hgap options document Hseo)
    as Hone.
  rewrite He in Hone. apply app_inv_head in Hone. exact Hone.
Qed.

Lemma C7_h3_without_h2_flagged_once_witness :
  (exists added,
      Check.errors
        (HeadingHierarchy.check
           Samples.allChecks Samples.h1h3Document
           (fst (SeoRules.check Samples.tagOnly offline Samples.allChecks
                                Samples.h1h3Document Samples.blankPage)))
      = Check.errors (fst (SeoRules.check Samples.tagOnly offline Samples.allChecks
                                          Samples.h1h3Document Samples.blankPage))
          ++ added
      /\ added = ["SEO: Heading hierarchy - h3 skips h2 level"])
  /\ HeadingHierarchy.check Samples.allChecks Samples.h1h3Document Samples.blankPage
     = Samples.blankPage.
Proof.
  destruct (C7_h3_without_h2_flagged_once
              Samples.tagOnly offline Samples.allChecks Samples.h1h3Document
              Samples.blankPage eq_refl)
    as [[added [He [_ [_ [_ [_ Hinstance]]]]]] Hblank].
  split; [| exact (Hblank eq_refl)].
  exists added. split; [exact He | clear He].
  refine (proj1 (Hinstance _ _ _ _ _ _)); vm_compute;
    first [reflexivity | intros E; discriminate E].
Defined.

(** The document has a first-level and a third-level heading and no
    other, and the hierarchy check, run on the page as [checkPath] builds
    it, records nothing; with the hierarchy check registered before the
    SEO check the record of the page holds no error of the hierarchy
    check, and with the SEO check registered first it holds one. *)
Lemma C7_hierarchy_check_before_extraction_records_nothing :
  SeoCheck.extractHeadings Samples.h1h3Document
  = {| Check.h1 := ["Home"]; Check.h2 := []; Check.h3 := ["Details"];
       Check.h4 := []; Check.h5 := []; Check.h6 := [] |}
  /\ Check.errors (HeadingHierarchy.check Samples.allChecks Samples.h1h3Document
                                          Samples.blankPage) = []
  /\ map Check.errors
         (JS.values
            (Checker.pages
               (snd (Checker.checkPath Samples.siteURL h1h3Site hierarchyFirst
                                       Samples.base "/" Samples.emptyChecker
                                       Samples.allChecks))))
     = [["SEO: Heading 3 without heading 2"; "SEO: Missing meta description tag"]]
  /\ map Check.errors
         (JS.values
            (Checker.pages
               (snd (Checker.checkPath Samples.siteURL h1h3Site seoFirst
                                       Samples.base "/" Samples.emptyChecker
                                       Samples.allChecks))))
     = [["SEO: Heading 3 without heading 2"; "SEO: Missing meta description tag";
         "SEO: Heading hierarchy - h3 skips h2 level"]].
Proof. repeat split; vm_compute; reflexivity. Qed.
